(** * The resilient real-time connection client

    A shallow embedding of the [WebSocketService] class of
    [frontend/src/hooks/useRealTimeData.ts] (the "websocket.service.ts"
    part of that file), together with the pieces of the browser it talks
    to: [WebSocket] objects with their [readyState], the timer queue behind
    [setTimeout]/[setInterval], promises, and the clock behind [Date.now()].

    The class is a mutable object driven by an event loop, so the embedding
    is explicit state passing over one record, [World], that holds the
    fields of the object next to the browser state.  Every method is a
    function on [World]; the event loop is the step function [step] over
    the events the collaborators and the browser can raise.

    What is left to the platform and how it appears here:
    - [JSON.stringify]/[JSON.parse]: an outbound text frame is kept as the
      value it serialises ([Frame]); an inbound frame is given by what
      [JSON.parse] makes of it ([MessageData]);
    - [Math.random()]: the draw is an argument of the close event;
    - collaborator callbacks are opaque: invoking one is recorded in
      [calls]; they are taken not to throw and not to re-enter the service;
    - timer identifiers are positive, so a stored identifier is truthy;
    - numbers are binary64 values: the arithmetic of the backoff delay is
      rounded operation by operation, by [b64] on the rationals;
    - [console] output is not modelled.

    Line numbers in the comments are those of that source file.

    The two React hooks next to the class are embedded in modules of
    their own: [RealTimeData] for the polling hook [useRealTimeData] of
    the same file, and [UseWebSocket] for the hook variant of the client,
    [useWebSocket] of [frontend/src/types/index.ts]. *)

From Stdlib Require Import QArith Qpower Qminmax Qround Lqa.
From stdpp Require Import gmap strings list.

Local Open Scope string_scope.

(** ** Data *)

(** [WSState], the connection state of the service. *)
Inductive WSState : Type :=
| idle | connecting | connected | reconnecting | disconnected.

#[global] Instance WSState_eq_dec : EqDecision WSState.
Proof. solve_decision. Defined.

(** [WebSocket.readyState]. *)
Inductive ReadyState : Type := CONNECTING | OPEN | CLOSING | CLOSED.

#[global] Instance ReadyState_eq_dec : EqDecision ReadyState.
Proof. solve_decision. Defined.

#[local] Set Warnings "-register-all".

(** Values that travel as [any]: the JSON fragment of JavaScript values.
    Numbers are kept as integers; only their being zero matters here. *)
Inductive json : Type :=
| JNull
| JBool (b : bool)
| JNum (n : Z)
| JStr (s : string)
| JArr (xs : list json)
| JObj (kvs : list (string * json)).

(** Property read [v.k]; [None] is [undefined].  In an object literal with
    a repeated key the last one wins; other values have none of the
    properties read by this program. *)
Fixpoint assoc_last (k : string) (kvs : list (string * json)) : option json :=
  match kvs with
  | [] => None
  | (k', v) :: rest =>
      match assoc_last k rest with
      | Some v' => Some v'
      | None => if String.eqb k' k then Some v else None
      end
  end.

Definition prop (k : string) (v : json) : option json :=
  match v with
  | JObj kvs => assoc_last k kvs
  | _ => None
  end.

(** JavaScript truthiness, as used by [||]. *)
Definition truthy (v : json) : bool :=
  match v with
  | JNull => false
  | JBool b => b
  | JNum n => negb (n =? 0)%Z
  | JStr s => negb (String.eqb s "")
  | JArr _ | JObj _ => true
  end.

(** [v === s] for a string literal [s]. *)
Definition is_str (s : string) (v : json) : bool :=
  match v with
  | JStr s' => String.eqb s' s
  | _ => false
  end.

(** An outbound queue entry, [{ type, data }]. *)
Record Message : Type := mkMessage { msg_type : string; msg_data : json }.

Definition message_json (m : Message) : json :=
  JObj [("type", JStr (msg_type m)); ("data", msg_data m)].

(** A text frame handed to [socket.send]: [JSON.stringify v]. *)
Inductive Frame : Type := Stringified (v : json).

(** [ev.data] of a message event, by what [JSON.parse] does with it. *)
Inductive MessageData : Type :=
| NonJSON (raw : string)
| JSONText (v : json).

(** Function identities held in the listener registry.  [Ext] is a
    callback of a collaborator; the other two are the closures the class
    itself creates, in [once] and in [waitForConnection]. *)
Inductive Listener : Type :=
| Ext (id : nat)
| OnceWrapper (event : string) (wid : nat) (cb : nat)
| WaitHandler (p : nat) (timer : nat).

#[global] Instance Listener_eq_dec : EqDecision Listener.
Proof. solve_decision. Defined.

(** What a pending timer runs when it fires. *)
Inductive TimerAction : Type :=
| TReconnect            (* [() => this.connect()] *)
| THeartbeat            (* the [setInterval] body of [startHeartbeat] *)
| TPong                 (* the pong deadline: [this.socket?.close()] *)
| TWait (p : nat).      (* the timeout of [waitForConnection] *)

#[global] Instance TimerAction_eq_dec : EqDecision TimerAction.
Proof. solve_decision. Defined.

Record Timer : Type := mkTimer {
  action : TimerAction;
  delay : Q;            (* the delay it was scheduled with *)
  due : Q               (* clock value from which it may fire *)
}.

(** A [WebSocket] object. *)
Record Socket : Type := mkSocket {
  url : string;
  readyState : ReadyState;
  handlers : bool;      (* onopen/onclose/onerror/onmessage are set *)
  sent : list Frame     (* frames passed to [send] while open *)
}.

(** The constants of the class, lines 197-209. *)
Record Config : Type := mkConfig {
  maxReconnectAttempts : nat;
  baseReconnectDelay : Q;
  heartbeatIntervalMs : Q;
  heartbeatTimeoutMs : Q;
  maxQueueSize : nat
}.

Definition default_config : Config :=
  mkConfig 8 1000 15000 12000 100.

(** What [connect] reads from the page. *)
Record Platform : Type := mkPlatform {
  auth_token : option string;          (* localStorage.getItem("auth_token") *)
  location_protocol : string;
  location_host : string;
  encodeURIComponent : string -> string
}.

(** The object's fields ([socket] .. [lastDisconnectedAt]) followed by the
    browser state: every socket constructed so far, the pending timers,
    the resolved promises, the invocations of collaborator callbacks, and
    the clock. *)
Record World : Type := mkWorld {
  cfg : Config;
  platform : Platform;
  socket : option nat;
  listeners : gmap string (list Listener);
  reconnectAttempts : nat;
  manualClose : bool;
  heartbeatTimer : option nat;
  pongTimeout : option nat;
  messageQueue : list Message;
  state : WSState;
  lastConnectedAt : option Z;
  lastDisconnectedAt : option Z;
  sockets : list Socket;
  timers : gmap nat Timer;
  nextTimer : nat;
  promises : gmap nat bool;
  nextPromise : nat;
  nextWrapper : nat;
  calls : list (nat * json);
  now : Z
}.

Definition set_socket (v : option nat) (w : World) : World :=
  mkWorld (cfg w) (platform w) v (listeners w) (reconnectAttempts w)
    (manualClose w) (heartbeatTimer w) (pongTimeout w) (messageQueue w)
    (state w) (lastConnectedAt w) (lastDisconnectedAt w) (sockets w)
    (timers w) (nextTimer w) (promises w) (nextPromise w) (nextWrapper w)
    (calls w) (now w).

Definition set_listeners (v : gmap string (list Listener)) (w : World) : World :=
  mkWorld (cfg w) (platform w) (socket w) v (reconnectAttempts w)
    (manualClose w) (heartbeatTimer w) (pongTimeout w) (messageQueue w)
    (state w) (lastConnectedAt w) (lastDisconnectedAt w) (sockets w)
    (timers w) (nextTimer w) (promises w) (nextPromise w) (nextWrapper w)
    (calls w) (now w).

Definition set_reconnectAttempts (v : nat) (w : World) : World :=
  mkWorld (cfg w) (platform w) (socket w) (listeners w) v (manualClose w)
    (heartbeatTimer w) (pongTimeout w) (messageQueue w) (state w)
    (lastConnectedAt w) (lastDisconnectedAt w) (sockets w) (timers w)
    (nextTimer w) (promises w) (nextPromise w) (nextWrapper w) (calls w)
    (now w).

Definition set_manualClose (v : bool) (w : World) : World :=
  mkWorld (cfg w) (platform w) (socket w) (listeners w)
    (reconnectAttempts w) v (heartbeatTimer w) (pongTimeout w)
    (messageQueue w) (state w) (lastConnectedAt w) (lastDisconnectedAt w)
    (sockets w) (timers w) (nextTimer w) (promises w) (nextPromise w)
    (nextWrapper w) (calls w) (now w).

Definition set_heartbeatTimer (v : option nat) (w : World) : World :=
  mkWorld (cfg w) (platform w) (socket w) (listeners w)
    (reconnectAttempts w) (manualClose w) v (pongTimeout w) (messageQueue w)
    (state w) (lastConnectedAt w) (lastDisconnectedAt w) (sockets w)
    (timers w) (nextTimer w) (promises w) (nextPromise w) (nextWrapper w)
    (calls w) (now w).

Definition set_pongTimeout (v : option nat) (w : World) : World :=
  mkWorld (cfg w) (platform w) (socket w) (listeners w)
    (reconnectAttempts w) (manualClose w) (heartbeatTimer w) v
    (messageQueue w) (state w) (lastConnectedAt w) (lastDisconnectedAt w)
    (sockets w) (timers w) (nextTimer w) (promises w) (nextPromise w)
    (nextWrapper w) (calls w) (now w).

Definition set_messageQueue (v : list Message) (w : World) : World :=
  mkWorld (cfg w) (platform w) (socket w) (listeners w)
    (reconnectAttempts w) (manualClose w) (heartbeatTimer w) (pongTimeout w)
    v (state w) (lastConnectedAt w) (lastDisconnectedAt w) (sockets w)
    (timers w) (nextTimer w) (promises w) (nextPromise w) (nextWrapper w)
    (calls w) (now w).

Definition set_state (v : WSState) (w : World) : World :=
  mkWorld (cfg w) (platform w) (socket w) (listeners w)
    (reconnectAttempts w) (manualClose w) (heartbeatTimer w) (pongTimeout w)
    (messageQueue w) v (lastConnectedAt w) (lastDisconnectedAt w)
    (sockets w) (timers w) (nextTimer w) (promises w) (nextPromise w)
    (nextWrapper w) (calls w) (now w).

Definition set_lastConnectedAt (v : option Z) (w : World) : World :=
  mkWorld (cfg w) (platform w) (socket w) (listeners w)
    (reconnectAttempts w) (manualClose w) (heartbeatTimer w) (pongTimeout w)
    (messageQueue w) (state w) v (lastDisconnectedAt w) (sockets w)
    (timers w) (nextTimer w) (promises w) (nextPromise w) (nextWrapper w)
    (calls w) (now w).

Definition set_lastDisconnectedAt (v : option Z) (w : World) : World :=
  mkWorld (cfg w) (platform w) (socket w) (listeners w)
    (reconnectAttempts w) (manualClose w) (heartbeatTimer w) (pongTimeout w)
    (messageQueue w) (state w) (lastConnectedAt w) v (sockets w) (timers w)
    (nextTimer w) (promises w) (nextPromise w) (nextWrapper w) (calls w)
    (now w).

Definition set_sockets (v : list Socket) (w : World) : World :=
  mkWorld (cfg w) (platform w) (socket w) (listeners w)
    (reconnectAttempts w) (manualClose w) (heartbeatTimer w) (pongTimeout w)
    (messageQueue w) (state w) (lastConnectedAt w) (lastDisconnectedAt w) v
    (timers w) (nextTimer w) (promises w) (nextPromise w) (nextWrapper w)
    (calls w) (now w).

Definition set_timers (v : gmap nat Timer) (w : World) : World :=
  mkWorld (cfg w) (platform w) (socket w) (listeners w)
    (reconnectAttempts w) (manualClose w) (heartbeatTimer w) (pongTimeout w)
    (messageQueue w) (state w) (lastConnectedAt w) (lastDisconnectedAt w)
    (sockets w) v (nextTimer w) (promises w) (nextPromise w) (nextWrapper w)
    (calls w) (now w).

Definition set_nextTimer (v : nat) (w : World) : World :=
  mkWorld (cfg w) (platform w) (socket w) (listeners w)
    (reconnectAttempts w) (manualClose w) (heartbeatTimer w) (pongTimeout w)
    (messageQueue w) (state w) (lastConnectedAt w) (lastDisconnectedAt w)
    (sockets w) (timers w) v (promises w) (nextPromise w) (nextWrapper w)
    (calls w) (now w).

Definition set_promises (v : gmap nat bool) (w : World) : World :=
  mkWorld (cfg w) (platform w) (socket w) (listeners w)
    (reconnectAttempts w) (manualClose w) (heartbeatTimer w) (pongTimeout w)
    (messageQueue w) (state w) (lastConnectedAt w) (lastDisconnectedAt w)
    (sockets w) (timers w) (nextTimer w) v (nextPromise w) (nextWrapper w)
    (calls w) (now w).

Definition set_nextPromise (v : nat) (w : World) : World :=
  mkWorld (cfg w) (platform w) (socket w) (listeners w)
    (reconnectAttempts w) (manualClose w) (heartbeatTimer w) (pongTimeout w)
    (messageQueue w) (state w) (lastConnectedAt w) (lastDisconnectedAt w)
    (sockets w) (timers w) (nextTimer w) (promises w) v (nextWrapper w)
    (calls w) (now w).

Definition set_nextWrapper (v : nat) (w : World) : World :=
  mkWorld (cfg w) (platform w) (socket w) (listeners w)
    (reconnectAttempts w) (manualClose w) (heartbeatTimer w) (pongTimeout w)
    (messageQueue w) (state w) (lastConnectedAt w) (lastDisconnectedAt w)
    (sockets w) (timers w) (nextTimer w) (promises w) (nextPromise w) v
    (calls w) (now w).

Definition set_calls (v : list (nat * json)) (w : World) : World :=
  mkWorld (cfg w) (platform w) (socket w) (listeners w)
    (reconnectAttempts w) (manualClose w) (heartbeatTimer w) (pongTimeout w)
    (messageQueue w) (state w) (lastConnectedAt w) (lastDisconnectedAt w)
    (sockets w) (timers w) (nextTimer w) (promises w) (nextPromise w)
    (nextWrapper w) v (now w).

Definition set_now (v : Z) (w : World) : World :=
  mkWorld (cfg w) (platform w) (socket w) (listeners w)
    (reconnectAttempts w) (manualClose w) (heartbeatTimer w) (pongTimeout w)
    (messageQueue w) (state w) (lastConnectedAt w) (lastDisconnectedAt w)
    (sockets w) (timers w) (nextTimer w) (promises w) (nextPromise w)
    (nextWrapper w) (calls w) v.

(** ** The browser *)

(** Exceptions.  A function that may throw returns an [Outcome]; a throw
    keeps the world as it was when the exception left the function. *)
Inductive Outcome : Type :=
| Returned (w : World)
| Thrown (e : string) (w : World).

Definition bind (o : Outcome) (k : World -> Outcome) : Outcome :=
  match o with
  | Returned w => k w
  | Thrown e w => Thrown e w
  end.

Notation "o >>= k" := (bind o k) (at level 50, left associativity).

Definition world_of (o : Outcome) : World :=
  match o with
  | Returned w => w
  | Thrown _ w => w
  end.

(** [try { body } catch { }] *)
Definition try_catch (o : Outcome) : World := world_of o.

(** [Date.now()] *)
Definition Date_now (w : World) : Z := now w.

(** [setTimeout(f, d)] and [setInterval(f, d)]: a fresh identifier, due
    [d] after the present. *)
Definition setTimer (a : TimerAction) (d : Q) (w : World) : nat * World :=
  let id := nextTimer w in
  (id,
   set_nextTimer (S id)
     (set_timers (<[id := mkTimer a d (inject_Z (now w) + d)]> (timers w)) w)).

(** [clearTimeout(id)] and [clearInterval(id)] *)
Definition clearTimer (id : nat) (w : World) : World :=
  set_timers (delete id (timers w)) w.

(** [if (t) clearTimeout(t)] for a field that holds an identifier or
    [null]. *)
Definition clear_if_set (t : option nat) (w : World) : World :=
  match t with
  | Some id => clearTimer id w
  | None => w
  end.

(** [new WebSocket(url)]: the new object is the last of [sockets]. *)
Definition new_WebSocket (u : string) (w : World) : nat * World :=
  (length (sockets w),
   set_sockets (sockets w ++ [mkSocket u CONNECTING false []]) w).

Definition socket_readyState (sid : nat) (w : World) : option ReadyState :=
  readyState <$> sockets w !! sid.

Definition update_socket (sid : nat) (f : Socket -> Socket) (w : World) : World :=
  match sockets w !! sid with
  | Some s => set_sockets (<[sid := f s]> (sockets w)) w
  | None => w
  end.

Definition with_readyState (r : ReadyState) (s : Socket) : Socket :=
  mkSocket (url s) r (handlers s) (sent s).

Definition with_handlers (s : Socket) : Socket :=
  mkSocket (url s) (readyState s) true (sent s).

Definition with_sent (f : Frame) (s : Socket) : Socket :=
  mkSocket (url s) (readyState s) (handlers s) (sent s ++ [f]).

(** [socket.close()]: starts the closing handshake unless the socket is
    closing or closed already; the close event comes later. *)
Definition socket_close (sid : nat) (w : World) : World :=
  update_socket sid
    (fun s => match readyState s with
              | CONNECTING | OPEN => with_readyState CLOSING s
              | CLOSING | CLOSED => s
              end) w.

(** [socket.send(frame)]: throws while connecting, transmits while open,
    and drops the frame silently once closing or closed. *)
Definition socket_send (sid : nat) (f : Frame) (w : World) : Outcome :=
  match sockets w !! sid with
  | Some s =>
      match readyState s with
      | CONNECTING => Thrown "InvalidStateError" w
      | OPEN => Returned (update_socket sid (with_sent f) w)
      | CLOSING | CLOSED => Returned w
      end
  | None => Returned w
  end.

(** [this.socket && this.socket.readyState === WebSocket.OPEN] *)
Definition socket_is_open (w : World) : bool :=
  match socket w with
  | Some sid =>
      match socket_readyState sid w with
      | Some OPEN => true
      | _ => false
      end
  | None => false
  end.

(** [resolve(v)] of promise [p]; a settled promise stays as it is. *)
Definition resolve (p : nat) (v : bool) (w : World) : World :=
  match promises w !! p with
  | Some _ => w
  | None => set_promises (<[p := v]> (promises w)) w
  end.

(** ** Event Dispatcher *)

(** [Set.add]: insertion order, no duplicates. *)
Definition set_add (cb : Listener) (s : list Listener) : list Listener :=
  if decide (cb ∈ s) then s else s ++ [cb].

(** [Set.delete] *)
Definition set_delete (cb : Listener) (s : list Listener) : list Listener :=
  filter (λ x, x ≠ cb) s.

(** on(event, callback), lines 351-354 *)
Definition on (event : string) (callback : Listener) (w : World) : World :=
  let m := match listeners w !! event with
           | Some _ => listeners w
           | None => <[event := []]> (listeners w)
           end in
  set_listeners (<[event := set_add callback (default [] (m !! event))]> m) w.

(** off(event, callback), lines 364-370 *)
Definition off (event : string) (callback : Listener) (w : World) : World :=
  match listeners w !! event with
  | Some s =>
      let s' := set_delete callback s in
      if (length s' =? 0)%nat
      then set_listeners (delete event (listeners w)) w
      else set_listeners (<[event := s']> (listeners w)) w
  | None => w
  end.

(** once(event, callback), lines 356-362: the wrapper is a new closure at
    every call. *)
Definition once (event : string) (callback : nat) (w : World) : World :=
  let wrapper := OnceWrapper event (nextWrapper w) callback in
  on event wrapper (set_nextWrapper (S (nextWrapper w)) w).

(** [data.status === "connected"], the test of the handler that
    waitForConnection registers (line 428) *)
Definition connected_status (data : json) : bool :=
  match prop "status" data with
  | Some st => is_str "connected" st
  | None => false
  end.

(** Calling a registered function with [data]: a collaborator's
    callback, the wrapper of [once] (lines 357-360), or the handler of
    waitForConnection (lines 427-433). *)
Definition invoke (l : Listener) (data : json) (w : World) : World :=
  match l with
  | Ext id => set_calls (calls w ++ [(id, data)]) w
  | OnceWrapper event _ cb =>
      let w := off event l w in
      set_calls (calls w ++ [(cb, data)]) w
  | WaitHandler p timer =>
      if connected_status data
      then resolve p true (off "connection" l (clearTimer timer w))
      else w
  end.

(** [set.forEach((cb) => cb(data))].  The closures of this class delete
    only themselves while they run, and collaborator callbacks are opaque,
    so visiting the members present at the start is what [forEach] does. *)
Definition forEach_invoke (s : list Listener) (data : json) (w : World) : World :=
  foldl (λ w cb, invoke cb data w) w s.

(** [this.listeners.get(event)] for an [event] that need not be a string:
    the registry has string keys only. *)
Definition listeners_get (event : json) (w : World) : option (list Listener) :=
  match event with
  | JStr s => listeners w !! s
  | _ => None
  end.

(** emit(event, data), lines 372-379 *)
Definition emit (event : json) (data : json) (w : World) : World :=
  let w := match listeners_get event w with
           | Some s => forEach_invoke s data w
           | None => w
           end in
  match listeners w !! "*" with
  | Some s => forEach_invoke s (JObj [("event", event); ("data", data)]) w
  | None => w
  end.

(** ** Heartbeat Monitor *)

(** clearHeartbeat(), lines 329-334 *)
Definition clearHeartbeat (w : World) : World :=
  let w := clear_if_set (heartbeatTimer w) w in
  let w := clear_if_set (pongTimeout w) w in
  set_pongTimeout None (set_heartbeatTimer None w).

(** startHeartbeat(), lines 310-327 *)
Definition startHeartbeat (w : World) : World :=
  let w := clearHeartbeat w in
  let '(id, w) := setTimer THeartbeat (heartbeatIntervalMs (cfg w)) w in
  set_heartbeatTimer (Some id) w.

Definition ping_frame (w : World) : Frame :=
  Stringified (JObj [("type", JStr "ping"); ("ts", JNum (Date_now w))]).

(** The body run by the heartbeat interval, lines 313-325. *)
Definition heartbeat_tick (w : World) : World :=
  if socket_is_open w then
    match socket w with
    | Some sid =>
        try_catch
          (socket_send sid (ping_frame w) w >>= λ w,
           let w := clear_if_set (pongTimeout w) w in
           let '(id, w) := setTimer TPong (heartbeatTimeoutMs (cfg w)) w in
           Returned (set_pongTimeout (Some id) w))
    | None => w
    end
  else w.

(** The body run by the pong deadline, lines 320-321:
    [this.socket?.close()]. *)
Definition pong_deadline (w : World) : World :=
  match socket w with
  | Some sid => socket_close sid w
  | None => w
  end.

(** ** Outbound Queue *)

(** send(event, data), lines 382-395 *)
Definition send (event : string) (data : json) (w : World) : Outcome :=
  let message := mkMessage event data in
  if socket_is_open w then
    match socket w with
    | Some sid => socket_send sid (Stringified (message_json message)) w
    | None => Returned w
    end
  else
    let w :=
      if (maxQueueSize (cfg w) <=? length (messageQueue w))%nat
      then set_messageQueue (tail (messageQueue w)) w   (* shift() *)
      else w in
    Returned (set_messageQueue (messageQueue w ++ [message]) w).

(** [this.messageQueue.forEach((msg) => this.socket!.send(...))] *)
Fixpoint send_all (sid : nat) (q : list Message) (w : World) : Outcome :=
  match q with
  | [] => Returned w
  | m :: rest =>
      socket_send sid (Stringified (message_json m)) w >>= send_all sid rest
  end.

(** flushQueue(), lines 397-407 *)
Definition flushQueue (w : World) : Outcome :=
  if (length (messageQueue w) =? 0)%nat then Returned w
  else if socket_is_open w then
    match socket w with
    | Some sid =>
        send_all sid (messageQueue w) w >>= λ w,
        Returned (set_messageQueue [] w)
    | None => Returned w
    end
  else Returned w.

(** ** Connection Manager and Reconnection Scheduler *)

(** The URL built in connect(), lines 225-230. *)
Definition connection_url (pf : Platform) : string :=
  let protocol :=
    if String.eqb (location_protocol pf) "https:" then "wss:" else "ws:" in
  protocol ++ "//" ++ location_host pf ++ "/ws" ++
  match auth_token pf with
  | Some token =>
      if String.eqb token "" then ""
      else "?token=" ++ encodeURIComponent pf token
  | None => ""
  end.

(** setupEventHandlers(), lines 238-285: the four callbacks are closures over [this];
    here they are the functions [onopen], [onclose], [onerror] and
    [onmessage] below, and the socket records that they are set. *)
Definition setupEventHandlers (w : World) : World :=
  match socket w with
  | Some sid => update_socket sid with_handlers w
  | None => w
  end.

(** connect(), lines 219-236 *)
Definition connect (w : World) : World :=
  if socket_is_open w then w
  else
    let w := set_manualClose false w in
    let w := set_state connecting w in
    let '(sid, w) := new_WebSocket (connection_url (platform w)) w in
    let w := set_socket (Some sid) w in
    setupEventHandlers w.

Definition status (s : string) : json := JObj [("status", JStr s)].

(** socket.onopen, lines 241-249 *)
Definition onopen (w : World) : Outcome :=
  let w := set_state connected w in
  let w := set_reconnectAttempts 0 w in
  let w := set_lastConnectedAt (Some (Date_now w)) w in
  let w := emit (JStr "connection") (status "connected") w in
  let w := startHeartbeat w in
  flushQueue w.

(** The numbers of the class are JavaScript numbers, that is IEEE 754
    binary64 values, and every arithmetic operation rounds its exact
    result to the nearest of them, ties to the even mantissa.  [b64] is
    that rounding on the rationals: a positive [x] with
    [2 ^ k <= x < 2 ^ (k + 1)] is scaled to 53 bits, [x / 2 ^ (k - 52)],
    rounded to an integer and scaled back.  The exponent range is left
    open.  No value of the class comes near the overflow threshold, and
    below the normal range a product with the integer 300 is exact in
    binary64 and here alike. *)
Definition ilog2 (x : Q) : Z :=
  if Qle_bool 1 x then Z.log2 (Qfloor x)
  else (- Z.log2_up (Qceiling (/ x)))%Z.

Definition rne (y : Q) : Z :=
  let f := Qfloor y in
  match (y - inject_Z f ?= 1 # 2)%Q with
  | Lt => f
  | Gt => (f + 1)%Z
  | Eq => if Z.even f then f else (f + 1)%Z
  end.

Definition round53 (x : Q) : Q :=
  let e := (ilog2 x - 52)%Z in
  (inject_Z (rne (x / Qpower 2 e)) * Qpower 2 e)%Q.

Definition b64 (x : Q) : Q :=
  match (x ?= 0)%Q with
  | Eq => 0%Q
  | Gt => round53 x
  | Lt => (- round53 (- x))%Q
  end.

(** The delay of handleReconnect, lines 295-297, from the incremented
    attempt counter and the value [rnd] drawn from [Math.random()].
    [Math.pow(2, n)] is exact; the product with 300, the two sums and the
    product with the base are each rounded. *)
Definition reconnect_jitter (rnd : Q) : Q := b64 (300 + b64 (rnd * 300)).

Definition reconnect_delay (base : Q) (attempts : nat) (rnd : Q) : Q :=
  let exp := Qpower 2 (Z.of_nat attempts - 1) in
  b64 (b64 (base * exp) + reconnect_jitter rnd).

(** handleReconnect(), lines 287-308 *)
Definition handleReconnect (rnd : Q) (w : World) : World :=
  if (maxReconnectAttempts (cfg w) <=? reconnectAttempts w)%nat then
    emit (JStr "connection") (status "failed") w
  else
    let w := set_reconnectAttempts (S (reconnectAttempts w)) w in
    let delay :=
      reconnect_delay (baseReconnectDelay (cfg w)) (reconnectAttempts w) rnd in
    let w := set_state reconnecting w in
    snd (setTimer TReconnect delay w).

(** socket.onclose, lines 251-261, for a close event with
    [ev.reason = reason] *)
Definition onclose (reason : string) (rnd : Q) (w : World) : World :=
  let w := set_state disconnected w in
  let w := clearHeartbeat w in
  let w := set_lastDisconnectedAt (Some (Date_now w)) w in
  let w := emit (JStr "connection")
             (JObj [("status", JStr "disconnected"); ("reason", JStr reason)]) w in
  if manualClose w then w else handleReconnect rnd w.

(** socket.onerror, lines 263-267; [String(ev)] of an event object *)
Definition onerror (w : World) : World :=
  emit (JStr "connection")
    (JObj [("status", JStr "error"); ("error", JStr "[object Event]")]) w.

(** socket.onmessage, lines 269-284.  [JSON.parse] throws on text that is
    not JSON and [msg.type] throws on [null]; both end in the [catch]. *)
Definition onmessage (data : MessageData) (w : World) : World :=
  match data with
  | NonJSON _ => w
  | JSONText JNull => w
  | JSONText msg =>
      let type := match prop "type" msg with
                  | Some t => if truthy t then t else JStr "message"
                  | None => JStr "message"
                  end in
      if is_str "pong" type
      then clear_if_set (pongTimeout w) w
      else emit type msg w
  end.

(** disconnect(), lines 336-348 *)
Definition disconnect (w : World) : World :=
  let w := set_manualClose true w in
  let w := clearHeartbeat w in
  let w := match socket w with
           | Some sid => set_socket None (socket_close sid w)
           | None => w
           end in
  let w := set_listeners ∅ w in
  set_state disconnected w.

(** isConnected(), lines 410-412 *)
Definition isConnected (w : World) : bool :=
  bool_decide (state w = connected).

(** getConnectionState(), lines 414-416 *)
Definition getConnectionState (w : World) : WSState := state w.

(** waitForConnection(timeoutMs), lines 418-437: the promise it returns,
    and the world after the executor ran. *)
Definition waitForConnection (timeoutMs : Q) (w : World) : nat * World :=
  let p := nextPromise w in
  let w := set_nextPromise (S p) w in
  if isConnected w then (p, resolve p true w)
  else
    let '(timer, w) := setTimer (TWait p) timeoutMs w in
    let handler := WaitHandler p timer in
    (p, on "connection" handler w).

(** The timeout callback of waitForConnection, lines 422-425; [timer] is
    its own id. *)
Definition wait_timeout (p timer : nat) (w : World) : World :=
  resolve p false (off "connection" (WaitHandler p timer) w).

(** forceReconnect(), lines 439-443 *)
Definition forceReconnect (w : World) : World :=
  connect (disconnect w).

(** getStats(), lines 445-453 *)
Record Stats : Type := mkStats {
  stats_state : WSState;
  stats_reconnectAttempts : nat;
  stats_lastConnectedAt : option Z;
  stats_lastDisconnectedAt : option Z;
  stats_queuedMessages : nat
}.

Definition getStats (w : World) : Stats :=
  mkStats (state w) (reconnectAttempts w) (lastConnectedAt w)
    (lastDisconnectedAt w) (length (messageQueue w)).

(** ** The event loop *)

(** The service as the module creates it: [new WebSocketService()]. *)
Definition new_WebSocketService (c : Config) (pf : Platform) (t0 : Z) : World :=
  mkWorld c pf None ∅ 0 false None None [] idle None None
    [] ∅ 1 ∅ 0 0 [] t0.

(** What can happen next: a collaborator calls a public method, the
    browser delivers an event of some socket, a timer fires, or time
    passes. *)
Inductive Event : Type :=
| CallConnect
| CallDisconnect
| CallForceReconnect
| CallSend (event : string) (data : json)
| CallOn (event : string) (cb : nat)
| CallOnce (event : string) (cb : nat)
| CallOff (event : string) (cb : nat)
| CallWaitForConnection (timeoutMs : Q)
| EvOpen (sid : nat)
| EvClose (sid : nat) (reason : string) (rnd : Q)
| EvError (sid : nat)
| EvMessage (sid : nat) (data : MessageData)
| EvTimer (id : nat)
| EvAdvance (ms : Z).

(** [Math.random()] lies in [0, 1). *)
Definition valid_random (rnd : Q) : bool :=
  Qle_bool 0 rnd && negb (Qle_bool 1 rnd).

(** A timer that fires: a timeout leaves the queue, an interval is armed
    again; then its callback runs. *)
Definition fire_timer (id : nat) (t : Timer) (w : World) : World :=
  match action t with
  | TReconnect => connect (clearTimer id w)
  | THeartbeat =>
      heartbeat_tick
        (set_timers
           (<[id := mkTimer THeartbeat (delay t) (inject_Z (now w) + delay t)]>
              (timers w)) w)
  | TPong => pong_deadline (clearTimer id w)
  | TWait p => wait_timeout p id (clearTimer id w)
  end.

(** One turn of the event loop; [None] when the event cannot occur in
    this world.  An exception that leaves a callback ends the turn. *)
Definition step (e : Event) (w : World) : option World :=
  match e with
  | CallConnect => Some (connect w)
  | CallDisconnect => Some (disconnect w)
  | CallForceReconnect => Some (forceReconnect w)
  | CallSend event data => Some (world_of (send event data w))
  | CallOn event cb => Some (on event (Ext cb) w)
  | CallOnce event cb => Some (once event cb w)
  | CallOff event cb => Some (off event (Ext cb) w)
  | CallWaitForConnection timeoutMs => Some (snd (waitForConnection timeoutMs w))
  | EvOpen sid =>
      match sockets w !! sid with
      | Some s =>
          match readyState s with
          | CONNECTING =>
              let w := update_socket sid (with_readyState OPEN) w in
              Some (if handlers s then world_of (onopen w) else w)
          | _ => None
          end
      | None => None
      end
  | EvClose sid reason rnd =>
      match sockets w !! sid with
      | Some s =>
          match readyState s with
          | CLOSED => None
          | _ =>
              if valid_random rnd then
                let w := update_socket sid (with_readyState CLOSED) w in
                Some (if handlers s then onclose reason rnd w else w)
              else None
          end
      | None => None
      end
  | EvError sid =>
      match sockets w !! sid with
      | Some s =>
          match readyState s with
          | CLOSED => None
          | _ => Some (if handlers s then onerror w else w)
          end
      | None => None
      end
  | EvMessage sid data =>
      match sockets w !! sid with
      | Some s =>
          match readyState s with
          | OPEN => Some (if handlers s then onmessage data w else w)
          | _ => None
          end
      | None => None
      end
  | EvTimer id =>
      match timers w !! id with
      | Some t =>
          if Qle_bool (due t) (inject_Z (now w))
          then Some (fire_timer id t w)
          else None
      | None => None
      end
  | EvAdvance ms =>
      if (0 <=? ms)%Z then Some (set_now (now w + ms)%Z w) else None
  end.

(** A run of the event loop. *)
Fixpoint run (es : list Event) (w : World) : option World :=
  match es with
  | [] => Some w
  | e :: rest =>
      match step e w with
      | Some w' => run rest w'
      | None => None
      end
  end.

(** A page served over https, no stored token. *)
Definition demo_platform : Platform :=
  mkPlatform None "https:" "ids.example" (λ s, s).

(** The exported singleton, [websocketService]. *)
Definition websocketService : World :=
  new_WebSocketService default_config demo_platform 0.

Local Open Scope list_scope.
Local Open Scope nat_scope.

(** ** Observations used in the statements *)

(** The listener set of a channel; an absent channel has none. *)
Definition chan (c : string) (w : World) : list Listener :=
  default [] (listeners w !! c).

(** The listener-count probe. *)
Definition listenerCount (c : string) (w : World) : nat := length (chan c w).

(** Frames a socket has transmitted. *)
Definition sent_on (sid : nat) (w : World) : list Frame :=
  default [] (sent <$> sockets w !! sid).

(** The frame [send] and [flushQueue] make of a message. *)
Definition frame_of (m : Message) : Frame := Stringified (message_json m).

(** Several [send] calls in a row. *)
Definition send_many (msgs : list Message) (w : World) : World :=
  foldl (λ w m, world_of (send (msg_type m) (msg_data m) w)) w msgs.

(** Sockets that are not closed yet. *)
Definition live (s : Socket) : bool :=
  match readyState s with
  | CLOSED => false
  | _ => true
  end.


(** ** Definitions used in the statements and proofs *)

(** What [send] does to the queue when the transport is not open. *)
Definition bounded_push (n : nat) (q : list Message) (m : Message) : list Message :=
  (if (n <=? length q)%nat then tail q else q) ++ [m].

(** The newest [n] entries of a list. *)
Definition keep_last (n : nat) (l : list Message) : list Message :=
  drop (length l - n) l.

(** Dispatching touches the listener registry, may cancel timers, may
    settle promises and records calls; every other field is left as it
    was. *)
Definition dispatched (w w' : World) : Prop :=
  ∃ L T P C,
    w' = set_calls C (set_promises P (set_timers T (set_listeners L w)))
    ∧ T ⊆ timers w
    ∧ promises w ⊆ P
    ∧ calls w `prefix_of` C.

(** Whom a registered function ends up calling. *)
Definition callee (l : Listener) : option nat :=
  match l with
  | Ext id => Some id
  | OnceWrapper _ _ cb => Some cb
  | WaitHandler _ _ => None
  end.

(** The world [onopen] hands to [flushQueue]. *)
Definition opened (w : World) : World :=
  startHeartbeat
    (emit (JStr "connection") (status "connected")
       (set_lastConnectedAt (Some (Date_now w))
          (set_reconnectAttempts 0 (set_state connected w)))).

(** The heartbeat has declared the connection dead and asked the socket
    to close; the close event has not been delivered yet. *)
Definition closing_while_connected : list Event :=
  [CallConnect; EvOpen 0;
   EvAdvance 15000; EvTimer 1;    (* ping sent, pong deadline armed *)
   EvAdvance 12000; EvTimer 2].   (* no pong: [socket.close()] *)

(** A manual reconnect whose new socket opens before the close event of
    the old one arrives. *)
Definition stale_close_after_reopen : list Event :=
  [CallConnect; EvOpen 0; CallForceReconnect; EvOpen 1; EvClose 0 "" 0].

(** The delay as the design document words it. *)
Definition spec_delay (base cap : Q) (attempts : nat) (jitter : Q) : Q :=
  Qmin (base * Qpower 2 (Z.of_nat attempts - 1) + jitter) cap.

(** Six closes in a row, each retry firing when due. *)
Definition six_failed_opens : list Event :=
  [CallConnect;
   EvClose 0 "" 0; EvAdvance 1300; EvTimer 1;
   EvClose 1 "" 0; EvAdvance 2300; EvTimer 2;
   EvClose 2 "" 0; EvAdvance 4300; EvTimer 3;
   EvClose 3 "" 0; EvAdvance 8300; EvTimer 4;
   EvClose 4 "" 0; EvAdvance 16300; EvTimer 5;
   EvClose 5 "" 0].

(** A wildcard subscriber, an open connection, and a [ping] frame from
    the server. *)
Definition inbound_ping : list Event :=
  [CallOn "*" 7; CallConnect; EvOpen 0;
   EvMessage 0 (JSONText (JObj [("type", JStr "ping")]))].

(** A manual reconnect; the close event of the socket it replaced is
    still to come. *)
Definition stale_close_after_replace : list Event :=
  [CallConnect; EvOpen 0; CallForceReconnect].

(** A retry is pending when the operator disconnects. *)
Definition disconnect_with_pending_retry : list Event :=
  [CallConnect; EvClose 0 "" 0; CallDisconnect; EvAdvance 1300].

(** [w'] holds no reconnection that [w] does not hold: the same
    configuration and attempt counter, no socket constructed, no retry
    timer added, and no socket that has started to connect. *)
Definition no_retry (w w' : World) : Prop :=
  cfg w' = cfg w
  ∧ reconnectAttempts w' = reconnectAttempts w
  ∧ length (sockets w') = length (sockets w)
  ∧ (∀ id t, timers w' !! id = Some t → action t = TReconnect →
             timers w !! id = Some t)
  ∧ (∀ sid s', sockets w' !! sid = Some s' → readyState s' = CONNECTING →
               ∃ s, sockets w !! sid = Some s ∧ readyState s = CONNECTING).

(** The service has given up: the counter is at the ceiling, no retry
    is pending and no socket is on its way to open. *)
Definition quiescent (w : World) : Prop :=
  maxReconnectAttempts (cfg w) ≤ reconnectAttempts w
  ∧ (∀ id t, timers w !! id = Some t → action t ≠ TReconnect)
  ∧ (∀ sid s, sockets w !! sid = Some s → readyState s ≠ CONNECTING).

(** The two calls by which an operator asks for a connection. *)
Definition operator_open (e : Event) : bool :=
  match e with
  | CallConnect | CallForceReconnect => true
  | _ => false
  end.

(** Eight closes in a row with every retry firing when due: the ninth
    socket is connecting and the counter stands at the ceiling. *)
Definition eight_failed_opens : list Event :=
  [CallOn "connection" 3; CallConnect;
   EvClose 0 "" 0; EvAdvance 1300; EvTimer 1;
   EvClose 1 "" 0; EvAdvance 2300; EvTimer 2;
   EvClose 2 "" 0; EvAdvance 4300; EvTimer 3;
   EvClose 3 "" 0; EvAdvance 8300; EvTimer 4;
   EvClose 4 "" 0; EvAdvance 16300; EvTimer 5;
   EvClose 5 "" 0; EvAdvance 32300; EvTimer 6;
   EvClose 6 "" 0; EvAdvance 64300; EvTimer 7;
   EvClose 7 "" 0; EvAdvance 128300; EvTimer 8].

(** The service after that run. *)
Definition at_ceiling : World :=
  default websocketService (run eight_failed_opens websocketService).

(** Nobody is registered in [w], and nobody has been called since [w0]. *)
Definition silent (w0 w : World) : Prop :=
  listeners w = ∅ ∧ calls w = calls w0.

(** The calls that register a listener. *)
Definition registers (e : Event) : bool :=
  match e with
  | CallOn _ _ | CallOnce _ _ | CallWaitForConnection _ => true
  | _ => false
  end.




(** [n] numbered alerts, as a collaborator would send them. *)
Definition numbered_alerts (n : nat) : list Message :=
  map (λ i, mkMessage "alert" (JNum (Z.of_nat i))) (seq 0 n).

(** The service after the run [stale_close_after_reopen]: the close of
    the replaced socket has scheduled a retry although the current socket
    is open. *)
Definition reconnecting_while_open : World :=
  default websocketService (run stale_close_after_reopen websocketService).

(** A second [connect] while the first socket is still connecting, a
    message sent meanwhile, and then the open of the socket that was
    replaced. *)
Definition open_of_replaced_socket : list Event :=
  [CallConnect; CallConnect; CallSend "alert" (JNum 1); EvOpen 0].

(** The service after that run. *)
Definition after_replaced_open : World :=
  default websocketService (run open_of_replaced_socket websocketService).

(** A service whose queue bound is zero, connecting. *)
Definition connecting_without_queue : World :=
  connect (new_WebSocketService (mkConfig 8 1000 15000 12000 0) demo_platform 0).






(** The operator calls [connect] while a retry is pending, which starts a
    second chain of retries next to the first.  Both chains count on the
    same counter; when the counter reaches the ceiling and a close
    reports the failure, the last retry of the other chain is still
    pending. *)
Definition two_retry_chains : list Event :=
  [CallOn "connection" 3; CallConnect;
   EvClose 0 "" 0;                 (* attempt 1, retry 1 pending *)
   CallConnect;                    (* the operator opens socket 1 *)
   EvClose 1 "" 0;                 (* attempt 2, retry 2 pending *)
   EvAdvance 200000; EvTimer 1; EvTimer 2;     (* sockets 2 and 3 *)
   EvClose 2 "" 0; EvClose 3 "" 0;             (* attempts 3 and 4 *)
   EvAdvance 200000; EvTimer 3; EvTimer 4;     (* sockets 4 and 5 *)
   EvClose 4 "" 0; EvClose 5 "" 0;             (* attempts 5 and 6 *)
   EvAdvance 200000; EvTimer 5; EvTimer 6;     (* sockets 6 and 7 *)
   EvClose 6 "" 0; EvClose 7 "" 0;             (* attempts 7 and 8 *)
   EvAdvance 200000; EvTimer 7;                (* socket 8 *)
   EvClose 8 "" 0].                (* at the ceiling: [failed] *)

(** The service after that run. *)
Definition failed_with_pending_retry : World :=
  default websocketService (run two_retry_chains websocketService).

(** What happens next without any call of the operator. *)
Definition the_other_chain_fires : list Event :=
  [EvAdvance 200000; EvTimer 8; EvOpen 9].

(** The service after that. *)
Definition reconnected_after_failure : World :=
  default websocketService
    (run the_other_chain_fires failed_with_pending_retry).

(** The longest a retry can be told to wait, by the constants of the
    class: the delay of the last attempt with the largest jitter. *)
Definition retry_delay_bound (c : Config) : Q :=
  b64 (b64 (baseReconnectDelay c
            * Qpower 2 (Z.of_nat (maxReconnectAttempts c) - 1)) + 600).

(** What a service configured with [c] keeps true of itself: the
    configuration is never replaced, the attempt counter stays
    within the ceiling, the queue within its bound, a pending heartbeat
    interval or pong deadline is the one its field names, the registry
    holds no empty set, and a pending retry waits within the bounds of
    the backoff. *)
Definition well_formed (c : Config) (w : World) : Prop :=
  cfg w = c
  ∧ reconnectAttempts w ≤ maxReconnectAttempts c
  ∧ length (messageQueue w) ≤ Nat.max (maxQueueSize c) 1
  ∧ (∀ id t, timers w !! id = Some t → action t = THeartbeat →
             heartbeatTimer w = Some id)
  ∧ (∀ id t, timers w !! id = Some t → action t = TPong →
             pongTimeout w = Some id)
  ∧ (∀ ch s, listeners w !! ch = Some s → s ≠ [])
  ∧ (∀ id t, timers w !! id = Some t → action t = TReconnect →
             (0 <= baseReconnectDelay c)%Q →
             (b64 (b64 (baseReconnectDelay c) + 300) <= delay t)%Q
             ∧ (delay t <= retry_delay_bound c)%Q).

(** More messages than the queue holds are sent before the transport
    has opened. *)
Definition sends_while_connecting (n : nat) : list Event :=
  CallConnect :: map (λ i, CallSend "alert" (JNum (Z.of_nat i))) (seq 0 n).

(** The service after 120 of them, with the bound of 100. *)
Definition queue_overflowed : World :=
  default websocketService (run (sends_while_connecting 120) websocketService).

(** The transport opens, a heartbeat is sent and answered, another is
    sent, and a collaborator subscribes and unsubscribes on the way. *)
Definition heartbeat_round : list Event :=
  [CallOn "alert" 1; CallConnect; EvOpen 0;
   EvAdvance 15000; EvTimer 1;
   EvMessage 0 (JSONText (JObj [("type", JStr "pong")]));
   EvAdvance 15000; EvTimer 1; CallOff "alert" 1].

Definition after_heartbeat_round : World :=
  default websocketService (run heartbeat_round websocketService).

(** The service after six closes in a row: the sixth retry is pending. *)
Definition sixth_retry_pending : World :=
  default websocketService (run six_failed_opens websocketService).

(** The wrapper that the dispatcher hands to wildcard listeners. *)
Definition wildcard_payload (event : string) (data : json) : json :=
  JObj [("event", JStr event); ("data", data)].

(** Calls of the callbacks [ids], in order, each with [data]. *)
Definition called_with (data : json) (ids : list nat) : list (nat * json) :=
  map (λ id, (id, data)) ids.

(** The transport is open and its first heartbeat has just been sent. *)
Definition first_ping_sent : list Event :=
  [CallConnect; EvOpen 0; EvAdvance 15000].

Definition before_first_ping : World :=
  default websocketService (run first_ping_sent websocketService).

(** A frame that carries no type. *)
Definition untyped_frame : json := JObj [("alert", JNum 7)].

(** The operator has disconnected and nothing is left that would connect
    again by itself: the manual mark is set, there is no current socket,
    no retry is pending, and [n] sockets have been constructed so far. *)
Definition parked (n : nat) (w : World) : Prop :=
  manualClose w = true ∧ socket w = None ∧ length (sockets w) = n
  ∧ (∀ id t, timers w !! id = Some t → action t ≠ TReconnect).

(** What may follow a manual disconnect: the close event, a
    subscription, a send, a wait that times out. *)
Definition after_manual_disconnect : list Event :=
  [EvClose 0 "" 0; CallOn "alert" 1; CallSend "alert" (JNum 1);
   EvAdvance 60000; CallWaitForConnection 5000; EvAdvance 5000; EvTimer 1].

Definition long_after_disconnect : World :=
  default websocketService
    (run after_manual_disconnect (disconnect (connect websocketService))).

(** * The polling hook

    [useRealTimeData], lines 10-94 of the same file.  One mounted
    instance with fixed options: the state cells of [useState], the two
    refs, the abort controllers and requests it has created, and the
    interval it has armed.  A state setter stores its argument; [null]
    in [data] is [JNull].
    [fetchFunction] returns a promise that is fulfilled with an object;
    the optional callbacks [onSuccess] and [onError] are opaque: a call
    is recorded in [calls], and they are taken not to throw and not to
    call back into the hook. *)
Module RealTimeData.

(** What the promise of [fetchFunction] is rejected with, as far as the
    [catch] block of lines 48-54 tells values apart. *)
Inductive Reason : Type :=
| AbortError                    (* a DOMException named AbortError *)
| AnError (message : string)    (* any other Error *)
| NotAnError.                   (* a value that is no Error *)

Inductive Settlement : Type :=
| Fulfilled (response_data : json)
| Rejected (err : Reason).

Inductive Call : Type :=
| OnSuccess (d : json)
| OnError (message : string).

(** UseRealTimeDataOptions, lines 3-8 and 14-19; for the two optional
    callbacks, whether they are given. *)
Record Options : Type := mkOptions {
  interval : Q;
  enabled : bool;
  onError : bool;
  onSuccess : bool
}.

(** The defaults of lines 15-16, with no callbacks. *)
Definition default_options : Options := mkOptions 5000 true false false.

Record Hook : Type := mkHook {
  options : Options;
  data : json;
  loading : bool;
  error : option string;
  lastUpdated : option Z;
  isConnected : bool;
  intervalRef : option nat;
  abortControllerRef : option nat;
  controllers : list bool;
  awaiting : list nat;
  intervals : gmap nat Q;
  nextTimer : nat;
  calls : list Call;
  now : Z
}.

Definition set_data (v : json) (h : Hook) : Hook :=
  mkHook (options h) v (loading h) (error h) (lastUpdated h) (isConnected h) (intervalRef h) (abortControllerRef h) (controllers h) (awaiting h) (intervals h) (nextTimer h) (calls h) (now h).

Definition set_loading (v : bool) (h : Hook) : Hook :=
  mkHook (options h) (data h) v (error h) (lastUpdated h) (isConnected h) (intervalRef h) (abortControllerRef h) (controllers h) (awaiting h) (intervals h) (nextTimer h) (calls h) (now h).

Definition set_error (v : option string) (h : Hook) : Hook :=
  mkHook (options h) (data h) (loading h) v (lastUpdated h) (isConnected h) (intervalRef h) (abortControllerRef h) (controllers h) (awaiting h) (intervals h) (nextTimer h) (calls h) (now h).

Definition set_lastUpdated (v : option Z) (h : Hook) : Hook :=
  mkHook (options h) (data h) (loading h) (error h) v (isConnected h) (intervalRef h) (abortControllerRef h) (controllers h) (awaiting h) (intervals h) (nextTimer h) (calls h) (now h).

Definition set_isConnected (v : bool) (h : Hook) : Hook :=
  mkHook (options h) (data h) (loading h) (error h) (lastUpdated h) v (intervalRef h) (abortControllerRef h) (controllers h) (awaiting h) (intervals h) (nextTimer h) (calls h) (now h).

Definition set_intervalRef (v : option nat) (h : Hook) : Hook :=
  mkHook (options h) (data h) (loading h) (error h) (lastUpdated h) (isConnected h) v (abortControllerRef h) (controllers h) (awaiting h) (intervals h) (nextTimer h) (calls h) (now h).

Definition set_abortControllerRef (v : option nat) (h : Hook) : Hook :=
  mkHook (options h) (data h) (loading h) (error h) (lastUpdated h) (isConnected h) (intervalRef h) v (controllers h) (awaiting h) (intervals h) (nextTimer h) (calls h) (now h).

Definition set_controllers (v : list bool) (h : Hook) : Hook :=
  mkHook (options h) (data h) (loading h) (error h) (lastUpdated h) (isConnected h) (intervalRef h) (abortControllerRef h) v (awaiting h) (intervals h) (nextTimer h) (calls h) (now h).

Definition set_awaiting (v : list nat) (h : Hook) : Hook :=
  mkHook (options h) (data h) (loading h) (error h) (lastUpdated h) (isConnected h) (intervalRef h) (abortControllerRef h) (controllers h) v (intervals h) (nextTimer h) (calls h) (now h).

Definition set_intervals (v : gmap nat Q) (h : Hook) : Hook :=
  mkHook (options h) (data h) (loading h) (error h) (lastUpdated h) (isConnected h) (intervalRef h) (abortControllerRef h) (controllers h) (awaiting h) v (nextTimer h) (calls h) (now h).

Definition set_nextTimer (v : nat) (h : Hook) : Hook :=
  mkHook (options h) (data h) (loading h) (error h) (lastUpdated h) (isConnected h) (intervalRef h) (abortControllerRef h) (controllers h) (awaiting h) (intervals h) v (calls h) (now h).

Definition set_calls (v : list Call) (h : Hook) : Hook :=
  mkHook (options h) (data h) (loading h) (error h) (lastUpdated h) (isConnected h) (intervalRef h) (abortControllerRef h) (controllers h) (awaiting h) (intervals h) (nextTimer h) v (now h).

Definition set_now (v : Z) (h : Hook) : Hook :=
  mkHook (options h) (data h) (loading h) (error h) (lastUpdated h) (isConnected h) (intervalRef h) (abortControllerRef h) (controllers h) (awaiting h) (intervals h) (nextTimer h) (calls h) v.


(** Lines 21-28: the initial state and the empty refs. *)
Definition new_hook (o : Options) (t0 : Z) : Hook :=
  mkHook o JNull true None None false None None [] [] ∅ 1 [] t0.

(** [controller.signal.aborted] *)
Definition aborted (k : nat) (h : Hook) : bool :=
  default false (controllers h !! k).

(** [abortControllerRef.current?.abort()] *)
Definition abort_current (h : Hook) : Hook :=
  match abortControllerRef h with
  | Some k => set_controllers (<[k := true]> (controllers h)) h
  | None => h
  end.

(** fetchData, lines 30-41: up to the [await].  The request it starts
    carries the number of its controller. *)
Definition fetchData (h : Hook) : Hook :=
  if negb (enabled (options h)) then h
  else
    let h := abort_current h in
    let k := length (controllers h) in
    let h := set_controllers (controllers h ++ [false]) h in
    let h := set_abortControllerRef (Some k) h in
    let h := set_error None h in
    set_awaiting (awaiting h ++ [k]) h.

(** [err instanceof Error ? err.message : 'Unknown error'] *)
Definition errorMessage (e : Reason) : string :=
  match e with
  | AnError m => m
  | _ => "Unknown error"
  end.

(** fetchData, lines 41-59: from the [await] on, for the request of
    controller [k] whose promise has settled with [r]. *)
Definition fetchData_resumed (k : nat) (r : Settlement) (h : Hook) : Hook :=
  let h :=
    match r with
    | Fulfilled d =>
        if aborted k h then h
        else
          let h := set_data d h in
          let h := set_lastUpdated (Some (now h)) h in
          let h := set_isConnected true h in
          if onSuccess (options h) then set_calls (calls h ++ [OnSuccess d]) h
          else h
    | Rejected AbortError => h
    | Rejected e =>
        let h := set_error (Some (errorMessage e)) h in
        let h := set_isConnected false h in
        if onError (options h)
        then set_calls (calls h ++ [OnError (errorMessage e)]) h
        else h
    end in
  if aborted k h then h else set_loading false h.

(** refresh, lines 62-65 *)
Definition refresh (h : Hook) : Hook :=
  fetchData (set_loading true h).

(** The effect of lines 67-76. *)
Definition effect (h : Hook) : Hook :=
  if negb (enabled (options h)) then h
  else
    let h := fetchData h in
    if Qlt_le_dec 0 (interval (options h)) then
      let id := nextTimer h in
      let h := set_intervals (<[id := interval (options h)]> (intervals h)) h in
      let h := set_nextTimer (S id) h in
      set_intervalRef (Some id) h
    else h.

(** Its cleanup, lines 78-83; there is none when the hook is disabled. *)
Definition cleanup (h : Hook) : Hook :=
  if negb (enabled (options h)) then h
  else
    let h := match intervalRef h with
             | Some id => set_intervals (delete id (intervals h)) h
             | None => h
             end in
    abort_current h.

(** What can happen to a mounted hook: the effect runs or is cleaned up,
    the interval fires, the component calls [refresh], the promise of a
    request settles, time passes.  When an armed interval fires is left
    open: it may fire at any time until it is cleared. *)
Inductive Event : Type :=
| Mount
| Unmount
| Tick (id : nat)
| Refresh
| Settle (k : nat) (r : Settlement)
| Advance (ms : Z).

Definition step (e : Event) (h : Hook) : option Hook :=
  match e with
  | Mount => Some (effect h)
  | Unmount => Some (cleanup h)
  | Tick id =>
      match intervals h !! id with
      | Some _ => Some (fetchData h)
      | None => None
      end
  | Refresh => Some (refresh h)
  | Settle k r =>
      if decide (k ∈ awaiting h)
      then Some (fetchData_resumed k r
                   (set_awaiting (filter (λ j, j ≠ k) (awaiting h)) h))
      else None
  | Advance ms =>
      if (0 <=? ms)%Z then Some (set_now (now h + ms)%Z h) else None
  end.

Fixpoint run (es : list Event) (h : Hook) : option Hook :=
  match es with
  | [] => Some h
  | e :: rest =>
      match step e h with
      | Some h' => run rest h'
      | None => None
      end
  end.

(** What the component renders from: the five values the hook returns
    besides [refresh], and the callbacks it has called. *)
Definition rendered (h : Hook)
  : json * bool * option string * option Z * bool * list Call :=
  (data h, loading h, error h, lastUpdated h, isConnected h, calls h).

(** Every controller but the one in the ref has been aborted, and the
    requests in flight are of controllers that exist. *)
Definition one_live_controller (h : Hook) : Prop :=
  (∀ k, controllers h !! k = Some false → abortControllerRef h = Some k)
  ∧ (∀ k, k ∈ awaiting h → k < length (controllers h)).

(** A disabled hook has never started anything. *)
Definition idle (h : Hook) : Prop :=
  enabled (options h) = false ∧ awaiting h = [] ∧ intervals h = ∅.

(** Two requests overlap: the interval fires while the first request is
    still in flight. *)
Definition overlapping_requests : list Event := [Mount; Tick 1].

Definition two_in_flight : Hook :=
  default (new_hook default_options 0)
    (run overlapping_requests (new_hook default_options 0)).

(** A disabled hook on which the component calls [refresh]. *)
Definition disabled_options : Options := mkOptions 5000 false true true.

Definition refreshed_while_disabled : Hook :=
  default (new_hook disabled_options 0)
    (run [Mount; Refresh; Advance 60000] (new_hook disabled_options 0)).

Definition is_mount (e : Event) : bool :=
  match e with
  | Mount => true
  | _ => false
  end.

(** The interval the hook has armed is the only one. *)
Definition single_interval (h : Hook) : Prop :=
  ∀ id p, intervals h !! id = Some p → intervalRef h = Some id.

(** A hook that is unmounted while a request is in flight. *)
Definition polled_then_unmounted : list Event :=
  [Tick 1; Settle 0 (Fulfilled (JNum 1)); Advance 5000; Tick 1].

Definition unmounted : Hook :=
  default (new_hook default_options 0)
    (run (Mount :: polled_then_unmounted ++ [Unmount])
       (new_hook default_options 0)).

End RealTimeData.

(** * The hook variant of the client

    [useWebSocket], lines 285-420 of [src/frontend/src/types/index.ts]:
    the same client written as a React hook.  One mounted instance with
    fixed url and options: the state cells of [useState], the refs, and
    the sockets and timers it has created.  Sockets and frames are those
    of the service above; [null] in [lastMessage] is [JNull]. *)
Module UseWebSocket.

Inductive WebSocketStatus : Type :=
| status_connecting
| status_open
| status_closed
| status_reconnecting
| status_error.

(** UseWebSocketOptions, lines 277-283 and 289-295; [None] is the
    default [Infinity] of [reconnectAttempts].  [constructible] tells
    whether [new WebSocket(url)] returns rather than throws. *)
Record Options : Type := mkOptions {
  reconnectAttempts : option nat;
  reconnectInterval : Q;
  maxReconnectInterval : Q;
  heartbeatInterval : Q;
  constructible : bool
}.

Definition default_options : Options := mkOptions None 2000 30000 15000 true.

(** The two callbacks the hook hands to timers: [connect] to
    [setTimeout] and the heartbeat to [setInterval]. *)
Inductive TimerAction : Type :=
| TReconnect
| THeartbeat.

Record Timer : Type := mkTimer {
  action : TimerAction;
  delay : Q;
  due : Q
}.

Record Hook : Type := mkHook {
  options : Options;
  hook_url : string;
  status : WebSocketStatus;
  lastMessage : json;
  error : option string;
  ws : option nat;
  reconnectCount : nat;
  reconnectTimeoutRef : option nat;
  heartbeatRef : option nat;
  messageQueue : list Frame;
  sockets : list Socket;
  timers : gmap nat Timer;
  nextTimer : nat;
  now : Z
}.

Definition set_status (v : WebSocketStatus) (h : Hook) : Hook :=
  mkHook (options h) (hook_url h) v (lastMessage h) (error h) (ws h) (reconnectCount h) (reconnectTimeoutRef h) (heartbeatRef h) (messageQueue h) (sockets h) (timers h) (nextTimer h) (now h).

Definition set_lastMessage (v : json) (h : Hook) : Hook :=
  mkHook (options h) (hook_url h) (status h) v (error h) (ws h) (reconnectCount h) (reconnectTimeoutRef h) (heartbeatRef h) (messageQueue h) (sockets h) (timers h) (nextTimer h) (now h).

Definition set_error (v : option string) (h : Hook) : Hook :=
  mkHook (options h) (hook_url h) (status h) (lastMessage h) v (ws h) (reconnectCount h) (reconnectTimeoutRef h) (heartbeatRef h) (messageQueue h) (sockets h) (timers h) (nextTimer h) (now h).

Definition set_ws (v : option nat) (h : Hook) : Hook :=
  mkHook (options h) (hook_url h) (status h) (lastMessage h) (error h) v (reconnectCount h) (reconnectTimeoutRef h) (heartbeatRef h) (messageQueue h) (sockets h) (timers h) (nextTimer h) (now h).

Definition set_reconnectCount (v : nat) (h : Hook) : Hook :=
  mkHook (options h) (hook_url h) (status h) (lastMessage h) (error h) (ws h) v (reconnectTimeoutRef h) (heartbeatRef h) (messageQueue h) (sockets h) (timers h) (nextTimer h) (now h).

Definition set_reconnectTimeoutRef (v : option nat) (h : Hook) : Hook :=
  mkHook (options h) (hook_url h) (status h) (lastMessage h) (error h) (ws h) (reconnectCount h) v (heartbeatRef h) (messageQueue h) (sockets h) (timers h) (nextTimer h) (now h).

Definition set_heartbeatRef (v : option nat) (h : Hook) : Hook :=
  mkHook (options h) (hook_url h) (status h) (lastMessage h) (error h) (ws h) (reconnectCount h) (reconnectTimeoutRef h) v (messageQueue h) (sockets h) (timers h) (nextTimer h) (now h).

Definition set_messageQueue (v : list Frame) (h : Hook) : Hook :=
  mkHook (options h) (hook_url h) (status h) (lastMessage h) (error h) (ws h) (reconnectCount h) (reconnectTimeoutRef h) (heartbeatRef h) v (sockets h) (timers h) (nextTimer h) (now h).

Definition set_sockets (v : list Socket) (h : Hook) : Hook :=
  mkHook (options h) (hook_url h) (status h) (lastMessage h) (error h) (ws h) (reconnectCount h) (reconnectTimeoutRef h) (heartbeatRef h) (messageQueue h) v (timers h) (nextTimer h) (now h).

Definition set_timers (v : gmap nat Timer) (h : Hook) : Hook :=
  mkHook (options h) (hook_url h) (status h) (lastMessage h) (error h) (ws h) (reconnectCount h) (reconnectTimeoutRef h) (heartbeatRef h) (messageQueue h) (sockets h) v (nextTimer h) (now h).

Definition set_nextTimer (v : nat) (h : Hook) : Hook :=
  mkHook (options h) (hook_url h) (status h) (lastMessage h) (error h) (ws h) (reconnectCount h) (reconnectTimeoutRef h) (heartbeatRef h) (messageQueue h) (sockets h) (timers h) v (now h).

Definition set_now (v : Z) (h : Hook) : Hook :=
  mkHook (options h) (hook_url h) (status h) (lastMessage h) (error h) (ws h) (reconnectCount h) (reconnectTimeoutRef h) (heartbeatRef h) (messageQueue h) (sockets h) (timers h) (nextTimer h) v.


(** Lines 297-307: the initial state and the empty refs. *)
Definition new_hook (o : Options) (u : string) (t0 : Z) : Hook :=
  mkHook o u status_connecting JNull None None 0 None None [] [] ∅ 1 t0.

Definition setTimer (a : TimerAction) (d : Q) (h : Hook) : nat * Hook :=
  let id := nextTimer h in
  (id,
   set_nextTimer (S id)
     (set_timers (<[id := mkTimer a d (inject_Z (now h) + d)]> (timers h)) h)).

Definition clearTimer (id : nat) (h : Hook) : Hook :=
  set_timers (delete id (timers h)) h.

Definition clear_if_set (t : option nat) (h : Hook) : Hook :=
  match t with
  | Some id => clearTimer id h
  | None => h
  end.

Definition update_socket (sid : nat) (f : Socket → Socket) (h : Hook) : Hook :=
  match sockets h !! sid with
  | Some s => set_sockets (<[sid := f s]> (sockets h)) h
  | None => h
  end.

(** [ws.current && ws.current.readyState === WebSocket.OPEN] *)
Definition ws_is_open (h : Hook) : bool :=
  match ws h with
  | Some sid =>
      match readyState <$> sockets h !! sid with
      | Some OPEN => true
      | _ => false
      end
  | None => false
  end.

(** [ws.current.send(msg)] while the socket is open. *)
Definition ws_send (f : Frame) (h : Hook) : Hook :=
  match ws h with
  | Some sid => update_socket sid (with_sent f) h
  | None => h
  end.

(** sendMessage, lines 313-322 *)
Definition sendMessage (message : json) (h : Hook) : Hook :=
  let msg := Stringified message in
  if ws_is_open h then ws_send msg h
  else set_messageQueue (messageQueue h ++ [msg]) h.

(** The four assignments of [null] and the [close()] of lines 328-332. *)
Definition detach_and_close (s : Socket) : Socket :=
  mkSocket (url s)
    (match readyState s with
     | CONNECTING | OPEN => CLOSING
     | r => r
     end)
    false (sent s).

(** cleanup, lines 324-334 *)
Definition cleanup (h : Hook) : Hook :=
  let h := clear_if_set (reconnectTimeoutRef h) h in
  let h := clear_if_set (heartbeatRef h) h in
  match ws h with
  | Some sid => update_socket sid detach_and_close h
  | None => h
  end.

Definition ping_frame (h : Hook) : Frame :=
  Stringified (JObj [("type", JStr "ping"); ("timestamp", JNum (now h))]).

(** The body run by the heartbeat interval, lines 339-342. *)
Definition heartbeat_tick (h : Hook) : Hook :=
  if ws_is_open h then ws_send (ping_frame h) h else h.

(** setupHeartbeat, lines 336-345 *)
Definition setupHeartbeat (h : Hook) : Hook :=
  if Qlt_le_dec 0 (heartbeatInterval (options h)) then
    let '(id, h) := setTimer THeartbeat (heartbeatInterval (options h)) h in
    set_heartbeatRef (Some id) h
  else h.

(** The loop of lines 362-366; [q] is the queue of [h], what is left of
    it at each turn. *)
Fixpoint flush (q : list Frame) (h : Hook) : Hook :=
  match q with
  | [] => h
  | queued :: rest =>
      if ws_is_open h
      then flush rest (ws_send queued (set_messageQueue rest h))
      else h
  end.

(** connect, lines 347-353 and 401-405; the callbacks it assigns are
    the four functions below. *)
Definition connect (h : Hook) : Hook :=
  let h := cleanup h in
  let h := set_status status_connecting h in
  if constructible (options h) then
    let sid := length (sockets h) in
    let h := set_sockets
               (sockets h ++ [mkSocket (hook_url h) CONNECTING true []]) h in
    set_ws (Some sid) h
  else
    let h := set_error (Some "Failed to establish WebSocket connection") h in
    set_status status_error h.

(** ws.current.onopen, lines 355-369 *)
Definition onopen (h : Hook) : Hook :=
  let h := set_status status_open h in
  let h := set_error None h in
  let h := set_reconnectCount 0 h in
  let h := flush (messageQueue h) h in
  setupHeartbeat h.

(** ws.current.onmessage, lines 371-379 *)
Definition onmessage (data : MessageData) (h : Hook) : Hook :=
  match data with
  | NonJSON _ => h
  | JSONText message => set_lastMessage message h
  end.

(** [reconnectCount.current < reconnectAttempts] *)
Definition may_retry (h : Hook) : bool :=
  match reconnectAttempts (options h) with
  | Some n => reconnectCount h <? n
  | None => true
  end.

(** The delay of lines 385-388. *)
Definition reconnect_delay (o : Options) (count : nat) : Q :=
  Qmin (reconnectInterval o * Qpower 2 (Z.of_nat count))
       (maxReconnectInterval o).

(** ws.current.onclose, lines 381-394 *)
Definition onclose (h : Hook) : Hook :=
  let h := set_status status_closed h in
  if may_retry h then
    let delay := reconnect_delay (options h) (reconnectCount h) in
    let h := set_reconnectCount (S (reconnectCount h)) h in
    let h := set_status status_reconnecting h in
    let '(id, h) := setTimer TReconnect delay h in
    set_reconnectTimeoutRef (Some id) h
  else h.

(** ws.current.onerror, lines 396-400 *)
Definition onerror (h : Hook) : Hook :=
  let h := set_error (Some "WebSocket error") h in
  set_status status_error h.

(** What can happen to a mounted hook. *)
Inductive Event : Type :=
| Mount
| Unmount
| CallSendMessage (message : json)
| EvOpen (sid : nat)
| EvClose (sid : nat)
| EvError (sid : nat)
| EvMessage (sid : nat) (data : MessageData)
| EvTimer (id : nat)
| EvAdvance (ms : Z).

(** A timer that fires: a timeout leaves the queue, an interval is
    armed again; then its callback runs. *)
Definition fire_timer (id : nat) (t : Timer) (h : Hook) : Hook :=
  match action t with
  | TReconnect => connect (clearTimer id h)
  | THeartbeat =>
      heartbeat_tick
        (set_timers
           (<[id := mkTimer THeartbeat (delay t) (inject_Z (now h) + delay t)]>
              (timers h)) h)
  end.

(** One turn of the event loop; the effect of lines 408-411 connects on
    mount and cleans up on unmount. *)
Definition step (e : Event) (h : Hook) : option Hook :=
  match e with
  | Mount => Some (connect h)
  | Unmount => Some (cleanup h)
  | CallSendMessage message => Some (sendMessage message h)
  | EvOpen sid =>
      match sockets h !! sid with
      | Some s =>
          match readyState s with
          | CONNECTING =>
              let h := update_socket sid (with_readyState OPEN) h in
              Some (if handlers s then onopen h else h)
          | _ => None
          end
      | None => None
      end
  | EvClose sid =>
      match sockets h !! sid with
      | Some s =>
          match readyState s with
          | CLOSED => None
          | _ =>
              let h := update_socket sid (with_readyState CLOSED) h in
              Some (if handlers s then onclose h else h)
          end
      | None => None
      end
  | EvError sid =>
      match sockets h !! sid with
      | Some s =>
          match readyState s with
          | CLOSED => None
          | _ => Some (if handlers s then onerror h else h)
          end
      | None => None
      end
  | EvMessage sid data =>
      match sockets h !! sid with
      | Some s =>
          match readyState s with
          | OPEN => Some (if handlers s then onmessage data h else h)
          | _ => None
          end
      | None => None
      end
  | EvTimer id =>
      match timers h !! id with
      | Some t =>
          if Qle_bool (due t) (inject_Z (now h))
          then Some (fire_timer id t h)
          else None
      | None => None
      end
  | EvAdvance ms =>
      if (0 <=? ms)%Z then Some (set_now (now h + ms)%Z h) else None
  end.

Fixpoint run (es : list Event) (h : Hook) : option Hook :=
  match es with
  | [] => Some h
  | e :: rest =>
      match step e h with
      | Some h' => run rest h'
      | None => None
      end
  end.

(** What the component renders from. *)
Definition rendered (h : Hook) : WebSocketStatus * json * option string :=
  (status h, lastMessage h, error h).

(** Frames a socket has transmitted. *)
Definition sent_on (sid : nat) (h : Hook) : list Frame :=
  default [] (sent <$> sockets h !! sid).

(** Several [sendMessage] calls in a row. *)
Definition send_many (msgs : list json) (h : Hook) : Hook :=
  foldl (λ h m, sendMessage m h) h msgs.

(** What the hook keeps true of itself: only the socket in [ws] has
    callbacks; a pending retry is the one in [reconnectTimeoutRef], its
    delay is within the cap, and while it is pending no socket with
    callbacks is still to close; a pending heartbeat interval is the one
    in [heartbeatRef], and while it is pending no socket with callbacks
    is still to open; the retry counter is within its bound. *)
Definition well_formed (o : Options) (h : Hook) : Prop :=
  options h = o
  ∧ (∀ sid s, sockets h !! sid = Some s → handlers s = true → ws h = Some sid)
  ∧ (∀ id t, timers h !! id = Some t → action t = TReconnect →
             reconnectTimeoutRef h = Some id
             ∧ (delay t <= maxReconnectInterval o)%Q
             ∧ (∀ sid s, sockets h !! sid = Some s → handlers s = true →
                         readyState s = CLOSED))
  ∧ (∀ id t, timers h !! id = Some t → action t = THeartbeat →
             heartbeatRef h = Some id
             ∧ (∀ sid s, sockets h !! sid = Some s → handlers s = true →
                         readyState s ≠ CONNECTING))
  ∧ (∀ n, reconnectAttempts o = Some n → reconnectCount h ≤ n).

(** Nothing is left that could call the hook back. *)
Definition inert (h : Hook) : Prop :=
  timers h = ∅ ∧ (∀ sid s, sockets h !! sid = Some s → handlers s = false).

Definition is_mount (e : Event) : bool :=
  match e with
  | Mount => true
  | _ => false
  end.

(** The hook connects, messages are queued, and the transport opens. *)
Definition queued_then_open : list Event :=
  [Mount; CallSendMessage (JNum 1); CallSendMessage (JNum 2); EvOpen 0].

Definition hook_open : Hook :=
  default (new_hook default_options "wss://ids.example/ws" 0)
    (run queued_then_open (new_hook default_options "wss://ids.example/ws" 0)).

(** Five closes in a row, each retry firing when due. *)
Definition five_failed_opens : list Event :=
  [Mount;
   EvClose 0; EvAdvance 2000; EvTimer 1;
   EvClose 1; EvAdvance 4000; EvTimer 2;
   EvClose 2; EvAdvance 8000; EvTimer 3;
   EvClose 3; EvAdvance 16000; EvTimer 4;
   EvClose 4].

Definition fifth_retry_pending : Hook :=
  default (new_hook default_options "wss://ids.example/ws" 0)
    (run five_failed_opens (new_hook default_options "wss://ids.example/ws" 0)).

(** The hook is mounted again while its first socket is still open. *)
Definition remounted : list Event :=
  [Mount; EvOpen 0; EvAdvance 15000; EvTimer 1; Mount].

Definition hook_remounted : Hook :=
  default (new_hook default_options "wss://ids.example/ws" 0)
    (run remounted (new_hook default_options "wss://ids.example/ws" 0)).

(** The open hook is unmounted; the close event of its socket, a call
    of sendMessage and a minute follow. *)
Definition hook_unmounted : Hook :=
  default (new_hook default_options "wss://ids.example/ws" 0)
    (run [EvClose 0; CallSendMessage (JNum 3); EvAdvance 60000]
       (cleanup hook_open)).

End UseWebSocket.

Arguments opened : simpl never.

(** * Outbound Queue *)

Section Queue.

Lemma send_closed_queue event data w :
  socket_is_open w = false →
  send event data w =
    Returned (set_messageQueue
      (bounded_push (maxQueueSize (cfg w)) (messageQueue w)
         (mkMessage event data)) w).
Proof.
  intros Hc. unfold send, bounded_push. rewrite Hc.
  destruct (maxQueueSize (cfg w) <=? length (messageQueue w))%nat; reflexivity.
Qed.

Lemma bounded_push_keep_last (n : nat) (q : list Message) (m : Message) :
  (1 ≤ n)%nat → (length q ≤ n)%nat →
  bounded_push n q m = keep_last n (q ++ [m]).
Proof.
  intros Hn Hq. unfold bounded_push, keep_last. rewrite length_app. simpl.
  destruct (Nat.leb_spec n (length q)) as [Hle | Hlt].
  - assert (length q = n) as Heq by lia.
    replace (length q + 1 - n)%nat with 1%nat by lia.
    destruct q as [|x q]; simpl in *; [lia | reflexivity].
  - replace (length q + 1 - n)%nat with 0%nat by lia. reflexivity.
Qed.

Lemma keep_last_length (n : nat) (l : list Message) :
  (length (keep_last n l) ≤ n)%nat.
Proof. unfold keep_last. rewrite length_drop. lia. Qed.

Lemma keep_last_snoc (n : nat) (l : list Message) (m : Message) :
  (1 ≤ n)%nat →
  keep_last n (keep_last n l ++ [m]) = keep_last n (l ++ [m]).
Proof.
  intros Hn. unfold keep_last.
  rewrite !length_app, length_drop. simpl.
  destruct (decide (length l ≤ n)%nat) as [Hs | Hb].
  - replace (length l - n)%nat with 0%nat by lia.
    rewrite drop_0. f_equal. lia.
  - replace (length l - (length l - n) + 1 - n)%nat with 1%nat by lia.
    replace (length l + 1 - n)%nat with ((length l - n) + 1)%nat by lia.
    rewrite <- drop_drop. f_equal.
    rewrite drop_app_le by lia. reflexivity.
Qed.

Lemma send_many_snoc msgs m w :
  send_many (msgs ++ [m]) w
  = world_of (send (msg_type m) (msg_data m) (send_many msgs w)).
Proof. unfold send_many. by rewrite foldl_snoc. Qed.

(** While the transport stays shut, a burst of sends touches nothing
    but the queue, which holds the newest entries up to the bound. *)
Lemma send_many_closed msgs : ∀ w,
  socket_is_open w = false →
  (1 ≤ maxQueueSize (cfg w))%nat →
  (length (messageQueue w) ≤ maxQueueSize (cfg w))%nat →
  send_many msgs w
  = set_messageQueue
      (keep_last (maxQueueSize (cfg w)) (messageQueue w ++ msgs)) w.
Proof.
  induction msgs as [|m msgs IH] using rev_ind; intros w Hc Hn Hq.
  - simpl. rewrite app_nil_r. unfold keep_last.
    replace (length (messageQueue w) - maxQueueSize (cfg w))%nat
      with 0%nat by lia.
    rewrite drop_0. by destruct w.
  - rewrite send_many_snoc, IH by done.
    rewrite send_closed_queue by exact Hc. simpl.
    rewrite bounded_push_keep_last by (auto using keep_last_length).
    destruct m as [t d]. simpl.
    rewrite keep_last_snoc by done.
    by rewrite app_assoc.
Qed.

End Queue.

(** * Event Dispatcher *)

Section Dispatcher.

Lemma dispatched_refl w : dispatched w w.
Proof.
  exists (listeners w), (timers w), (promises w), (calls w).
  split; [by destruct w | done].
Qed.

Lemma dispatched_trans w1 w2 w3 :
  dispatched w1 w2 → dispatched w2 w3 → dispatched w1 w3.
Proof.
  intros (L & T & P & C & -> & HT & HP & HC)
         (L' & T' & P' & C' & -> & HT' & HP' & HC').
  exists L', T', P', C'. simpl in *. split; [done|].
  split; [by etrans|]. split; by etrans.
Qed.

Lemma dispatched_fields w w' :
  dispatched w w' →
  cfg w' = cfg w ∧ platform w' = platform w ∧ socket w' = socket w
  ∧ reconnectAttempts w' = reconnectAttempts w
  ∧ manualClose w' = manualClose w
  ∧ heartbeatTimer w' = heartbeatTimer w ∧ pongTimeout w' = pongTimeout w
  ∧ messageQueue w' = messageQueue w ∧ state w' = state w
  ∧ lastConnectedAt w' = lastConnectedAt w
  ∧ lastDisconnectedAt w' = lastDisconnectedAt w
  ∧ sockets w' = sockets w ∧ nextTimer w' = nextTimer w
  ∧ nextPromise w' = nextPromise w ∧ nextWrapper w' = nextWrapper w
  ∧ now w' = now w.
Proof. intros (L & T & P & C & -> & _). repeat split. Qed.

Lemma dispatched_timers w w' : dispatched w w' → timers w' ⊆ timers w.
Proof. by intros (L & T & P & C & -> & HT & _). Qed.


Lemma dispatched_calls w w' : dispatched w w' → calls w `prefix_of` calls w'.
Proof. by intros (L & T & P & C & -> & _ & _ & HC). Qed.

Lemma off_dispatched event cb w : dispatched w (off event cb w).
Proof.
  unfold off. destruct (listeners w !! event) as [s|]; [|apply dispatched_refl].
  destruct (length (set_delete cb s) =? 0)%nat.
  - exists (delete event (listeners w)), (timers w), (promises w), (calls w).
    split; [by destruct w | done].
  - exists (<[event := set_delete cb s]> (listeners w)),
      (timers w), (promises w), (calls w).
    split; [by destruct w | done].
Qed.

Lemma clearTimer_dispatched id w : dispatched w (clearTimer id w).
Proof.
  exists (listeners w), (delete id (timers w)), (promises w), (calls w).
  split; [by destruct w|]. split; [apply delete_subseteq | done].
Qed.

Lemma resolve_dispatched p v w : dispatched w (resolve p v w).
Proof.
  unfold resolve. destruct (promises w !! p) eqn:Hp; [apply dispatched_refl|].
  exists (listeners w), (timers w), (<[p := v]> (promises w)), (calls w).
  split; [by destruct w|]. split; [done|].
  split; [by apply insert_subseteq | done].
Qed.

Lemma record_call_dispatched c w :
  dispatched w (set_calls (calls w ++ [c]) w).
Proof.
  exists (listeners w), (timers w), (promises w), (calls w ++ [c]).
  split; [by destruct w|]. split; [done|].
  split; [done | by apply prefix_app_r].
Qed.

Lemma invoke_dispatched l data w : dispatched w (invoke l data w).
Proof.
  destruct l as [id | event wid cb | p timer]; simpl.
  - apply record_call_dispatched.
  - eapply dispatched_trans; [apply off_dispatched|].
    apply record_call_dispatched.
  - destruct (connected_status data); [|apply dispatched_refl].
    eapply dispatched_trans; [apply clearTimer_dispatched|].
    eapply dispatched_trans; [apply off_dispatched|].
    apply resolve_dispatched.
Qed.

Lemma forEach_invoke_dispatched s data : ∀ w,
  dispatched w (forEach_invoke s data w).
Proof.
  induction s as [|l s IH]; intros w; [apply dispatched_refl|].
  simpl. eapply dispatched_trans; [apply invoke_dispatched | apply IH].
Qed.

Lemma emit_dispatched event data w : dispatched w (emit event data w).
Proof.
  unfold emit.
  set (w1 := match listeners_get event w with
             | Some s => forEach_invoke s data w
             | None => w
             end).
  assert (dispatched w w1) as H1.
  { unfold w1. destruct (listeners_get event w);
      [apply forEach_invoke_dispatched | apply dispatched_refl]. }
  destruct (listeners w1 !! "*"); [|done].
  eapply dispatched_trans; [exact H1 | apply forEach_invoke_dispatched].
Qed.

(** With an empty registry nothing is dispatched to. *)
Lemma emit_no_listeners event data w :
  listeners w = ∅ → emit event data w = w.
Proof.
  intros He. unfold emit, listeners_get.
  destruct event; repeat (rewrite ?He, ?lookup_empty; cbn); done.
Qed.

Lemma invoke_calls l data w :
  calls (invoke l data w)
  = calls w ++ match callee l with Some id => [(id, data)] | None => [] end.
Proof.
  destruct l as [id | event wid cb | p timer]; simpl.
  - reflexivity.
  - unfold off. destruct (listeners w !! event); [|done].
    by destruct (_ =? _).
  - rewrite app_nil_r.
    destruct (connected_status data); [|done].
    unfold resolve, off. simpl.
    repeat (match goal with |- context [match ?x with _ => _ end] =>
              destruct x; simpl end); reflexivity.
Qed.

Lemma forEach_invoke_calls s data : ∀ w,
  calls (forEach_invoke s data w)
  = calls w ++ map (λ id, (id, data)) (omap callee s).
Proof.
  induction s as [|l s IH]; intros w; simpl; [by rewrite app_nil_r|].
  fold (forEach_invoke s data (invoke l data w)).
  rewrite IH, invoke_calls.
  destruct (callee l); simpl; by rewrite <- ?app_assoc, ?app_nil_r.
Qed.

(** The registry, channel by channel, after [on] and [off]. *)
Lemma chan_on c event cb w :
  chan c (on event cb w)
  = if decide (c = event) then set_add cb (chan c w) else chan c w.
Proof.
  unfold chan, on. simpl.
  destruct (listeners w !! event) as [s0|] eqn:He; case_decide; subst;
    simplify_map_eq; try done.
  all: by rewrite lookup_insert_ne.
Qed.

Lemma chan_off c event cb w :
  chan c (off event cb w)
  = if decide (c = event) then set_delete cb (chan c w) else chan c w.
Proof.
  unfold chan, off.
  destruct (listeners w !! event) as [s0|] eqn:He.
  - destruct (length (set_delete cb s0) =? 0) eqn:Hl; simpl;
      case_decide; subst; simplify_map_eq; try done.
    apply Nat.eqb_eq in Hl. by destruct (set_delete cb s0).
  - case_decide; subst; [by rewrite He|done].
Qed.

Lemma elem_of_set_delete x cb s : x ∈ set_delete cb s ↔ x ∈ s ∧ x ≠ cb.
Proof. unfold set_delete. rewrite list_elem_of_filter. tauto. Qed.



Lemma chan_resolve c p v w : chan c (resolve p v w) = chan c w.
Proof. unfold resolve. by destruct (promises w !! p). Qed.

(** A collaborator's callback stays registered through a dispatch:
    the closures of the class remove nobody but themselves. *)
Lemma invoke_keeps_ext c id l data w :
  Ext id ∈ chan c w → Ext id ∈ chan c (invoke l data w).
Proof.
  intros Hin. destruct l as [id' | event wid cb | p timer]; simpl.
  - done.
  - change (Ext id ∈ chan c (off event (OnceWrapper event wid cb) w)).
    rewrite chan_off. case_decide; [|done].
    apply elem_of_set_delete. split; [done | discriminate].
  - destruct (connected_status data); [|done].
    rewrite chan_resolve, chan_off. case_decide; [|done].
    apply elem_of_set_delete. split; [done | discriminate].
Qed.

Lemma forEach_invoke_keeps_ext c id s data : ∀ w,
  Ext id ∈ chan c w → Ext id ∈ chan c (forEach_invoke s data w).
Proof.
  induction s as [|l s IH]; intros w Hin; [done|].
  simpl. apply IH. by apply invoke_keeps_ext.
Qed.

(** [emit] reaches every collaborator callback on the channel ... *)
Lemma emit_calls_channel c id data w :
  Ext id ∈ chan c w → (id, data) ∈ calls (emit (JStr c) data w).
Proof.
  intros Hin. unfold emit, listeners_get.
  unfold chan in Hin.
  destruct (listeners w !! c) as [s|] eqn:Hs; simpl in Hin;
    [|by apply elem_of_nil in Hin].
  eapply elem_of_prefix;
    [|apply dispatched_calls;
      destruct (listeners (forEach_invoke s data w) !! "*");
      [apply forEach_invoke_dispatched | apply dispatched_refl]].
  rewrite forEach_invoke_calls. apply elem_of_app. right.
  apply list_elem_of_fmap. exists id. split; [done|].
  apply list_elem_of_omap. by exists (Ext id).
Qed.

(** ... and every one on the wildcard channel, with the wrapper. *)
Lemma emit_calls_wildcard event id data w :
  Ext id ∈ chan "*" w →
  (id, JObj [("event", event); ("data", data)]) ∈ calls (emit event data w).
Proof.
  intros Hin. unfold emit.
  set (w1 := match listeners_get event w with
             | Some s => forEach_invoke s data w
             | None => w
             end).
  assert (Ext id ∈ chan "*" w1) as Hin1.
  { unfold w1. destruct (listeners_get event w);
      [by apply forEach_invoke_keeps_ext | done]. }
  unfold chan in Hin1.
  destruct (listeners w1 !! "*") as [s|]; simpl in Hin1;
    [|by apply elem_of_nil in Hin1].
  rewrite forEach_invoke_calls. apply elem_of_app. right.
  apply list_elem_of_fmap. exists id. split; [done|].
  apply list_elem_of_omap. by exists (Ext id).
Qed.

End Dispatcher.

(** * Transport and heartbeat *)

Section Transport.

Lemma socket_is_open_true w :
  socket_is_open w = true ↔
  ∃ sid s, socket w = Some sid ∧ sockets w !! sid = Some s
           ∧ readyState s = OPEN.
Proof.
  unfold socket_is_open, socket_readyState. split.
  - destruct (socket w) as [sid|]; [|done].
    destruct (sockets w !! sid) as [s|] eqn:Hs; [|done]. simpl.
    destruct (readyState s) eqn:Hr; try done. by exists sid, s.
  - intros (sid & s & -> & -> & Hr). simpl. by rewrite Hr.
Qed.

Lemma socket_is_open_at sid s w :
  socket w = Some sid → sockets w !! sid = Some s →
  socket_is_open w = bool_decide (readyState s = OPEN).
Proof.
  intros Hsock Hs. unfold socket_is_open, socket_readyState.
  rewrite Hsock, Hs. simpl. by destruct (readyState s).
Qed.

Lemma update_socket_at sid s f w :
  sockets w !! sid = Some s →
  update_socket sid f w = set_sockets (<[sid := f s]> (sockets w)) w.
Proof. intros Hs. unfold update_socket. by rewrite Hs. Qed.

(** Flushing through an open socket transmits the whole queue in order. *)
Lemma send_all_open sid q : ∀ s w,
  sockets w !! sid = Some s → readyState s = OPEN →
  send_all sid q w
  = Returned (set_sockets
      (<[sid := mkSocket (url s) OPEN (handlers s) (sent s ++ map frame_of q)]>
         (sockets w)) w).
Proof.
  induction q as [|m q IH]; intros s w Hs Hr.
  - simpl. rewrite app_nil_r. f_equal.
    replace (mkSocket (url s) OPEN (handlers s) (sent s)) with s
      by (destruct s; simpl in *; by subst).
    rewrite list_insert_id by done. by destruct w.
  - simpl. unfold socket_send at 1. rewrite Hs, Hr. simpl.
    rewrite (update_socket_at _ _ _ _ Hs).
    rewrite (IH (with_sent (frame_of m) s)); simpl.
    + rewrite list_insert_insert_eq, <- app_assoc. reflexivity.
    + apply list_lookup_insert_eq. by eapply lookup_lt_Some.
    + done.
Qed.

Lemma flushQueue_open sid s w :
  socket w = Some sid → sockets w !! sid = Some s → readyState s = OPEN →
  flushQueue w
  = Returned (set_messageQueue []
      (set_sockets
         (<[sid := mkSocket (url s) OPEN (handlers s)
                     (sent s ++ map frame_of (messageQueue w))]>
            (sockets w)) w)).
Proof.
  intros Hsock Hs Hr. unfold flushQueue.
  rewrite (socket_is_open_at _ _ _ Hsock Hs), Hr, Hsock. simpl.
  destruct (messageQueue w) as [|m q] eqn:Hq.
  - simpl. rewrite app_nil_r. f_equal.
    replace (mkSocket (url s) OPEN (handlers s) (sent s)) with s
      by (destruct s; simpl in *; by subst).
    rewrite list_insert_id by done. destruct w; simpl in *; by subst.
  - cbn [length Nat.eqb]. rewrite (send_all_open _ _ _ _ Hs Hr). reflexivity.
Qed.

(** After [clearHeartbeat] neither heartbeat timer is pending. *)
Lemma clearHeartbeat_fields w :
  heartbeatTimer (clearHeartbeat w) = None
  ∧ pongTimeout (clearHeartbeat w) = None
  ∧ (∀ id, heartbeatTimer w = Some id → timers (clearHeartbeat w) !! id = None)
  ∧ (∀ id, pongTimeout w = Some id → timers (clearHeartbeat w) !! id = None)
  ∧ (∀ id, heartbeatTimer w ≠ Some id → pongTimeout w ≠ Some id →
           timers (clearHeartbeat w) !! id = timers w !! id).
Proof.
  unfold clearHeartbeat, clear_if_set, clearTimer.
  destruct (heartbeatTimer w) as [h|] eqn:Hh;
    destruct (pongTimeout w) as [p|] eqn:Hp; simpl; rewrite ?Hp; simpl;
    repeat split; try done; intros id; intros;
    simplify_eq; simplify_map_eq; try done.
  all: try (destruct (decide (h = id)); simplify_map_eq; done).
  all: try (destruct (decide (p = id)); simplify_map_eq; done).
Qed.

Lemma startHeartbeat_fields w :
  cfg (startHeartbeat w) = cfg w
  ∧ socket (startHeartbeat w) = socket w
  ∧ sockets (startHeartbeat w) = sockets w
  ∧ messageQueue (startHeartbeat w) = messageQueue w
  ∧ reconnectAttempts (startHeartbeat w) = reconnectAttempts w
  ∧ state (startHeartbeat w) = state w
  ∧ lastConnectedAt (startHeartbeat w) = lastConnectedAt w
  ∧ calls (startHeartbeat w) = calls w
  ∧ listeners (startHeartbeat w) = listeners w
  ∧ heartbeatTimer (startHeartbeat w) = Some (nextTimer w)
  ∧ timers (startHeartbeat w) !! nextTimer w
    = Some (mkTimer THeartbeat (heartbeatIntervalMs (cfg w))
              (inject_Z (now w) + heartbeatIntervalMs (cfg w))).
Proof.
  unfold startHeartbeat, clearHeartbeat, clear_if_set, clearTimer, setTimer.
  destruct (heartbeatTimer w) as [h|] eqn:Hh;
    destruct (pongTimeout w) as [p|] eqn:Hp; simpl; rewrite ?Hp; simpl;
    repeat split; by simplify_map_eq.
Qed.

(** What the open event of a connecting socket runs. *)
Lemma step_open sid s w :
  sockets w !! sid = Some s → readyState s = CONNECTING →
  handlers s = true →
  step (EvOpen sid) w
  = Some (world_of (onopen (set_sockets
            (<[sid := with_readyState OPEN s]> (sockets w)) w))).
Proof.
  intros Hs Hr Hh. simpl. rewrite Hs, Hr, Hh.
  by rewrite (update_socket_at _ _ _ _ Hs).
Qed.

Lemma onopen_opened w : onopen w = flushQueue (opened w).
Proof. reflexivity. Qed.

Lemma opened_fields w :
  cfg (opened w) = cfg w
  ∧ socket (opened w) = socket w
  ∧ sockets (opened w) = sockets w
  ∧ messageQueue (opened w) = messageQueue w
  ∧ reconnectAttempts (opened w) = 0
  ∧ state (opened w) = connected
  ∧ lastConnectedAt (opened w) = Some (now w)
  ∧ calls (opened w)
    = calls (emit (JStr "connection") (status "connected")
               (set_lastConnectedAt (Some (Date_now w))
                  (set_reconnectAttempts 0 (set_state connected w))))
  ∧ (∃ t, heartbeatTimer (opened w) = Some t
          ∧ timers (opened w) !! t
            = Some (mkTimer THeartbeat (heartbeatIntervalMs (cfg w))
                      (inject_Z (now w) + heartbeatIntervalMs (cfg w)))).
Proof.
  unfold opened.
  set (w1 := set_lastConnectedAt _ _).
  pose proof (dispatched_fields _ _
    (emit_dispatched (JStr "connection") (status "connected") w1)) as HD.
  set (w2 := emit _ _ w1) in *.
  destruct HD as (D1&D2&D3&D4&D5&D6&D7&D8&D9&D10&D11&D12&D13&D14&D15&D16).
  destruct (startHeartbeat_fields w2)
    as (S1&S2&S3&S4&S5&S6&S7&S8&S9&S10&S11).
  rewrite S1, S2, S3, S4, S5, S6, S7, S8.
  rewrite D1, D3, D12, D8, D4, D9, D10.
  repeat split; try done.
  exists (nextTimer w2). split; [done|].
  by rewrite S11, D1, D16.
Qed.

End Transport.

Lemma opened_calls_channel id w :
  Ext id ∈ chan "connection" w → (id, status "connected") ∈ calls (opened w).
Proof.
  intros Hin. destruct (opened_fields w) as (_&_&_&_&_&_&_&O8&_).
  rewrite O8. apply emit_calls_channel. exact Hin.
Qed.

Lemma opened_calls_wildcard id w :
  Ext id ∈ chan "*" w →
  (id, JObj [("event", JStr "connection"); ("data", status "connected")])
  ∈ calls (opened w).
Proof.
  intros Hin. destruct (opened_fields w) as (_&_&_&_&_&_&_&O8&_).
  rewrite O8. apply emit_calls_wildcard. exact Hin.
Qed.

(** * Rounding to binary64 *)

Section Binary64.

Local Open Scope Q_scope.

Lemma pow2_pos (k : Z) : 0 < Qpower 2 k.
Proof. by apply Qpower_0_lt. Qed.

Lemma pow2_plus (a b : Z) : Qpower 2 (a + b) == Qpower 2 a * Qpower 2 b.
Proof. by apply Qpower_plus. Qed.

Lemma pow2_inject (k : Z) : (0 ≤ k)%Z → inject_Z (2 ^ k) == Qpower 2 k.
Proof. intros Hk. by rewrite Zpower_Qpower. Qed.

Lemma pow2_le (a b : Z) : (a ≤ b)%Z → Qpower 2 a <= Qpower 2 b.
Proof. intros. by apply Qpower_le_compat_l. Qed.

Lemma pow2_lt_inv (a b : Z) : Qpower 2 a < Qpower 2 b → (a < b)%Z.
Proof. intros H. by apply (Qpower_lt_compat_l_inv 2). Qed.

Lemma ilog2_spec (x : Q) :
  0 < x → Qpower 2 (ilog2 x) <= x ∧ x < Qpower 2 (ilog2 x + 1).
Proof.
  intros Hx. unfold ilog2. destruct (Qle_bool 1 x) eqn:E.
  - apply Qle_bool_iff in E.
    assert (Hf : (1 ≤ Qfloor x)%Z).
    { change 1%Z with (Qfloor (inject_Z 1)). by apply Qfloor_resp_le. }
    destruct (Z.log2_spec (Qfloor x)) as [L1 L2]; [lia|].
    pose proof (Z.log2_nonneg (Qfloor x)) as L0.
    split.
    + rewrite <- pow2_inject by done.
      eapply Qle_trans; [|apply Qfloor_le]. by rewrite <- Zle_Qle.
    + rewrite <- pow2_inject by lia.
      eapply Qlt_le_trans; [apply Qlt_floor|]. rewrite <- Zle_Qle. lia.
  - assert (E' : x < 1).
    { apply Qnot_le_lt. intros H. apply Qle_bool_iff in H. congruence. }
    set (y := / x). set (c := Qceiling y).
    assert (Hy : 0 < y) by by apply Qinv_lt_0_compat.
    assert (Hxy : y * x == 1).
    { unfold y. rewrite Qmult_comm. apply Qmult_inv_r. lra. }
    assert (Hy1 : 1 < y) by nra.
    assert (Hc : (1 < c)%Z).
    { rewrite Zlt_Qlt. eapply Qlt_le_trans; [exact Hy1|apply Qle_ceiling]. }
    destruct (Z.log2_up_spec c Hc) as [L1 L2].
    pose proof (Z.log2_up_nonneg c) as L0.
    set (j := Z.log2_up c) in *.
    assert (L0' : (0 < j)%Z) by by apply Z.log2_up_pos.
    assert (U : y <= Qpower 2 j).
    { rewrite <- pow2_inject by done.
      eapply Qle_trans; [apply Qle_ceiling|]. by rewrite <- Zle_Qle. }
    assert (V : Qpower 2 (j - 1) < y).
    { rewrite <- pow2_inject by lia.
      eapply Qle_lt_trans; [|apply Qceiling_lt]. rewrite <- Zle_Qle.
      fold c. replace (Z.pred j) with (j - 1)%Z in L1 by lia. lia. }
    pose proof (pow2_pos j) as P1. pose proof (pow2_pos (j - 1)) as P2.
    split.
    + rewrite Qpower_opp. apply Qle_shift_inv_r; [done|]. nra.
    + replace (- j + 1)%Z with (- (j - 1))%Z by lia.
      rewrite Qpower_opp. apply Qlt_shift_inv_l; [done|]. nra.
Qed.

Lemma ilog2_unique (x : Q) (k : Z) :
  Qpower 2 k <= x → x < Qpower 2 (k + 1) → ilog2 x = k.
Proof.
  intros H1 H2.
  assert (Hx : 0 < x) by (pose proof (pow2_pos k); lra).
  destruct (ilog2_spec x Hx) as [S1 S2].
  assert (A : (k < ilog2 x + 1)%Z).
  { apply pow2_lt_inv. eapply Qle_lt_trans; [exact H1 | exact S2]. }
  assert (B : (ilog2 x < k + 1)%Z).
  { apply pow2_lt_inv. eapply Qle_lt_trans; [exact S1 | exact H2]. }
  lia.
Qed.

Lemma ilog2_comp (x y : Q) : x == y → ilog2 x = ilog2 y.
Proof.
  intros E. unfold ilog2.
  rewrite (Qleb_comp 1 1 (Qeq_refl 1) x y E), (Qfloor_comp x y E).
  rewrite (Qceiling_comp (/ x) (/ y)); [done|]. by rewrite E.
Qed.

Lemma rne_comp (x y : Q) : x == y → rne x = rne y.
Proof.
  intros E. unfold rne. cbv zeta. rewrite (Qfloor_comp x y E).
  rewrite (Qcompare_comp (x - inject_Z (Qfloor y)) (y - inject_Z (Qfloor y))
             (ltac:(by rewrite E)) (1 # 2) (1 # 2) (Qeq_refl _)).
  done.
Qed.

Lemma rne_inject (m : Z) : rne (inject_Z m) = m.
Proof.
  unfold rne. cbv zeta. rewrite Qfloor_Z.
  assert (E : (inject_Z m - inject_Z m ?= 1 # 2) = Lt).
  { rewrite <- Qlt_alt. lra. }
  by rewrite E.
Qed.

Lemma rne_mono (x y : Q) : x <= y → (rne x ≤ rne y)%Z.
Proof.
  intros H. pose proof (Qfloor_resp_le _ _ H) as Hf.
  pose proof (Qfloor_le x) as X1. pose proof (Qlt_floor x) as X2.
  pose proof (Qfloor_le y) as Y1. pose proof (Qlt_floor y) as Y2.
  unfold rne. cbv zeta.
  destruct (Z.eq_dec (Qfloor x) (Qfloor y)) as [E|N].
  - rewrite <- E in *.
    destruct (Qcompare_spec (x - inject_Z (Qfloor x)) (1 # 2)) as [Cx|Cx|Cx];
      destruct (Qcompare_spec (y - inject_Z (Qfloor x)) (1 # 2)) as [Cy|Cy|Cy];
      try (destruct (Z.even (Qfloor x))); try lia; lra.
  - assert ((Qfloor x + 1 ≤ Qfloor y)%Z) by lia.
    destruct (x - inject_Z (Qfloor x) ?= 1 # 2);
      destruct (y - inject_Z (Qfloor y) ?= 1 # 2);
      try (destruct (Z.even (Qfloor x))); try (destruct (Z.even (Qfloor y)));
      lia.
Qed.

Lemma rne_ge (a : Z) (y : Q) : inject_Z a <= y → (a ≤ rne y)%Z.
Proof. intros H. rewrite <- (rne_inject a). by apply rne_mono. Qed.

Lemma rne_le (b : Z) (y : Q) : y <= inject_Z b → (rne y ≤ b)%Z.
Proof. intros H. rewrite <- (rne_inject b). by apply rne_mono. Qed.

Lemma round53_comp (x y : Q) : x == y → round53 x == round53 y.
Proof.
  intros E. unfold round53. cbv zeta. rewrite (ilog2_comp x y E).
  rewrite (rne_comp (x / _) (y / Qpower 2 (ilog2 y - 52))); [done|].
  by rewrite E.
Qed.

#[global] Instance b64_comp : Proper (Qeq ==> Qeq) b64.
Proof.
  intros x y E. unfold b64. rewrite E.
  destruct (y ?= 0); [done | |].
  - apply Qopp_comp, round53_comp. by rewrite E.
  - by apply round53_comp.
Qed.

Lemma scaled_bounds (x : Q) :
  0 < x →
  let e := (ilog2 x - 52)%Z in
  inject_Z (2 ^ 52) <= x / Qpower 2 e ∧ x / Qpower 2 e <= inject_Z (2 ^ 53).
Proof.
  intros Hx e. destruct (ilog2_spec x Hx) as [S1 S2].
  pose proof (pow2_pos e) as Pe.
  rewrite !pow2_inject by lia.
  split.
  - apply Qle_shift_div_l; [done|]. rewrite <- pow2_plus.
    by replace (52 + e)%Z with (ilog2 x) by lia.
  - apply Qle_shift_div_r; [done|]. rewrite <- pow2_plus.
    replace (53 + e)%Z with (ilog2 x + 1)%Z by lia. lra.
Qed.

Lemma round53_bounds (x : Q) :
  0 < x → Qpower 2 (ilog2 x) <= round53 x ∧ round53 x <= Qpower 2 (ilog2 x + 1).
Proof.
  intros Hx. destruct (scaled_bounds x Hx) as [B1 B2]. cbv zeta in B1, B2.
  unfold round53. cbv zeta.
  set (e := (ilog2 x - 52)%Z) in *.
  apply rne_ge in B1. apply rne_le in B2.
  set (m := rne (x / Qpower 2 e)) in *.
  pose proof (pow2_pos e) as Pe.
  rewrite Zle_Qle in B1, B2. rewrite pow2_inject in B1, B2 by lia.
  replace (ilog2 x) with (52 + e)%Z at 1 by lia.
  replace (ilog2 x + 1)%Z with (53 + e)%Z by lia.
  rewrite !pow2_plus. split; nra.
Qed.

Lemma round53_mono (x y : Q) : 0 < x → x <= y → round53 x <= round53 y.
Proof.
  intros Hx Hxy. assert (Hy : 0 < y) by lra.
  destruct (ilog2_spec x Hx) as [X1 X2]. destruct (ilog2_spec y Hy) as [Y1 Y2].
  assert (Hle : (ilog2 x ≤ ilog2 y)%Z).
  { assert ((ilog2 x < ilog2 y + 1)%Z) by (apply pow2_lt_inv; lra). lia. }
  destruct (Z.eq_dec (ilog2 x) (ilog2 y)) as [E|N].
  - unfold round53. cbv zeta. rewrite E.
    set (e := (ilog2 y - 52)%Z). pose proof (pow2_pos e) as Pe.
    assert (Hs : x / Qpower 2 e <= y / Qpower 2 e).
    { apply Qle_shift_div_l; [done|]. unfold Qdiv.
      rewrite <- Qmult_assoc, (Qmult_comm (/ _)), Qmult_inv_r; lra. }
    apply rne_mono in Hs. rewrite Zle_Qle in Hs. nra.
  - destruct (round53_bounds x Hx) as [_ U]. destruct (round53_bounds y Hy) as [L _].
    eapply Qle_trans; [exact U|]. eapply Qle_trans; [|exact L].
    apply pow2_le. lia.
Qed.

Lemma b64_pos (x : Q) : 0 < x → b64 x == round53 x.
Proof. intros Hx. unfold b64. rewrite Qgt_alt in Hx. by rewrite Hx. Qed.

Lemma b64_0 (x : Q) : x == 0 → b64 x == 0.
Proof. intros Hx. unfold b64. rewrite Qeq_alt in Hx. by rewrite Hx. Qed.

Lemma b64_nonneg (x : Q) : 0 <= x → 0 <= b64 x.
Proof.
  intros Hx. destruct (Qlt_le_dec 0 x) as [H|H].
  - rewrite (b64_pos x H). destruct (round53_bounds x H) as [L _].
    pose proof (pow2_pos (ilog2 x)). lra.
  - rewrite b64_0; lra.
Qed.

Lemma b64_mono (x y : Q) : 0 <= x → x <= y → b64 x <= b64 y.
Proof.
  intros Hx Hxy. destruct (Qlt_le_dec 0 x) as [H|H].
  - rewrite (b64_pos x H), (b64_pos y) by lra. by apply round53_mono.
  - rewrite (b64_0 x) by lra. apply b64_nonneg. lra.
Qed.

Lemma b64_double (x : Q) : 0 < x → b64 (2 * x) == 2 * b64 x.
Proof.
  intros Hx. rewrite (b64_pos x Hx), (b64_pos (2 * x)) by lra.
  destruct (ilog2_spec x Hx) as [S1 S2].
  assert (E : ilog2 (2 * x) = (ilog2 x + 1)%Z).
  { apply ilog2_unique.
    - rewrite pow2_plus. change (Qpower 2 1) with 2. lra.
    - rewrite (pow2_plus (ilog2 x + 1) 1). change (Qpower 2 1) with 2. lra. }
  unfold round53. cbv zeta. rewrite E.
  replace (ilog2 x + 1 - 52)%Z with ((ilog2 x - 52) + 1)%Z by lia.
  set (e := (ilog2 x - 52)%Z). pose proof (pow2_pos e) as Pe.
  rewrite (rne_comp (2 * x / Qpower 2 (e + 1)) (x / Qpower 2 e)).
  - rewrite pow2_plus. change (Qpower 2 1) with 2. ring.
  - rewrite pow2_plus. change (Qpower 2 1) with 2. field. lra.
Qed.

(** The rounding on a few values whose binary64 neighbours are known:
    one tenth, its opposite, and the two kinds of tie just above
    [2 ^ 53], where the doubles are the even integers. *)
Lemma b64_samples :
  b64 (1 # 10) == 3602879701896397 # 36028797018963968
  ∧ b64 (- (1 # 10)) == - (3602879701896397 # 36028797018963968)
  ∧ b64 9007199254740993 == 9007199254740992
  ∧ b64 9007199254740995 == 9007199254740996
  ∧ b64 (1 # 3) == 6004799503160661 # 18014398509481984
  ∧ b64 0 == 0.
Proof. repeat split; vm_compute; reflexivity. Qed.

Lemma b64_300 : b64 300 == 300.
Proof. vm_compute. reflexivity. Qed.

Lemma b64_600 : b64 600 == 600.
Proof. vm_compute. reflexivity. Qed.

End Binary64.

(** * Backoff arithmetic *)

Lemma pow2_succ (n : nat) :
  (Qpower 2 (Z.of_nat (S n)) == 2 * Qpower 2 (Z.of_nat n))%Q.
Proof.
  replace (Z.of_nat (S n)) with (1 + Z.of_nat n)%Z by lia.
  rewrite Qpower_plus by discriminate. reflexivity.
Qed.

Lemma pow2_ge_1 (n : nat) : (1 <= Qpower 2 (Z.of_nat n))%Q.
Proof. apply Qpower_1_le; [discriminate | lia]. Qed.

Lemma reconnect_jitter_bounds (rnd : Q) :
  (0 <= rnd)%Q → (rnd < 1)%Q →
  (300 <= reconnect_jitter rnd)%Q ∧ (reconnect_jitter rnd <= 600)%Q.
Proof.
  intros H0 H1. unfold reconnect_jitter.
  assert (0 <= b64 (rnd * 300))%Q as P0 by (apply b64_nonneg; lra).
  assert (b64 (rnd * 300) <= 300)%Q as P1.
  { apply (Qle_trans _ (b64 300)); [apply b64_mono; lra|].
    rewrite b64_300. lra. }
  split.
  - apply (Qle_trans _ (b64 300)); [rewrite b64_300; lra|].
    apply b64_mono; lra.
  - apply (Qle_trans _ (b64 600)); [apply b64_mono; lra|].
    rewrite b64_600. lra.
Qed.

(** The draw just below one already gives the largest jitter: the sum is
    rounded up to 600. *)
Lemma reconnect_jitter_attains_600 :
  (reconnect_jitter (1 - (1 # 4503599627370496)) == 600)%Q.
Proof. vm_compute. reflexivity. Qed.

Lemma backoff_product_mono (base : Q) (n m : nat) :
  (0 <= base)%Q → n ≤ m →
  (b64 (base * Qpower 2 (Z.of_nat n - 1))
   <= b64 (base * Qpower 2 (Z.of_nat m - 1)))%Q.
Proof.
  intros Hb Hnm.
  pose proof (pow2_pos (Z.of_nat n - 1)) as Pn.
  assert (Qpower 2 (Z.of_nat n - 1) <= Qpower 2 (Z.of_nat m - 1))%Q as Hm
    by (apply pow2_le; lia).
  apply b64_mono.
  - apply Qmult_le_0_compat; lra.
  - set (P := Qpower 2 (Z.of_nat n - 1)) in *.
    set (M := Qpower 2 (Z.of_nat m - 1)) in *. clearbody P M.
    assert (0 <= base * (M - P))%Q by (apply Qmult_le_0_compat; lra). nra.
Qed.

Lemma backoff_product_double (base : Q) (n : nat) :
  (0 < base)%Q →
  (b64 (base * Qpower 2 (Z.of_nat (S (S n)) - 1))
   == 2 * b64 (base * Qpower 2 (Z.of_nat (S n) - 1)))%Q.
Proof.
  intros Hb.
  pose proof (pow2_pos (Z.of_nat (S n) - 1)) as Pn.
  rewrite <- b64_double by (apply Qmult_lt_0_compat; lra).
  apply b64_comp.
  replace (Z.of_nat (S (S n)) - 1)%Z with (1 + (Z.of_nat (S n) - 1))%Z by lia.
  rewrite pow2_plus. change (Qpower 2 1) with 2%Q. ring.
Qed.

(** With a base of at least the smallest jitter the delay cannot shrink
    from one attempt to the next, whatever the two draws. *)
Lemma reconnect_delay_grows (base : Q) (n : nat) (rnd rnd' : Q) :
  (300 <= base)%Q →
  (0 <= rnd)%Q → (rnd < 1)%Q → (0 <= rnd')%Q → (rnd' < 1)%Q →
  (reconnect_delay base (S n) rnd <= reconnect_delay base (S (S n)) rnd')%Q.
Proof.
  intros Hb H0 H1 H0' H1'.
  destruct (reconnect_jitter_bounds rnd H0 H1) as [J1 J2].
  destruct (reconnect_jitter_bounds rnd' H0' H1') as [J1' J2'].
  unfold reconnect_delay. cbv zeta.
  pose proof (backoff_product_double base n ltac:(lra)) as D.
  assert (300 <= b64 (base * Qpower 2 (Z.of_nat (S n) - 1)))%Q as L.
  { apply (Qle_trans _ (b64 300)); [rewrite b64_300; lra|].
    apply b64_mono; [lra|].
    assert (1 <= Qpower 2 (Z.of_nat (S n) - 1))%Q as Hp
      by (apply Qpower_1_le; [discriminate | lia]).
    set (P := Qpower 2 (Z.of_nat (S n) - 1)) in *. clearbody P.
    assert (0 <= (base - 300) * (P - 1))%Q by (apply Qmult_le_0_compat; lra).
    nra. }
  set (A := b64 (base * Qpower 2 (Z.of_nat (S n) - 1))) in *.
  set (B := b64 (base * Qpower 2 (Z.of_nat (S (S n)) - 1))) in *.
  set (j := reconnect_jitter rnd) in *. set (j' := reconnect_jitter rnd') in *.
  clearbody A B j j'.
  apply b64_mono; lra.
Qed.

(** With a base of 300 two successive delays can be equal. *)
Lemma reconnect_delay_can_repeat :
  (reconnect_delay 300 1 (1 - (1 # 4503599627370496)) == 900)%Q
  ∧ (reconnect_delay 300 2 0 == 900)%Q.
Proof. split; vm_compute; reflexivity. Qed.

(** * Manual close *)

Lemma disconnect_fields (w : World) :
  manualClose (disconnect w) = true
  ∧ state (disconnect w) = disconnected
  ∧ socket (disconnect w) = None
  ∧ listeners (disconnect w) = ∅
  ∧ heartbeatTimer (disconnect w) = None
  ∧ pongTimeout (disconnect w) = None
  ∧ reconnectAttempts (disconnect w) = reconnectAttempts w
  ∧ cfg (disconnect w) = cfg w
  ∧ calls (disconnect w) = calls w
  ∧ timers (disconnect w) = timers (clearHeartbeat w)
  ∧ sockets (disconnect w)
    = match socket w with
      | Some sid => sockets (socket_close sid w)
      | None => sockets w
      end.
Proof.
  unfold disconnect, clearHeartbeat, clear_if_set, clearTimer, socket_close,
    update_socket.
  destruct (heartbeatTimer w) eqn:Hh, (pongTimeout w) eqn:Hp,
    (socket w) as [sid|] eqn:Hs;
    repeat (simpl; rewrite ?Hh, ?Hp, ?Hs);
    try destruct (sockets w !! sid); simpl; repeat split; reflexivity.
Qed.

(** What the close event of a socket runs. *)
Lemma step_close sid s reason rnd w :
  sockets w !! sid = Some s → readyState s ≠ CLOSED →
  valid_random rnd = true →
  step (EvClose sid reason rnd) w
  = Some (let w0 := set_sockets
                      (<[sid := with_readyState CLOSED s]> (sockets w)) w in
          if handlers s then onclose reason rnd w0 else w0).
Proof.
  intros Hs Hr Hv. simpl. rewrite Hs, Hv, (update_socket_at _ _ _ _ Hs).
  by destruct (readyState s).
Qed.

(** A close event that finds the manual mark set and nobody listening. *)
Lemma onclose_manual reason rnd w :
  manualClose w = true → listeners w = ∅ →
  heartbeatTimer w = None → pongTimeout w = None →
  onclose reason rnd w
  = set_lastDisconnectedAt (Some (now w)) (set_state disconnected w).
Proof.
  intros Hm Hl Hh Hp. unfold onclose, clearHeartbeat.
  repeat (simpl; rewrite ?Hh, ?Hp).
  rewrite emit_no_listeners by done. simpl. rewrite Hm.
  unfold Date_now. simpl. by destruct w; simpl in *; subst.
Qed.

Lemma socket_close_lookup sid sid' s w :
  sockets w !! sid' = Some s →
  ∃ s', sockets (socket_close sid w) !! sid' = Some s'
        ∧ handlers s' = handlers s ∧ url s' = url s ∧ sent s' = sent s
        ∧ (sid = sid' → readyState s' ≠ OPEN ∧ readyState s' ≠ CONNECTING)
        ∧ (readyState s' = CONNECTING → readyState s = CONNECTING).
Proof.
  intros Hs. unfold socket_close, update_socket.
  destruct (sockets w !! sid) as [s0|] eqn:Hs0; simpl.
  - destruct (decide (sid = sid')) as [->|Hne].
    + rewrite list_lookup_insert_eq by (by eapply lookup_lt_Some).
      simplify_eq. eexists. split; [reflexivity|].
      destruct (readyState s) eqn:Hr; simpl; rewrite ?Hr; by repeat split.
    + rewrite list_lookup_insert_ne by done. exists s.
      repeat split; try done.
  - exists s. do 4 (split; [done|]). split; [intros ->; congruence | done].
Qed.

(** A close event that arrives while the manual mark stands. *)
Lemma late_close_while_manual sid s reason rnd v :
  manualClose v = true → listeners v = ∅ →
  heartbeatTimer v = None → pongTimeout v = None →
  state v = disconnected →
  sockets v !! sid = Some s → readyState s ≠ CLOSED →
  valid_random rnd = true →
  ∃ w', step (EvClose sid reason rnd) v = Some w'
        ∧ state w' = disconnected
        ∧ reconnectAttempts w' = reconnectAttempts v
        ∧ timers w' = timers v
        ∧ length (sockets w') = length (sockets v).
Proof.
  intros M1 M2 M3 M4 M5 Hs Hr Hv.
  rewrite (step_close _ _ _ _ _ Hs Hr Hv). cbv zeta.
  destruct (handlers s).
  - rewrite onclose_manual by done.
    eexists. split; [reflexivity|]. simpl. rewrite length_insert.
    by repeat split.
  - eexists. split; [reflexivity|]. simpl. rewrite length_insert.
    by repeat split.
Qed.

(** * No reconnection without an operator *)

Section NoRetry.

(** The world the comparison starts from. *)
Variable w0 : World.

Lemma no_retry_refl w : no_retry w w.
Proof. repeat split; eauto. Qed.

Lemma no_retry_trans w1 w2 w3 :
  no_retry w1 w2 → no_retry w2 w3 → no_retry w1 w3.
Proof.
  intros (A1&A2&A3&A4&A5) (B1&B2&B3&B4&B5).
  split; [congruence|]. split; [congruence|]. split; [congruence|].
  split.
  - intros id t Ht Ha. apply A4; [|done]. by apply B4.
  - intros sid s' Hs' Hr. destruct (B5 _ _ Hs' Hr) as (s2 & Hs2 & Hr2).
    by apply (A5 _ _ Hs2 Hr2).
Qed.

Lemma no_retry_quiescent w w' : quiescent w → no_retry w w' → quiescent w'.
Proof.
  intros (Q1&Q2&Q3) (A1&A2&A3&A4&A5). split; [by rewrite A1, A2|]. split.
  - intros id t Ht Ha. by apply (Q2 id t); [apply A4|].
  - intros sid s Hs Hr. destruct (A5 _ _ Hs Hr) as (s0 & Hs0 & Hr0).
    by apply (Q3 _ _ Hs0).
Qed.

(** Steps that leave the four fields of [no_retry] alone. *)
Lemma no_retry_same w w' :
  cfg w' = cfg w → reconnectAttempts w' = reconnectAttempts w →
  sockets w' = sockets w → timers w' = timers w →
  no_retry w0 w → no_retry w0 w'.
Proof.
  intros E1 E2 E3 E4 H. eapply no_retry_trans; [exact H|].
  unfold no_retry. rewrite E1, E2, E3, E4. apply no_retry_refl.
Qed.

Lemma no_retry_dispatched w w' :
  dispatched w w' → no_retry w0 w → no_retry w0 w'.
Proof.
  intros HD H. eapply no_retry_trans; [exact H|].
  destruct (dispatched_fields _ _ HD)
    as (D1&_&_&D4&_&_&_&_&_&_&_&D12&_).
  pose proof (dispatched_timers _ _ HD) as HT.
  unfold no_retry. rewrite D1, D4, D12. repeat split; eauto.
  intros id t Ht _. by eapply lookup_weaken.
Qed.

Lemma no_retry_clearTimer id w :
  no_retry w0 w → no_retry w0 (clearTimer id w).
Proof. apply no_retry_dispatched, clearTimer_dispatched. Qed.

Lemma no_retry_clear_if_set t w :
  no_retry w0 w → no_retry w0 (clear_if_set t w).
Proof. destruct t; [apply no_retry_clearTimer | done]. Qed.

Lemma no_retry_setTimer a d w :
  a ≠ TReconnect → no_retry w0 w → no_retry w0 (setTimer a d w).2.
Proof.
  intros Ha H. eapply no_retry_trans; [exact H|].
  unfold setTimer, no_retry. simpl. repeat split; eauto.
  intros id t Ht Hact.
  destruct (decide (nextTimer w = id)) as [Heq|Hne].
  - subst id. rewrite lookup_insert_eq in Ht. by simplify_eq.
  - by rewrite lookup_insert_ne in Ht.
Qed.

Lemma no_retry_update_socket sid f w :
  (∀ s, readyState (f s) = CONNECTING → readyState s = CONNECTING) →
  no_retry w0 w → no_retry w0 (update_socket sid f w).
Proof.
  intros Hf H. eapply no_retry_trans; [exact H|].
  unfold update_socket. destruct (sockets w !! sid) as [s|] eqn:Hs;
    [|apply no_retry_refl].
  unfold no_retry. simpl. rewrite length_insert. repeat split; eauto.
  intros sid' s' Hs' Hr.
  destruct (decide (sid = sid')) as [->|Hne].
  - rewrite list_lookup_insert_eq in Hs' by (by eapply lookup_lt_Some).
    simplify_eq. exists s. split; [done | by apply Hf].
  - rewrite list_lookup_insert_ne in Hs' by done. by exists s'.
Qed.

Lemma no_retry_socket_close sid w :
  no_retry w0 w → no_retry w0 (socket_close sid w).
Proof.
  apply no_retry_update_socket. intros s.
  destruct (readyState s) eqn:Hr; simpl; congruence.
Qed.

Lemma no_retry_socket_send sid f w :
  no_retry w0 w → no_retry w0 (world_of (socket_send sid f w)).
Proof.
  intros H. unfold socket_send.
  destruct (sockets w !! sid) as [s|]; [|done].
  destruct (readyState s); try done.
  by apply no_retry_update_socket.
Qed.

Lemma no_retry_resolve p v w :
  no_retry w0 w → no_retry w0 (resolve p v w).
Proof. apply no_retry_dispatched, resolve_dispatched. Qed.

Lemma no_retry_off event cb w :
  no_retry w0 w → no_retry w0 (off event cb w).
Proof. apply no_retry_dispatched, off_dispatched. Qed.

Lemma no_retry_on event cb w :
  no_retry w0 w → no_retry w0 (on event cb w).
Proof. by apply no_retry_same. Qed.

Lemma no_retry_emit event data w :
  no_retry w0 w → no_retry w0 (emit event data w).
Proof. apply no_retry_dispatched, emit_dispatched. Qed.

Lemma no_retry_clearHeartbeat w :
  no_retry w0 w → no_retry w0 (clearHeartbeat w).
Proof.
  intros H. unfold clearHeartbeat.
  eapply (no_retry_same (clear_if_set _ (clear_if_set _ w))); try done.
  by do 2 apply no_retry_clear_if_set.
Qed.

Lemma no_retry_set_socket v w :
  no_retry w0 w → no_retry w0 (set_socket v w).
Proof. by apply no_retry_same. Qed.

Lemma no_retry_set_listeners v w :
  no_retry w0 w → no_retry w0 (set_listeners v w).
Proof. by apply no_retry_same. Qed.

Lemma no_retry_set_manualClose v w :
  no_retry w0 w → no_retry w0 (set_manualClose v w).
Proof. by apply no_retry_same. Qed.

Lemma no_retry_set_heartbeatTimer v w :
  no_retry w0 w → no_retry w0 (set_heartbeatTimer v w).
Proof. by apply no_retry_same. Qed.

Lemma no_retry_set_pongTimeout v w :
  no_retry w0 w → no_retry w0 (set_pongTimeout v w).
Proof. by apply no_retry_same. Qed.

Lemma no_retry_set_messageQueue v w :
  no_retry w0 w → no_retry w0 (set_messageQueue v w).
Proof. by apply no_retry_same. Qed.

Lemma no_retry_set_state v w :
  no_retry w0 w → no_retry w0 (set_state v w).
Proof. by apply no_retry_same. Qed.

Lemma no_retry_set_lastConnectedAt v w :
  no_retry w0 w → no_retry w0 (set_lastConnectedAt v w).
Proof. by apply no_retry_same. Qed.

Lemma no_retry_set_lastDisconnectedAt v w :
  no_retry w0 w → no_retry w0 (set_lastDisconnectedAt v w).
Proof. by apply no_retry_same. Qed.

Lemma no_retry_set_nextTimer v w :
  no_retry w0 w → no_retry w0 (set_nextTimer v w).
Proof. by apply no_retry_same. Qed.

Lemma no_retry_set_promises v w :
  no_retry w0 w → no_retry w0 (set_promises v w).
Proof. by apply no_retry_same. Qed.

Lemma no_retry_set_nextPromise v w :
  no_retry w0 w → no_retry w0 (set_nextPromise v w).
Proof. by apply no_retry_same. Qed.

Lemma no_retry_set_nextWrapper v w :
  no_retry w0 w → no_retry w0 (set_nextWrapper v w).
Proof. by apply no_retry_same. Qed.

Lemma no_retry_set_calls v w :
  no_retry w0 w → no_retry w0 (set_calls v w).
Proof. by apply no_retry_same. Qed.

Lemma no_retry_set_now v w :
  no_retry w0 w → no_retry w0 (set_now v w).
Proof. by apply no_retry_same. Qed.

Lemma setTimer_eta a d w :
  setTimer a d w = (nextTimer w, (setTimer a d w).2).
Proof. reflexivity. Qed.

End NoRetry.

(** Case analysis on a scrutinee that contains no further [match]. *)
Ltac case_innermost :=
  match goal with
  | |- context [match ?x with _ => _ end] =>
      lazymatch x with
      | context [match _ with _ => _ end] => fail
      | _ => destruct x eqn:?
      end
  end.

(** Peels one operation off the world on the right of [no_retry]. *)
Ltac no_retry_step :=
  lazymatch goal with
  | |- no_retry ?a ?a => apply no_retry_refl
  | H : no_retry ?a ?b |- no_retry ?a ?b => exact H
  | |- no_retry _ (set_socket _ _) => apply no_retry_set_socket
  | |- no_retry _ (set_listeners _ _) => apply no_retry_set_listeners
  | |- no_retry _ (set_manualClose _ _) => apply no_retry_set_manualClose
  | |- no_retry _ (set_heartbeatTimer _ _) => apply no_retry_set_heartbeatTimer
  | |- no_retry _ (set_pongTimeout _ _) => apply no_retry_set_pongTimeout
  | |- no_retry _ (set_messageQueue _ _) => apply no_retry_set_messageQueue
  | |- no_retry _ (set_state _ _) => apply no_retry_set_state
  | |- no_retry _ (set_lastConnectedAt _ _) => apply no_retry_set_lastConnectedAt
  | |- no_retry _ (set_lastDisconnectedAt _ _) => apply no_retry_set_lastDisconnectedAt
  | |- no_retry _ (set_nextTimer _ _) => apply no_retry_set_nextTimer
  | |- no_retry _ (set_promises _ _) => apply no_retry_set_promises
  | |- no_retry _ (set_nextPromise _ _) => apply no_retry_set_nextPromise
  | |- no_retry _ (set_nextWrapper _ _) => apply no_retry_set_nextWrapper
  | |- no_retry _ (set_calls _ _) => apply no_retry_set_calls
  | |- no_retry _ (set_now _ _) => apply no_retry_set_now
    | |- no_retry _ (clearHeartbeat _) => apply no_retry_clearHeartbeat
  | |- no_retry _ (clearTimer _ _) => apply no_retry_clearTimer
  | |- no_retry _ (clear_if_set _ _) => apply no_retry_clear_if_set
  | |- no_retry _ (emit _ _ _) => apply no_retry_emit
  | |- no_retry _ (on _ _ _) => apply no_retry_on
  | |- no_retry _ (off _ _ _) => apply no_retry_off
  | |- no_retry _ (resolve _ _ _) => apply no_retry_resolve
  | |- no_retry _ (socket_close _ _) => apply no_retry_socket_close
  | |- no_retry _ (update_socket _ (with_sent _) _) =>
      apply no_retry_update_socket; [done|]
  | |- no_retry ?w0 (snd (?a, ?b)) => change (no_retry w0 b)
  | |- no_retry _ (snd (setTimer _ _ _)) =>
      apply no_retry_setTimer; [discriminate|]
  | |- context [match setTimer ?a ?d ?x with _ => _ end] =>
      rewrite (setTimer_eta a d x)
  | |- _ => case_innermost
  end.

Ltac no_retry_chain :=
  repeat (cbv beta iota zeta delta [bind world_of try_catch socket_send];
          no_retry_step).

Section NoRetrySteps.

(** The world the comparison starts from. *)
Variable w0 : World.

Lemma no_retry_disconnect w :
  no_retry w0 w → no_retry w0 (disconnect w).
Proof. intros H. unfold disconnect. no_retry_chain. Qed.

Lemma no_retry_send event data w :
  no_retry w0 w → no_retry w0 (world_of (send event data w)).
Proof. intros H. unfold send. no_retry_chain. Qed.

Lemma no_retry_once event cb w :
  no_retry w0 w → no_retry w0 (once event cb w).
Proof. intros H. unfold once. no_retry_chain. Qed.

Lemma no_retry_waitForConnection t w :
  no_retry w0 w → no_retry w0 (waitForConnection t w).2.
Proof.
  intros H. unfold waitForConnection. cbv zeta.
  destruct (isConnected _); no_retry_chain.
Qed.

Lemma no_retry_onerror w : no_retry w0 w → no_retry w0 (onerror w).
Proof. intros H. unfold onerror. no_retry_chain. Qed.

Lemma no_retry_onmessage data w :
  no_retry w0 w → no_retry w0 (onmessage data w).
Proof.
  intros H. unfold onmessage.
  destruct data as [raw|msg]; [done|]. destruct msg; no_retry_chain.
Qed.

Lemma no_retry_heartbeat_tick w :
  no_retry w0 w → no_retry w0 (heartbeat_tick w).
Proof. intros H. unfold heartbeat_tick. no_retry_chain. Qed.

Lemma no_retry_pong_deadline w :
  no_retry w0 w → no_retry w0 (pong_deadline w).
Proof. intros H. unfold pong_deadline. no_retry_chain. Qed.

Lemma no_retry_wait_timeout p id w :
  no_retry w0 w → no_retry w0 (wait_timeout p id w).
Proof. intros H. unfold wait_timeout. no_retry_chain. Qed.

(** At the ceiling handleReconnect only reports the failure. *)
Lemma no_retry_handleReconnect rnd w :
  maxReconnectAttempts (cfg w) ≤ reconnectAttempts w →
  no_retry w0 w → no_retry w0 (handleReconnect rnd w).
Proof.
  intros Hc H. unfold handleReconnect.
  destruct (Nat.leb_spec (maxReconnectAttempts (cfg w)) (reconnectAttempts w));
    [|lia].
  no_retry_chain.
Qed.

End NoRetrySteps.

Section Ceiling.

Section Callbacks.

(** The world the comparison starts from. *)
Variable w0 : World.

Lemma no_retry_onclose reason rnd w :
  maxReconnectAttempts (cfg w) ≤ reconnectAttempts w →
  no_retry w0 w → no_retry w0 (onclose reason rnd w).
Proof.
  intros Hc H. unfold onclose. cbv zeta.
  set (x := emit _ _ _).
  assert (no_retry w x) as Hx by (unfold x; no_retry_chain).
  clearbody x.
  assert (no_retry w0 x) as H0x by (by eapply no_retry_trans).
  destruct (manualClose x); [done|].
  apply no_retry_handleReconnect; [|done].
  destruct Hx as (E1 & E2 & _). by rewrite E1, E2.
Qed.

Lemma no_retry_fire_timer id t w :
  action t ≠ TReconnect →
  no_retry w0 w → no_retry w0 (fire_timer id t w).
Proof.
  intros Ha H. unfold fire_timer. destruct (action t) eqn:Hact; [done|..].
  - apply no_retry_heartbeat_tick.
    eapply no_retry_trans; [exact H|].
    unfold no_retry. simpl. repeat split; eauto.
    intros id' t' Ht' Hact'.
    destruct (decide (id = id')) as [Heq|Hne].
    + subst id'. rewrite lookup_insert_eq in Ht'. by simplify_eq.
    + by rewrite lookup_insert_ne in Ht'.
  - by apply no_retry_pong_deadline, no_retry_clearTimer.
  - by apply no_retry_wait_timeout, no_retry_clearTimer.
Qed.

End Callbacks.

(** Once quiescent, no event but an operator's request to open brings
    a reconnection. *)
Lemma step_no_retry e w w' :
  quiescent w → operator_open e = false →
  step e w = Some w' → no_retry w w'.
Proof.
  intros (Q1 & Q2 & Q3) Hop Hstep.
  pose proof (no_retry_refl w) as Hrefl.
  destruct e; try discriminate Hop; cbn [step] in Hstep.
  - simplify_eq. by apply no_retry_disconnect.
  - simplify_eq. by apply no_retry_send.
  - simplify_eq. by apply no_retry_on.
  - simplify_eq. by apply no_retry_once.
  - simplify_eq. by apply no_retry_off.
  - simplify_eq. by apply no_retry_waitForConnection.
  - destruct (sockets w !! sid) as [s|] eqn:Hs; [|done].
    destruct (readyState s) eqn:Hr; try done. by destruct (Q3 _ _ Hs).
  - destruct (sockets w !! sid) as [s|] eqn:Hs; [|done].
    assert (no_retry w (update_socket sid (with_readyState CLOSED) w)) as H0
      by (by apply no_retry_update_socket).
    assert (∀ x, Some (if handlers s
                       then onclose reason rnd
                              (update_socket sid (with_readyState CLOSED) w)
                       else update_socket sid (with_readyState CLOSED) w)
                 = Some x → no_retry w x) as Hx.
    { intros x [= <-]. destruct (handlers s); [|done].
      apply no_retry_onclose; [|done].
      destruct H0 as (E1 & E2 & _). by rewrite E1, E2. }
    destruct (readyState s); try done;
      destruct (valid_random rnd); try done; by apply Hx.
  - destruct (sockets w !! sid) as [s|] eqn:Hs; [|done].
    assert (∀ x, Some (if handlers s then onerror w else w) = Some x →
                 no_retry w x) as Hx.
    { intros x [= <-]. destruct (handlers s); [|done].
      by apply no_retry_onerror. }
    destruct (readyState s); try done; by apply Hx.
  - destruct (sockets w !! sid) as [s|] eqn:Hs; [|done].
    destruct (readyState s); try done. simplify_eq.
    destruct (handlers s); [|done]. by apply no_retry_onmessage.
  - destruct (timers w !! id) as [t|] eqn:Ht; [|done].
    destruct (Qle_bool _ _); [|done]. simplify_eq.
    apply no_retry_fire_timer; [by eapply Q2 | done].
  - destruct (0 <=? ms)%Z; [|done]. simplify_eq.
    by apply no_retry_set_now.
Qed.

Lemma run_no_retry es : ∀ w w',
  quiescent w → forallb (λ e, negb (operator_open e)) es = true →
  run es w = Some w' → no_retry w w'.
Proof.
  induction es as [|e es IH]; intros w w' HQ Hes Hrun; simpl in *.
  - simplify_eq. apply no_retry_refl.
  - apply andb_true_iff in Hes as [He Hes].
    apply negb_true_iff in He.
    destruct (step e w) as [w1|] eqn:Hstep; [|done].
    pose proof (step_no_retry _ _ _ HQ He Hstep) as H1.
    eapply no_retry_trans; [exact H1|].
    apply IH; [by eapply no_retry_quiescent | done | done].
Qed.

End Ceiling.

Lemma emit_keeps_ext c id event data w :
  Ext id ∈ chan c w → Ext id ∈ chan c (emit event data w).
Proof.
  intros Hin. unfold emit.
  set (w1 := match listeners_get event w with
             | Some s => forEach_invoke s data w
             | None => w
             end).
  assert (Ext id ∈ chan c w1) as Hin1.
  { unfold w1. destruct (listeners_get event w);
      [by apply forEach_invoke_keeps_ext | done]. }
  clearbody w1.
  destruct (listeners w1 !! "*"); [by apply forEach_invoke_keeps_ext | done].
Qed.

(** The close callback when the counter stands at the ceiling. *)
Lemma onclose_at_ceiling reason rnd v :
  maxReconnectAttempts (cfg v) ≤ reconnectAttempts v →
  manualClose v = false →
  state (onclose reason rnd v) = disconnected
  ∧ reconnectAttempts (onclose reason rnd v) = reconnectAttempts v
  ∧ lastDisconnectedAt (onclose reason rnd v) = Some (now v)
  ∧ (∀ id, Ext id ∈ chan "connection" v →
           (id, status "failed") ∈ calls (onclose reason rnd v)).
Proof.
  intros Hc Hm. unfold onclose. cbv zeta.
  set (x0 := set_lastDisconnectedAt _ (clearHeartbeat (set_state disconnected v))).
  assert (F0 : cfg x0 = cfg v ∧ reconnectAttempts x0 = reconnectAttempts v
               ∧ manualClose x0 = manualClose v ∧ state x0 = disconnected
               ∧ lastDisconnectedAt x0 = Some (now v)
               ∧ listeners x0 = listeners v).
  { unfold x0, clearHeartbeat, clear_if_set, clearTimer.
    destruct (heartbeatTimer v) eqn:Hh, (pongTimeout v) eqn:Hp;
      repeat (simpl; rewrite ?Hh, ?Hp); by repeat split. }
  destruct F0 as (A1&A2&A3&A4&A5&A6). clearbody x0.
  pose proof (emit_dispatched (JStr "connection")
    (JObj [("status", JStr "disconnected"); ("reason", JStr reason)]) x0) as HD.
  assert (K : ∀ id, Ext id ∈ chan "connection" x0 →
            Ext id ∈ chan "connection"
              (emit (JStr "connection")
                 (JObj [("status", JStr "disconnected");
                        ("reason", JStr reason)]) x0))
    by (intros id; apply emit_keeps_ext).
  set (x := emit _ _ x0) in *. clearbody x.
  destruct (dispatched_fields _ _ HD)
    as (D1&_&_&D4&D5&_&_&_&D9&_&D11&_).
  rewrite D5, A3, Hm. unfold handleReconnect.
  destruct (Nat.leb_spec (maxReconnectAttempts (cfg x)) (reconnectAttempts x))
    as [_|Hlt]; [|rewrite D1, D4, A1, A2 in Hlt; lia].
  pose proof (emit_dispatched (JStr "connection") (status "failed") x) as HD'.
  destruct (dispatched_fields _ _ HD')
    as (_&_&_&E4&_&_&_&_&E9&_&E11&_).
  rewrite E4, E9, E11, D4, D9, D11, A2, A4, A5.
  repeat split; try done.
  intros id Hin. apply emit_calls_channel, K.
  unfold chan. rewrite A6. exact Hin.
Qed.

(** * An empty registry calls nobody *)

Section Silent.

(** The world whose call log is the reference. *)
Variable w0 : World.

Lemma silent_same w w' :
  listeners w' = listeners w → calls w' = calls w →
  silent w0 w → silent w0 w'.
Proof. intros E1 E2 [H1 H2]. split; congruence. Qed.

Lemma silent_set_socket v w :
  silent w0 w → silent w0 (set_socket v w).
Proof. by apply silent_same. Qed.

Lemma silent_set_reconnectAttempts v w :
  silent w0 w → silent w0 (set_reconnectAttempts v w).
Proof. by apply silent_same. Qed.

Lemma silent_set_manualClose v w :
  silent w0 w → silent w0 (set_manualClose v w).
Proof. by apply silent_same. Qed.

Lemma silent_set_heartbeatTimer v w :
  silent w0 w → silent w0 (set_heartbeatTimer v w).
Proof. by apply silent_same. Qed.

Lemma silent_set_pongTimeout v w :
  silent w0 w → silent w0 (set_pongTimeout v w).
Proof. by apply silent_same. Qed.

Lemma silent_set_messageQueue v w :
  silent w0 w → silent w0 (set_messageQueue v w).
Proof. by apply silent_same. Qed.

Lemma silent_set_state v w :
  silent w0 w → silent w0 (set_state v w).
Proof. by apply silent_same. Qed.

Lemma silent_set_lastConnectedAt v w :
  silent w0 w → silent w0 (set_lastConnectedAt v w).
Proof. by apply silent_same. Qed.

Lemma silent_set_lastDisconnectedAt v w :
  silent w0 w → silent w0 (set_lastDisconnectedAt v w).
Proof. by apply silent_same. Qed.

Lemma silent_set_sockets v w :
  silent w0 w → silent w0 (set_sockets v w).
Proof. by apply silent_same. Qed.

Lemma silent_set_timers v w :
  silent w0 w → silent w0 (set_timers v w).
Proof. by apply silent_same. Qed.

Lemma silent_set_nextTimer v w :
  silent w0 w → silent w0 (set_nextTimer v w).
Proof. by apply silent_same. Qed.

Lemma silent_set_promises v w :
  silent w0 w → silent w0 (set_promises v w).
Proof. by apply silent_same. Qed.

Lemma silent_set_nextPromise v w :
  silent w0 w → silent w0 (set_nextPromise v w).
Proof. by apply silent_same. Qed.

Lemma silent_set_nextWrapper v w :
  silent w0 w → silent w0 (set_nextWrapper v w).
Proof. by apply silent_same. Qed.

Lemma silent_set_now v w :
  silent w0 w → silent w0 (set_now v w).
Proof. by apply silent_same. Qed.

Lemma silent_set_listeners_empty w :
  silent w0 w → silent w0 (set_listeners ∅ w).
Proof. intros [H1 H2]. by split. Qed.

Lemma silent_emit event data w :
  silent w0 w → silent w0 (emit event data w).
Proof. intros H. rewrite emit_no_listeners; [done | apply H]. Qed.

Lemma silent_off event cb w : silent w0 w → silent w0 (off event cb w).
Proof.
  intros H. unfold off. destruct H as [H1 H2].
  rewrite H1, lookup_empty. by split.
Qed.

Lemma silent_resolve p v w : silent w0 w → silent w0 (resolve p v w).
Proof.
  intros H. unfold resolve. destruct (promises w !! p); [done|].
  by apply silent_set_promises.
Qed.

Lemma silent_clearTimer id w : silent w0 w → silent w0 (clearTimer id w).
Proof. apply silent_set_timers. Qed.

Lemma silent_clear_if_set t w : silent w0 w → silent w0 (clear_if_set t w).
Proof. destruct t; [apply silent_clearTimer | done]. Qed.

Lemma silent_setTimer a d w : silent w0 w → silent w0 (setTimer a d w).2.
Proof. intros H. unfold setTimer. by apply silent_same with w. Qed.

Lemma silent_update_socket sid f w :
  silent w0 w → silent w0 (update_socket sid f w).
Proof.
  intros H. unfold update_socket. destruct (sockets w !! sid); [|done].
  by apply silent_set_sockets.
Qed.

Lemma silent_socket_close sid w :
  silent w0 w → silent w0 (socket_close sid w).
Proof. apply silent_update_socket. Qed.

Lemma silent_new_WebSocket u w :
  silent w0 w → silent w0 (new_WebSocket u w).2.
Proof. intros H. unfold new_WebSocket. by apply silent_same with w. Qed.

Lemma silent_clearHeartbeat w :
  silent w0 w → silent w0 (clearHeartbeat w).
Proof.
  intros H. unfold clearHeartbeat. cbv zeta.
  apply silent_set_pongTimeout, silent_set_heartbeatTimer.
  by do 2 apply silent_clear_if_set.
Qed.

Lemma silent_send_all sid q : ∀ w,
  silent w0 w → silent w0 (world_of (send_all sid q w)).
Proof.
  induction q as [|m q IH]; intros w H; [done|].
  simpl. unfold socket_send.
  destruct (sockets w !! sid) as [s|] eqn:Hs; [|by apply IH].
  destruct (readyState s); simpl; try (by apply IH); [done|].
  by apply IH, silent_update_socket.
Qed.

Lemma new_WebSocket_eta u w :
  new_WebSocket u w = (length (sockets w), (new_WebSocket u w).2).
Proof. reflexivity. Qed.

End Silent.

(** Peels one operation off the world on the right of [silent]. *)
Ltac silent_step :=
  lazymatch goal with
  | H : silent ?a ?b |- silent ?a ?b => exact H
  | |- silent _ (set_socket _ _) => apply silent_set_socket
  | |- silent _ (set_reconnectAttempts _ _) => apply silent_set_reconnectAttempts
  | |- silent _ (set_manualClose _ _) => apply silent_set_manualClose
  | |- silent _ (set_heartbeatTimer _ _) => apply silent_set_heartbeatTimer
  | |- silent _ (set_pongTimeout _ _) => apply silent_set_pongTimeout
  | |- silent _ (set_messageQueue _ _) => apply silent_set_messageQueue
  | |- silent _ (set_state _ _) => apply silent_set_state
  | |- silent _ (set_lastConnectedAt _ _) => apply silent_set_lastConnectedAt
  | |- silent _ (set_lastDisconnectedAt _ _) => apply silent_set_lastDisconnectedAt
  | |- silent _ (set_sockets _ _) => apply silent_set_sockets
  | |- silent _ (set_timers _ _) => apply silent_set_timers
  | |- silent _ (set_nextTimer _ _) => apply silent_set_nextTimer
  | |- silent _ (set_promises _ _) => apply silent_set_promises
  | |- silent _ (set_nextPromise _ _) => apply silent_set_nextPromise
  | |- silent _ (set_nextWrapper _ _) => apply silent_set_nextWrapper
  | |- silent _ (set_now _ _) => apply silent_set_now
  | |- silent _ (set_listeners ∅ _) => apply silent_set_listeners_empty
  | |- silent _ (clearHeartbeat _) => apply silent_clearHeartbeat
  | |- silent _ (clearTimer _ _) => apply silent_clearTimer
  | |- silent _ (clear_if_set _ _) => apply silent_clear_if_set
  | |- silent _ (emit _ _ _) => apply silent_emit
  | |- silent _ (off _ _ _) => apply silent_off
  | |- silent _ (resolve _ _ _) => apply silent_resolve
  | |- silent _ (socket_close _ _) => apply silent_socket_close
  | |- silent _ (update_socket _ _ _) => apply silent_update_socket
  | |- silent _ (world_of (send_all _ _ _)) => apply silent_send_all
  | |- silent ?w0 (snd (?a, ?b)) => change (silent w0 b)
  | |- silent _ (snd (setTimer _ _ _)) => apply silent_setTimer
  | |- silent _ (snd (new_WebSocket _ _)) => apply silent_new_WebSocket
  | |- context [match setTimer ?a ?d ?x with _ => _ end] =>
      rewrite (setTimer_eta a d x)
  | |- context [match new_WebSocket ?u ?x with _ => _ end] =>
      rewrite (new_WebSocket_eta u x)
  | |- _ => case_innermost
  end.

Ltac silent_chain :=
  repeat (cbv beta iota zeta delta [bind try_catch socket_send];
          try change (world_of (Returned ?x)) with x;
          try change (world_of (Thrown ?e ?x)) with x;
          silent_step).

Section SilentSteps.

(** The world whose call log is the reference. *)
Variable w0 : World.

Lemma silent_startHeartbeat w : silent w0 w → silent w0 (startHeartbeat w).
Proof. intros H. unfold startHeartbeat. silent_chain. Qed.

Lemma silent_flushQueue w :
  silent w0 w → silent w0 (world_of (flushQueue w)).
Proof.
  intros H. unfold flushQueue.
  destruct (length (messageQueue w) =? 0); [done|].
  destruct (socket_is_open w); [|done].
  destruct (socket w) as [sid|]; [|done].
  pose proof (silent_send_all w0 sid (messageQueue w) w H) as Hall.
  unfold bind. destruct (send_all sid (messageQueue w) w); simpl in *;
    [by apply silent_set_messageQueue | done].
Qed.

Lemma silent_onopen w : silent w0 w → silent w0 (world_of (onopen w)).
Proof.
  intros H. unfold onopen. cbv zeta.
  apply silent_flushQueue, silent_startHeartbeat. silent_chain.
Qed.

Lemma silent_handleReconnect rnd w :
  silent w0 w → silent w0 (handleReconnect rnd w).
Proof. intros H. unfold handleReconnect. silent_chain. Qed.

Lemma silent_onclose reason rnd w :
  silent w0 w → silent w0 (onclose reason rnd w).
Proof.
  intros H. unfold onclose. cbv zeta.
  set (x := emit _ _ _).
  assert (silent w0 x) as Hx by (unfold x; silent_chain).
  clearbody x. destruct (manualClose x); [done|].
  by apply silent_handleReconnect.
Qed.

Lemma silent_onerror w : silent w0 w → silent w0 (onerror w).
Proof. intros H. unfold onerror. silent_chain. Qed.

Lemma silent_onmessage data w :
  silent w0 w → silent w0 (onmessage data w).
Proof.
  intros H. unfold onmessage.
  destruct data as [raw|msg]; [done|]. destruct msg; silent_chain.
Qed.

Lemma silent_send event data w :
  silent w0 w → silent w0 (world_of (send event data w)).
Proof. intros H. unfold send. silent_chain. Qed.

Lemma silent_connect w : silent w0 w → silent w0 (connect w).
Proof.
  intros H. unfold connect, setupEventHandlers. silent_chain.
Qed.

Lemma silent_disconnect w : calls w = calls w0 → silent w0 (disconnect w).
Proof.
  intros H. destruct (disconnect_fields w) as (_&_&_&F4&_&_&_&_&F9&_).
  split; [exact F4 | by rewrite F9].
Qed.

Lemma silent_heartbeat_tick w :
  silent w0 w → silent w0 (heartbeat_tick w).
Proof. intros H. unfold heartbeat_tick. silent_chain. Qed.

Lemma silent_pong_deadline w :
  silent w0 w → silent w0 (pong_deadline w).
Proof. intros H. unfold pong_deadline. silent_chain. Qed.

Lemma silent_wait_timeout p id w :
  silent w0 w → silent w0 (wait_timeout p id w).
Proof. intros H. unfold wait_timeout. silent_chain. Qed.

Lemma silent_fire_timer id t w :
  silent w0 w → silent w0 (fire_timer id t w).
Proof.
  intros H. unfold fire_timer. destruct (action t).
  - by apply silent_connect, silent_clearTimer.
  - by apply silent_heartbeat_tick, silent_set_timers.
  - by apply silent_pong_deadline, silent_clearTimer.
  - by apply silent_wait_timeout, silent_clearTimer.
Qed.

(** With an empty registry, a step that registers nobody calls nobody. *)
Lemma step_silent e w w' :
  silent w0 w → registers e = false →
  step e w = Some w' → silent w0 w'.
Proof.
  intros H Hreg Hstep.
  destruct e; try discriminate Hreg; cbn [step] in Hstep.
  - simplify_eq. by apply silent_connect.
  - simplify_eq. apply silent_disconnect, H.
  - simplify_eq. apply silent_connect, silent_disconnect, H.
  - simplify_eq. by apply silent_send.
  - simplify_eq. by apply silent_off.
  - destruct (sockets w !! sid) as [s|] eqn:Hs; [|done].
    destruct (readyState s); try done. simplify_eq.
    destruct (handlers s).
    + by apply silent_onopen, silent_update_socket.
    + by apply silent_update_socket.
  - destruct (sockets w !! sid) as [s|] eqn:Hs; [|done].
    assert (∀ x, Some (if handlers s
                       then onclose reason rnd
                              (update_socket sid (with_readyState CLOSED) w)
                       else update_socket sid (with_readyState CLOSED) w)
                 = Some x → silent w0 x) as Hx.
    { intros x [= <-]. destruct (handlers s).
      - by apply silent_onclose, silent_update_socket.
      - by apply silent_update_socket. }
    destruct (readyState s); try done;
      destruct (valid_random rnd); try done; by apply Hx.
  - destruct (sockets w !! sid) as [s|] eqn:Hs; [|done].
    assert (∀ x, Some (if handlers s then onerror w else w) = Some x →
                 silent w0 x) as Hx.
    { intros x [= <-]. destruct (handlers s); [|done].
      by apply silent_onerror. }
    destruct (readyState s); try done; by apply Hx.
  - destruct (sockets w !! sid) as [s|] eqn:Hs; [|done].
    destruct (readyState s); try done. simplify_eq.
    destruct (handlers s); [|done]. by apply silent_onmessage.
  - destruct (timers w !! id) as [t|] eqn:Ht; [|done].
    destruct (Qle_bool _ _); [|done]. simplify_eq.
    by apply silent_fire_timer.
  - destruct (0 <=? ms)%Z; [|done]. simplify_eq.
    by apply silent_set_now.
Qed.

Lemma run_silent es : ∀ w w',
  silent w0 w → forallb (λ e, negb (registers e)) es = true →
  run es w = Some w' → silent w0 w'.
Proof.
  induction es as [|e es IH]; intros w w' H Hes Hrun; simpl in *.
  - by simplify_eq.
  - apply andb_true_iff in Hes as [He Hes].
    apply negb_true_iff in He.
    destruct (step e w) as [w1|] eqn:Hstep; [|done].
    eapply IH; [|done|done]. by eapply step_silent.
Qed.

End SilentSteps.

(** The flush changes nothing but sockets and queue. *)
Lemma send_all_frame sid q : ∀ w,
  ∃ S, world_of (send_all sid q w) = set_sockets S w.
Proof.
  induction q as [|m q IH]; intros w; simpl.
  - exists (sockets w). by destruct w.
  - unfold socket_send. destruct (sockets w !! sid) as [s|]; [|apply IH].
    destruct (readyState s); simpl; try apply IH.
    + exists (sockets w). by destruct w.
    + unfold update_socket. destruct (sockets w !! sid) as [s'|]; [|apply IH].
      match goal with
      | |- context [send_all sid q ?x] => destruct (IH x) as [S HS]
      end.
      exists S. by rewrite HS.
Qed.

Lemma flushQueue_frame w :
  ∃ S Q, world_of (flushQueue w) = set_messageQueue Q (set_sockets S w).
Proof.
  assert (∃ S Q, w = set_messageQueue Q (set_sockets S w)) as Hid
    by (exists (sockets w), (messageQueue w); by destruct w).
  unfold flushQueue.
  destruct (length (messageQueue w) =? 0); [done|].
  destruct (socket_is_open w); [|done].
  destruct (socket w) as [sid|]; [|done].
  destruct (send_all_frame sid (messageQueue w) w) as [S HS].
  unfold bind. destruct (send_all sid (messageQueue w) w) as [w1|e w1];
    simpl in *; subst w1.
  - by exists S, [].
  - exists S, (messageQueue w). by destruct w.
Qed.

Lemma onopen_state w : state (world_of (onopen w)) = connected.
Proof.
  rewrite onopen_opened.
  destruct (opened_fields w) as (_&_&_&_&_&O6&_).
  generalize dependent (opened w). intros x O6.
  by destruct (flushQueue_frame x) as (S & Q & ->).
Qed.

(** With no open socket at hand, connect constructs one. *)
Lemma connect_constructs w :
  socket_is_open w = false →
  sockets (connect w)
  = sockets w ++ [mkSocket (connection_url (platform w)) CONNECTING true []]
  ∧ socket (connect w) = Some (length (sockets w))
  ∧ state (connect w) = connecting
  ∧ manualClose (connect w) = false.
Proof.
  intros Ho. unfold connect. rewrite Ho.
  unfold setupEventHandlers, new_WebSocket, update_socket. simpl.
  rewrite lookup_app_r, Nat.sub_diag by done. simpl.
  split; [|done].
  rewrite insert_app_r_alt, Nat.sub_diag by done. reflexivity.
Qed.

(** * Waiting for a connection *)

Section Waiting.


Lemma filter_all {A} (P : A → Prop) `{!∀ x, Decision (P x)} (l : list A) :
  (∀ x, x ∈ l → P x) → filter P l = l.
Proof.
  induction l as [|a l IH]; intros HP; [done|].
  rewrite filter_cons_True by (apply HP; by left).
  f_equal. apply IH. intros x Hx. apply HP. by right.
Qed.

Lemma invoke_wait_handler p timer data w :
  invoke (WaitHandler p timer) data w
  = if connected_status data
    then resolve p true
           (off "connection" (WaitHandler p timer) (clearTimer timer w))
    else w.
Proof. reflexivity. Qed.



Lemma emit_two_phases event data w :
  emit (JStr event) data w
  = let w1 := forEach_invoke (chan event w) data w in
    forEach_invoke (chan "*" w1)
      (JObj [("event", JStr event); ("data", data)]) w1.
Proof.
  unfold emit, listeners_get, chan. cbv zeta.
  destruct (listeners w !! event) as [s|]; simpl.
  - by destruct (listeners (forEach_invoke s data w) !! "*").
  - by destruct (listeners w !! "*").
Qed.







End Waiting.

Section WaitForConnection.



Lemma waitForConnection_connected timeoutMs w :
  isConnected w = true →
  waitForConnection timeoutMs w
  = (nextPromise w,
     resolve (nextPromise w) true (set_nextPromise (S (nextPromise w)) w)).
Proof.
  intros Hc. unfold waitForConnection. cbv zeta.
  change (isConnected (set_nextPromise (S (nextPromise w)) w))
    with (isConnected w).
  by rewrite Hc.
Qed.

Lemma waitForConnection_pending timeoutMs w :
  isConnected w = false →
  waitForConnection timeoutMs w
  = (nextPromise w,
     on "connection" (WaitHandler (nextPromise w) (nextTimer w))
       (setTimer (TWait (nextPromise w)) timeoutMs
          (set_nextPromise (S (nextPromise w)) w)).2).
Proof.
  intros Hc. unfold waitForConnection. cbv zeta.
  change (isConnected (set_nextPromise (S (nextPromise w)) w))
    with (isConnected w).
  by rewrite Hc.
Qed.




End WaitForConnection.





(** * Fresh identities *)

Section Fresh.

































End Fresh.



Section FreshSteps.




















End FreshSteps.

(** * What the service keeps true of itself *)

Ltac wf_split := split; [|split; [|split; [|split; [|split; [|split]]]]].

Section WellFormed.

Lemma wf_same c w w' :
  cfg w' = cfg w → reconnectAttempts w' = reconnectAttempts w →
  messageQueue w' = messageQueue w → timers w' = timers w →
  heartbeatTimer w' = heartbeatTimer w → pongTimeout w' = pongTimeout w →
  listeners w' = listeners w →
  well_formed c w → well_formed c w'.
Proof.
  intros E1 E2 E3 E4 E5 E6 E7 H. unfold well_formed.
  by rewrite E1, E2, E3, E4, E5, E6, E7.
Qed.

Lemma wf_set_socket c v w : well_formed c w → well_formed c (set_socket v w).
Proof. by apply wf_same. Qed.

Lemma wf_set_manualClose c v w : well_formed c w → well_formed c (set_manualClose v w).
Proof. by apply wf_same. Qed.

Lemma wf_set_state c v w : well_formed c w → well_formed c (set_state v w).
Proof. by apply wf_same. Qed.

Lemma wf_set_lastConnectedAt c v w : well_formed c w → well_formed c (set_lastConnectedAt v w).
Proof. by apply wf_same. Qed.

Lemma wf_set_lastDisconnectedAt c v w : well_formed c w → well_formed c (set_lastDisconnectedAt v w).
Proof. by apply wf_same. Qed.

Lemma wf_set_sockets c v w : well_formed c w → well_formed c (set_sockets v w).
Proof. by apply wf_same. Qed.

Lemma wf_set_nextTimer c v w : well_formed c w → well_formed c (set_nextTimer v w).
Proof. by apply wf_same. Qed.

Lemma wf_set_promises c v w : well_formed c w → well_formed c (set_promises v w).
Proof. by apply wf_same. Qed.

Lemma wf_set_nextPromise c v w : well_formed c w → well_formed c (set_nextPromise v w).
Proof. by apply wf_same. Qed.

Lemma wf_set_nextWrapper c v w : well_formed c w → well_formed c (set_nextWrapper v w).
Proof. by apply wf_same. Qed.

Lemma wf_set_calls c v w : well_formed c w → well_formed c (set_calls v w).
Proof. by apply wf_same. Qed.

Lemma wf_set_now c v w : well_formed c w → well_formed c (set_now v w).
Proof. by apply wf_same. Qed.


Lemma valid_random_bounds rnd :
  valid_random rnd = true → (0 <= rnd)%Q ∧ (rnd < 1)%Q.
Proof.
  unfold valid_random. intros H. apply andb_true_iff in H as [H1 H2].
  apply Qle_bool_iff in H1. split; [done|].
  apply negb_true_iff in H2. apply Qnot_le_lt. intros Hle.
  apply Qle_bool_iff in Hle. congruence.
Qed.

(** The delay of the [n]-th retry in a row lies within the bounds of the
    backoff. *)
Lemma reconnect_delay_bounds (c : Config) (n : nat) (rnd : Q) :
  valid_random rnd = true →
  1 ≤ n → n ≤ maxReconnectAttempts c →
  (0 <= baseReconnectDelay c)%Q →
  (b64 (b64 (baseReconnectDelay c) + 300)
   <= reconnect_delay (baseReconnectDelay c) n rnd)%Q
  ∧ (reconnect_delay (baseReconnectDelay c) n rnd <= retry_delay_bound c)%Q.
Proof.
  intros Hv H1 Hn Hb. destruct (valid_random_bounds rnd Hv) as [R0 R1].
  destruct (reconnect_jitter_bounds rnd R0 R1) as [J1 J2].
  unfold reconnect_delay, retry_delay_bound. cbv zeta.
  pose proof (backoff_product_mono (baseReconnectDelay c) 1 n Hb H1) as L.
  pose proof (backoff_product_mono (baseReconnectDelay c) n _ Hb Hn) as U.
  assert (b64 (baseReconnectDelay c * Qpower 2 (Z.of_nat 1 - 1))
          == b64 (baseReconnectDelay c))%Q as E.
  { apply b64_comp. change (Qpower 2 (Z.of_nat 1 - 1)) with 1%Q. ring. }
  rewrite E in L.
  pose proof (b64_nonneg _ Hb) as N.
  set (A := b64 (baseReconnectDelay c)) in *.
  set (P := b64 (baseReconnectDelay c * Qpower 2 (Z.of_nat n - 1))) in *.
  set (M := b64 (baseReconnectDelay c
                 * Qpower 2 (Z.of_nat (maxReconnectAttempts c) - 1))) in *.
  set (j := reconnect_jitter rnd) in *.
  clearbody A P M j.
  split; apply b64_mono; lra.
Qed.

Lemma wf_set_listeners_empty c w :
  well_formed c w → well_formed c (set_listeners ∅ w).
Proof.
  intros (W0&W1&W2&W3&W4&W5&W6). wf_split; done.
Qed.

(** Taking timers away breaks nothing. *)
Lemma wf_fewer_timers c T w :
  T ⊆ timers w → well_formed c w → well_formed c (set_timers T w).
Proof.
  intros HT (W0&W1&W2&W3&W4&W5&W6). wf_split; try done; simpl.
  - intros id t Ht. apply (W3 id t). by eapply lookup_weaken.
  - intros id t Ht. apply (W4 id t). by eapply lookup_weaken.
  - intros id t Ht. apply (W6 id t). by eapply lookup_weaken.
Qed.

Lemma wf_clearTimer c id w : well_formed c w → well_formed c (clearTimer id w).
Proof. apply wf_fewer_timers, delete_subseteq. Qed.

Lemma wf_clear_if_set c t w : well_formed c w → well_formed c (clear_if_set t w).
Proof. destruct t; [apply wf_clearTimer | done]. Qed.

(** Adding a timer that is neither of the heartbeat nor a retry. *)
Lemma wf_insert_wait_timer c id t p w :
  action t = TWait p →
  well_formed c w → well_formed c (set_timers (<[id := t]> (timers w)) w).
Proof.
  intros Ha (W0&W1&W2&W3&W4&W5&W6).
  wf_split; try done; simpl; intros id' t' Hl Ha';
    (destruct (decide (id = id')) as [Heq|Hne];
     [subst id'; rewrite lookup_insert_eq in Hl; simplify_eq; congruence
     |rewrite lookup_insert_ne in Hl by done]).
  - by apply (W3 id' t').
  - by apply (W4 id' t').
  - by apply (W6 id' t').
Qed.

Lemma wf_setTimer_wait c p d w :
  well_formed c w → well_formed c (setTimer (TWait p) d w).2.
Proof.
  intros H. unfold setTimer. cbn [snd]. apply wf_set_nextTimer.
  by apply (wf_insert_wait_timer _ _ _ p).
Qed.

Lemma wf_resolve c p v w : well_formed c w → well_formed c (resolve p v w).
Proof.
  intros H. unfold resolve. destruct (promises w !! p); [done|].
  by apply wf_set_promises.
Qed.

Lemma set_add_not_nil cb s : set_add cb s ≠ [].
Proof.
  unfold set_add. case_decide as Hin.
  - intros ->. by apply elem_of_nil in Hin.
  - by destruct s.
Qed.

Lemma wf_on c event cb w : well_formed c w → well_formed c (on event cb w).
Proof.
  intros (W0&W1&W2&W3&W4&W5&W6). wf_split; try done.
  intros ch s Hl. unfold on in Hl. simpl in Hl.
  destruct (decide (ch = event)) as [->|Hne].
  - rewrite lookup_insert_eq in Hl. simplify_eq. apply set_add_not_nil.
  - rewrite lookup_insert_ne in Hl by done.
    destruct (listeners w !! event);
      [|rewrite lookup_insert_ne in Hl by done]; by apply (W5 ch s).
Qed.

Lemma wf_off c event cb w : well_formed c w → well_formed c (off event cb w).
Proof.
  intros H. unfold off. destruct (listeners w !! event) as [s0|] eqn:He; [|done].
  destruct H as (W0&W1&W2&W3&W4&W5&W6).
  destruct (length (set_delete cb s0) =? 0) eqn:Hl.
  - wf_split; try done.
    intros ch s Hc. simpl in Hc.
    destruct (decide (ch = event)) as [->|Hne].
    + by rewrite lookup_delete_eq in Hc.
    + rewrite lookup_delete_ne in Hc by done. by apply (W5 ch s).
  - wf_split; try done.
    intros ch s Hc. simpl in Hc.
    destruct (decide (ch = event)) as [->|Hne].
    + rewrite lookup_insert_eq in Hc. simplify_eq.
      intros Hnil. rewrite Hnil in Hl. discriminate Hl.
    + rewrite lookup_insert_ne in Hc by done. by apply (W5 ch s).
Qed.

Lemma wf_update_socket c sid f w :
  well_formed c w → well_formed c (update_socket sid f w).
Proof.
  intros H. unfold update_socket. destruct (sockets w !! sid); [|done].
  by apply wf_set_sockets.
Qed.

Lemma wf_new_WebSocket c u w : well_formed c w → well_formed c (new_WebSocket u w).2.
Proof. intros H. unfold new_WebSocket. by apply wf_same with w. Qed.

Lemma wf_invoke c l data w : well_formed c w → well_formed c (invoke l data w).
Proof.
  intros H. destruct l as [id | event wid cb | p timer].
  - by apply wf_set_calls.
  - by apply wf_set_calls, wf_off.
  - rewrite invoke_wait_handler. destruct (connected_status data); [|done].
    by apply wf_resolve, wf_off, wf_clearTimer.
Qed.

Lemma wf_forEach_invoke c s data : ∀ w,
  well_formed c w → well_formed c (forEach_invoke s data w).
Proof.
  induction s as [|l s IH]; intros w H; [done|].
  simpl. by apply IH, wf_invoke.
Qed.

Lemma wf_emit c event data w : well_formed c w → well_formed c (emit event data w).
Proof.
  intros H. unfold emit.
  set (w1 := match listeners_get event w with
             | Some s => forEach_invoke s data w
             | None => w
             end).
  assert (well_formed c w1) as H1
    by (unfold w1; destruct (listeners_get event w);
        [by apply wf_forEach_invoke | done]).
  clearbody w1.
  destruct (listeners w1 !! "*"); [by apply wf_forEach_invoke | done].
Qed.

(** After [clearHeartbeat] no timer of the heartbeat is left. *)
Lemma wf_clearHeartbeat c w :
  well_formed c w →
  well_formed c (clearHeartbeat w)
  ∧ (∀ id t, timers (clearHeartbeat w) !! id = Some t →
             action t ≠ THeartbeat ∧ action t ≠ TPong).
Proof.
  intros (W0&W1&W2&W3&W4&W5&W6).
  destruct (clearHeartbeat_fields w) as (C1&C2&C3&C4&C5).
  assert (Hsub : ∀ id t, timers (clearHeartbeat w) !! id = Some t →
                         timers w !! id = Some t).
  { intros id t Ht.
    destruct (decide (heartbeatTimer w = Some id)) as [Hh|Hh];
      [rewrite (C3 id Hh) in Ht; done|].
    destruct (decide (pongTimeout w = Some id)) as [Hp|Hp];
      [rewrite (C4 id Hp) in Ht; done|].
    by rewrite (C5 id Hh Hp) in Ht. }
  assert (Hnone : ∀ id t, timers (clearHeartbeat w) !! id = Some t →
                          action t ≠ THeartbeat ∧ action t ≠ TPong).
  { intros id t Ht. pose proof (Hsub id t Ht) as Ht0. split; intros Ha.
    - rewrite (C3 id (W3 id t Ht0 Ha)) in Ht. done.
    - rewrite (C4 id (W4 id t Ht0 Ha)) in Ht. done. }
  split; [|exact Hnone].
  assert (E : cfg (clearHeartbeat w) = cfg w
              ∧ reconnectAttempts (clearHeartbeat w) = reconnectAttempts w
              ∧ messageQueue (clearHeartbeat w) = messageQueue w
              ∧ listeners (clearHeartbeat w) = listeners w).
  { unfold clearHeartbeat, clear_if_set, clearTimer.
    destruct (heartbeatTimer w) eqn:Hh, (pongTimeout w) eqn:Hp;
      repeat (simpl; rewrite ?Hh, ?Hp); by repeat split. }
  destruct E as (E1&E2&E3&E4). unfold well_formed.
  rewrite E1, E2, E3, E4, C1, C2.
  split; [done|]. split; [done|]. split; [done|].
  split; [intros id t Ht Ha; by destruct (Hnone id t Ht)|].
  split; [intros id t Ht Ha; by destruct (Hnone id t Ht)|].
  split; [done|].
  intros id t Ht. apply (W6 id t). by apply Hsub.
Qed.

End WellFormed.

(** Peels one operation off the world of [well_formed]. *)
Ltac wf_step :=
  lazymatch goal with
  | H : well_formed ?c ?a |- well_formed ?c ?a => exact H
  | |- well_formed _ (set_socket _ _) => apply wf_set_socket
  | |- well_formed _ (set_manualClose _ _) => apply wf_set_manualClose
  | |- well_formed _ (set_state _ _) => apply wf_set_state
  | |- well_formed _ (set_lastConnectedAt _ _) => apply wf_set_lastConnectedAt
  | |- well_formed _ (set_lastDisconnectedAt _ _) => apply wf_set_lastDisconnectedAt
  | |- well_formed _ (set_sockets _ _) => apply wf_set_sockets
  | |- well_formed _ (set_nextTimer _ _) => apply wf_set_nextTimer
  | |- well_formed _ (set_promises _ _) => apply wf_set_promises
  | |- well_formed _ (set_nextPromise _ _) => apply wf_set_nextPromise
  | |- well_formed _ (set_nextWrapper _ _) => apply wf_set_nextWrapper
  | |- well_formed _ (set_calls _ _) => apply wf_set_calls
  | |- well_formed _ (set_now _ _) => apply wf_set_now
  | |- well_formed _ (set_listeners ∅ _) => apply wf_set_listeners_empty
  | |- well_formed _ (clearHeartbeat _) => apply wf_clearHeartbeat
  | |- well_formed _ (clearTimer _ _) => apply wf_clearTimer
  | |- well_formed _ (clear_if_set _ _) => apply wf_clear_if_set
  | |- well_formed _ (emit _ _ _) => apply wf_emit
  | |- well_formed _ (off _ _ _) => apply wf_off
  | |- well_formed _ (on _ _ _) => apply wf_on
  | |- well_formed _ (socket_close _ _) => apply wf_update_socket
  | |- well_formed _ (update_socket _ _ _) => apply wf_update_socket
  | |- well_formed ?c (snd (?a, ?b)) => change (well_formed c b)
  | |- well_formed _ (snd (new_WebSocket _ _)) => apply wf_new_WebSocket
  | |- context [match new_WebSocket ?u ?x with _ => _ end] =>
      rewrite (new_WebSocket_eta u x)
  | |- _ => case_innermost
  end.

Ltac wf_chain :=
  repeat (cbv beta iota zeta delta [bind try_catch socket_send];
          try change (world_of (Returned ?x)) with x;
          try change (world_of (Thrown ?e ?x)) with x;
          wf_step).

Section WellFormedSteps.

(** A new heartbeat interval replaces the old one and its deadline. *)
Lemma wf_startHeartbeat c w : well_formed c w → well_formed c (startHeartbeat w).
Proof.
  intros H. unfold startHeartbeat. cbv zeta.
  destruct (wf_clearHeartbeat c w H) as [Hc Hn].
  generalize dependent (clearHeartbeat w). clear w H. intros x Hc Hn.
  rewrite setTimer_eta. unfold setTimer. cbn [snd].
  destruct Hc as (W0&W1&W2&W3&W4&W5&W6).
  wf_split; try done; simpl; intros id t Hl Ha;
    (destruct (decide (nextTimer x = id)) as [Heq|Hne];
     [subst id; rewrite lookup_insert_eq in Hl; simplify_eq; try done
     |rewrite lookup_insert_ne in Hl by done]).
  - by destruct (Hn id t Hl).
  - by destruct (Hn id t Hl).
  - by apply (W6 id t).
Qed.

(** A new pong deadline replaces the old one. *)
Lemma wf_arm_pong c d w :
  well_formed c w →
  well_formed c
    (set_pongTimeout (Some (nextTimer (clear_if_set (pongTimeout w) w)))
       (setTimer TPong d (clear_if_set (pongTimeout w) w)).2).
Proof.
  intros (W0&W1&W2&W3&W4&W5&W6).
  assert (Hy : ∀ id t,
    timers (clear_if_set (pongTimeout w) w) !! id = Some t →
    timers w !! id = Some t ∧ action t ≠ TPong).
  { intros id t Hl. unfold clear_if_set, clearTimer in Hl.
    destruct (pongTimeout w) as [p|] eqn:Hp; simpl in Hl.
    - destruct (decide (p = id)) as [->|Hne];
        [by rewrite lookup_delete_eq in Hl|].
      rewrite lookup_delete_ne in Hl by done. split; [done|].
      intros Ha. pose proof (W4 id t Hl Ha). congruence.
    - split; [done|]. intros Ha. pose proof (W4 id t Hl Ha). congruence. }
  assert (E : cfg (clear_if_set (pongTimeout w) w) = cfg w
              ∧ reconnectAttempts (clear_if_set (pongTimeout w) w)
                = reconnectAttempts w
              ∧ messageQueue (clear_if_set (pongTimeout w) w) = messageQueue w
              ∧ heartbeatTimer (clear_if_set (pongTimeout w) w)
                = heartbeatTimer w
              ∧ listeners (clear_if_set (pongTimeout w) w) = listeners w)
    by (unfold clear_if_set; destruct (pongTimeout w); by repeat split).
  destruct E as (E1&E2&E3&E4&E5).
  generalize dependent (clear_if_set (pongTimeout w) w). intros y Hy E1 E2 E3 E4 E5.
  unfold setTimer. cbn [snd]. unfold well_formed. simpl.
  rewrite E1, E2, E3, E4, E5.
  wf_split; try done; intros id t Hl Ha;
    (destruct (decide (nextTimer y = id)) as [Heq|Hne];
     [subst id; rewrite lookup_insert_eq in Hl; simplify_eq; try done
     |rewrite lookup_insert_ne in Hl by done;
      destruct (Hy id t Hl) as [Hw Hnp]]).
  - by apply (W3 id t).
  - done.
  - by apply (W6 id t).
Qed.

Lemma wf_heartbeat_tick c w : well_formed c w → well_formed c (heartbeat_tick w).
Proof.
  intros H. unfold heartbeat_tick.
  destruct (socket_is_open w); [|done].
  destruct (socket w) as [sid|]; [|done].
  unfold socket_send. destruct (sockets w !! sid) as [s|] eqn:Hs.
  - destruct (readyState s); cbv beta iota zeta delta [bind try_catch];
      try change (world_of (Thrown ?e ?x)) with x; try done.
    + rewrite setTimer_eta. change (world_of (Returned ?x)) with x.
      apply wf_arm_pong. by apply wf_update_socket.
    + rewrite setTimer_eta. change (world_of (Returned ?x)) with x.
      by apply wf_arm_pong.
    + rewrite setTimer_eta. change (world_of (Returned ?x)) with x.
      by apply wf_arm_pong.
  - cbv beta iota zeta delta [bind try_catch].
    rewrite setTimer_eta. change (world_of (Returned ?x)) with x.
    by apply wf_arm_pong.
Qed.

Lemma wf_pong_deadline c w : well_formed c w → well_formed c (pong_deadline w).
Proof. intros H. unfold pong_deadline. wf_chain. Qed.

Lemma wf_send_all c sid q w :
  well_formed c w → well_formed c (world_of (send_all sid q w)).
Proof.
  intros H. destruct (send_all_frame sid q w) as [S ->].
  by apply wf_set_sockets.
Qed.

(** Flushing never lengthens the queue. *)
Lemma wf_flushQueue c w :
  well_formed c w → well_formed c (world_of (flushQueue w)).
Proof.
  intros H. unfold flushQueue.
  destruct (length (messageQueue w) =? 0); [done|].
  destruct (socket_is_open w); [|done].
  destruct (socket w) as [sid|]; [|done].
  pose proof (wf_send_all c sid (messageQueue w) w H) as Hs.
  unfold bind. destruct (send_all sid (messageQueue w) w) as [w1|e w1];
    simpl in *; [|done].
  destruct Hs as (W0&W1&W2&W3&W4&W5&W6). wf_split; try done. simpl. lia.
Qed.

Lemma wf_onopen c w : well_formed c w → well_formed c (world_of (onopen w)).
Proof.
  intros H. unfold onopen. cbv zeta.
  apply wf_flushQueue, wf_startHeartbeat, wf_emit, wf_set_lastConnectedAt.
  destruct H as (W0&W1&W2&W3&W4&W5&W6). wf_split; try done. simpl. lia.
Qed.

(** A retry is scheduled only below the ceiling, with a delay within the
    bounds. *)
Lemma wf_handleReconnect c rnd w :
  valid_random rnd = true →
  well_formed c w → well_formed c (handleReconnect rnd w).
Proof.
  intros Hv H. unfold handleReconnect.
  destruct (maxReconnectAttempts (cfg w) <=? reconnectAttempts w) eqn:Hc;
    [by apply wf_emit|].
  apply Nat.leb_gt in Hc. cbv zeta. unfold setTimer. cbn [snd].
  destruct H as (W0&W1&W2&W3&W4&W5&W6). subst c.
  wf_split; try done; simpl.
  - intros id t Hl Ha.
    destruct (decide (nextTimer w = id)) as [Heq|Hne];
      [subst id; rewrite lookup_insert_eq in Hl; by simplify_eq
      |rewrite lookup_insert_ne in Hl by done; by apply (W3 id t)].
  - intros id t Hl Ha.
    destruct (decide (nextTimer w = id)) as [Heq|Hne];
      [subst id; rewrite lookup_insert_eq in Hl; by simplify_eq
      |rewrite lookup_insert_ne in Hl by done; by apply (W4 id t)].
  - intros id t Hl Ha Hb.
    destruct (decide (nextTimer w = id)) as [Heq|Hne];
      [subst id; rewrite lookup_insert_eq in Hl
      |rewrite lookup_insert_ne in Hl by done; by apply (W6 id t)].
    simplify_eq. simpl.
    apply (reconnect_delay_bounds (cfg w)); [done | lia | lia | done].
Qed.

Lemma wf_onclose c reason rnd w :
  valid_random rnd = true →
  well_formed c w → well_formed c (onclose reason rnd w).
Proof.
  intros Hv H. unfold onclose. cbv zeta.
  set (x := emit _ _ _).
  assert (well_formed c x) as Hx by (unfold x; wf_chain).
  clearbody x. destruct (manualClose x); [done|].
  by apply wf_handleReconnect.
Qed.

Lemma wf_onerror c w : well_formed c w → well_formed c (onerror w).
Proof. intros H. unfold onerror. wf_chain. Qed.

Lemma wf_onmessage c data w : well_formed c w → well_formed c (onmessage data w).
Proof.
  intros H. unfold onmessage.
  destruct data as [raw|msg]; [done|]. destruct msg; wf_chain.
Qed.

(** The queue drops its oldest entry before it would pass the bound. *)
Lemma wf_send c event data w :
  well_formed c w → well_formed c (world_of (send event data w)).
Proof.
  intros H. unfold send. destruct (socket_is_open w).
  - wf_chain.
  - change (world_of (Returned ?x)) with x.
    destruct H as (W0&W1&W2&W3&W4&W5&W6). subst c.
    destruct (maxQueueSize (cfg w) <=? length (messageQueue w)) eqn:Hc.
    + apply Nat.leb_le in Hc. wf_split; try done. simpl.
      rewrite length_app. simpl. destruct (messageQueue w); simpl in *; lia.
    + apply Nat.leb_gt in Hc. wf_split; try done. simpl.
      rewrite length_app. simpl. lia.
Qed.

Lemma wf_connect c w : well_formed c w → well_formed c (connect w).
Proof. intros H. unfold connect, setupEventHandlers. wf_chain. Qed.

Lemma wf_disconnect c w : well_formed c w → well_formed c (disconnect w).
Proof. intros H. unfold disconnect. wf_chain. Qed.

Lemma wf_once c event cb w : well_formed c w → well_formed c (once event cb w).
Proof. intros H. unfold once. wf_chain. Qed.

Lemma wf_waitForConnection c timeoutMs w :
  well_formed c w → well_formed c (waitForConnection timeoutMs w).2.
Proof.
  intros H. destruct (isConnected w) eqn:Hc.
  - rewrite (waitForConnection_connected _ _ Hc). cbn [snd].
    by apply wf_resolve, wf_set_nextPromise.
  - rewrite (waitForConnection_pending _ _ Hc). cbn [snd].
    by apply wf_on, wf_setTimer_wait, wf_set_nextPromise.
Qed.

Lemma wf_wait_timeout c p id w :
  well_formed c w → well_formed c (wait_timeout p id w).
Proof. intros H. unfold wait_timeout. by apply wf_resolve, wf_off. Qed.

(** An interval that fires is armed again under its own identifier. *)
Lemma wf_rearm c id t d due w :
  timers w !! id = Some t → action t = THeartbeat →
  well_formed c w →
  well_formed c (set_timers (<[id := mkTimer THeartbeat d due]> (timers w)) w).
Proof.
  intros Ht Ha (W0&W1&W2&W3&W4&W5&W6).
  wf_split; try done; simpl; intros id' t' Hl Ha';
    (destruct (decide (id = id')) as [Heq|Hne];
     [subst id'; rewrite lookup_insert_eq in Hl; simplify_eq; try done
     |rewrite lookup_insert_ne in Hl by done]).
  - by apply (W3 id t).
  - by apply (W3 id' t').
  - by apply (W4 id' t').
  - by apply (W6 id' t').
Qed.

Lemma wf_fire_timer c id t w :
  timers w !! id = Some t →
  well_formed c w → well_formed c (fire_timer id t w).
Proof.
  intros Ht H. unfold fire_timer. destruct (action t) eqn:Ha.
  - by apply wf_connect, wf_clearTimer.
  - by apply wf_heartbeat_tick, (wf_rearm _ id t).
  - by apply wf_pong_deadline, wf_clearTimer.
  - by apply wf_wait_timeout, wf_clearTimer.
Qed.

Lemma step_well_formed c e w w' :
  well_formed c w → step e w = Some w' → well_formed c w'.
Proof.
  intros H Hstep. destruct e; cbn [step] in Hstep.
  - simplify_eq. by apply wf_connect.
  - simplify_eq. by apply wf_disconnect.
  - simplify_eq. by apply wf_connect, wf_disconnect.
  - simplify_eq. by apply wf_send.
  - simplify_eq. by apply wf_on.
  - simplify_eq. by apply wf_once.
  - simplify_eq. by apply wf_off.
  - simplify_eq. by apply wf_waitForConnection.
  - destruct (sockets w !! sid) as [s|] eqn:Hs; [|done].
    destruct (readyState s); try done. simplify_eq.
    destruct (handlers s).
    + by apply wf_onopen, wf_update_socket.
    + by apply wf_update_socket.
  - destruct (sockets w !! sid) as [s|] eqn:Hs; [|done].
    destruct (valid_random rnd) eqn:Hv;
      [|by destruct (readyState s)].
    assert (∀ x, Some (if handlers s
                       then onclose reason rnd
                              (update_socket sid (with_readyState CLOSED) w)
                       else update_socket sid (with_readyState CLOSED) w)
                 = Some x → well_formed c x) as Hx.
    { intros x [= <-]. destruct (handlers s).
      - by apply wf_onclose, wf_update_socket.
      - by apply wf_update_socket. }
    destruct (readyState s); try done; by apply Hx.
  - destruct (sockets w !! sid) as [s|] eqn:Hs; [|done].
    assert (∀ x, Some (if handlers s then onerror w else w) = Some x →
                 well_formed c x) as Hx.
    { intros x [= <-]. destruct (handlers s); [|done].
      by apply wf_onerror. }
    destruct (readyState s); try done; by apply Hx.
  - destruct (sockets w !! sid) as [s|] eqn:Hs; [|done].
    destruct (readyState s); try done. simplify_eq.
    destruct (handlers s); [|done]. by apply wf_onmessage.
  - destruct (timers w !! id) as [t|] eqn:Ht; [|done].
    destruct (Qle_bool _ _); [|done]. simplify_eq.
    by apply wf_fire_timer.
  - destruct (0 <=? ms)%Z; [|done]. simplify_eq.
    by apply wf_set_now.
Qed.

Lemma run_well_formed c es : ∀ w w',
  well_formed c w → run es w = Some w' → well_formed c w'.
Proof.
  induction es as [|e es IH]; intros w w' H Hrun; simpl in *.
  - by simplify_eq.
  - destruct (step e w) as [w1|] eqn:Hstep; [|done].
    eapply IH; [|done]. by eapply step_well_formed.
Qed.

Lemma new_service_well_formed c pf t0 :
  well_formed c (new_WebSocketService c pf t0).
Proof. wf_split; try done; simpl; lia. Qed.

(** Every state a service reaches is well formed for the configuration
    it was created with. *)
Lemma created_well_formed c pf t0 es w :
  run es (new_WebSocketService c pf t0) = Some w → well_formed c w.
Proof.
  intros Hrun.
  eapply run_well_formed; [apply new_service_well_formed | done].
Qed.

End WellFormedSteps.

(** * The dispatcher with collaborators' callbacks *)

Section Collaborators.

Lemma set_calls_id w : set_calls (calls w) w = w.
Proof. by destruct w. Qed.

Lemma set_listeners_id w : set_listeners (listeners w) w = w.
Proof. by destruct w. Qed.

(** Callbacks of collaborators are called in the order of the set, and
    nothing but the record of calls changes. *)
Lemma forEach_invoke_exts ids data : ∀ w,
  forEach_invoke (Ext <$> ids) data w
  = set_calls (calls w ++ called_with data ids) w.
Proof.
  induction ids as [|id ids IH]; intros w.
  - simpl. rewrite app_nil_r. symmetry. apply set_calls_id.
  - simpl. fold (forEach_invoke (Ext <$> ids) data).
    rewrite IH. simpl. fold (called_with data ids).
    by rewrite <- app_assoc.
Qed.

Lemma emit_exts event data ids stars w :
  chan event w = Ext <$> ids → chan "*" w = Ext <$> stars →
  emit (JStr event) data w
  = set_calls (calls w ++ called_with data ids
                 ++ called_with (wildcard_payload event data) stars) w.
Proof.
  intros H1 H2. rewrite emit_two_phases. cbv zeta.
  rewrite H1, forEach_invoke_exts.
  change (chan "*" (set_calls ?C w)) with (chan "*" w).
  rewrite H2, forEach_invoke_exts. simpl. by rewrite <- app_assoc.
Qed.

Lemma set_add_idemp cb s : set_add cb (set_add cb s) = set_add cb s.
Proof.
  unfold set_add at 2. case_decide as Hin.
  - unfold set_add. by rewrite decide_True.
  - unfold set_add. rewrite (decide_False (P := cb ∈ s)) by done.
    rewrite decide_True; [done|].
    apply elem_of_app. right. by apply list_elem_of_singleton.
Qed.

Lemma set_add_new cb s : cb ∉ s → set_add cb s = s ++ [cb].
Proof. intros H. unfold set_add. by rewrite decide_False. Qed.

Lemma set_delete_absent cb s : cb ∉ s → set_delete cb s = s.
Proof.
  intros H. unfold set_delete. apply filter_all.
  intros x Hx Heq. apply H. by rewrite <- Heq.
Qed.

Lemma set_delete_app cb s s' :
  set_delete cb (s ++ s') = set_delete cb s ++ set_delete cb s'.
Proof. unfold set_delete. apply filter_app. Qed.

Lemma set_delete_one cb : set_delete cb [cb] = [].
Proof. unfold set_delete. by rewrite filter_cons_False by (by intros H). Qed.

Lemma ext_not_wrapper event wid cb (ids : list nat) :
  OnceWrapper event wid cb ∉ Ext <$> ids.
Proof. intros H. apply list_elem_of_fmap in H as (id & Hid & _). done. Qed.

Lemma omap_callee_exts (ids : list nat) : omap callee (Ext <$> ids) = ids.
Proof. induction ids as [|i ids IH]; [done|]. simpl. by f_equal. Qed.

End Collaborators.

(** * The heartbeat round *)

Section HeartbeatRound.

(** A heartbeat over an open transport: the ping is transmitted, the
    deadline of the round before is cancelled and a new one is armed. *)
Lemma heartbeat_tick_open sid s w :
  socket w = Some sid → sockets w !! sid = Some s → readyState s = OPEN →
  heartbeat_tick w
  = set_pongTimeout (Some (nextTimer w))
      (setTimer TPong (heartbeatTimeoutMs (cfg w))
         (clear_if_set (pongTimeout w)
            (set_sockets (<[sid := with_sent (ping_frame w) s]> (sockets w))
               w))).2.
Proof.
  intros Hsock Hs Hr. unfold heartbeat_tick.
  rewrite (socket_is_open_at _ _ _ Hsock Hs), Hr, Hsock. simpl.
  unfold socket_send. rewrite Hs, Hr, (update_socket_at _ _ _ _ Hs).
  cbv beta iota zeta delta [bind try_catch].
  change (world_of (Returned ?x)) with x. unfold setTimer.
  change (pongTimeout (set_sockets ?a w)) with (pongTimeout w).
  by destruct (pongTimeout w).
Qed.

Lemma heartbeat_tick_fields sid s w :
  socket w = Some sid → sockets w !! sid = Some s → readyState s = OPEN →
  socket (heartbeat_tick w) = socket w
  ∧ sockets (heartbeat_tick w)
    = <[sid := with_sent (ping_frame w) s]> (sockets w)
  ∧ pongTimeout (heartbeat_tick w) = Some (nextTimer w)
  ∧ timers (heartbeat_tick w) !! nextTimer w
    = Some (mkTimer TPong (heartbeatTimeoutMs (cfg w))
              (inject_Z (now w) + heartbeatTimeoutMs (cfg w)))
  ∧ (∀ id, pongTimeout w = Some id → id ≠ nextTimer w →
           timers (heartbeat_tick w) !! id = None)
  ∧ state (heartbeat_tick w) = state w
  ∧ now (heartbeat_tick w) = now w
  ∧ calls (heartbeat_tick w) = calls w
  ∧ listeners (heartbeat_tick w) = listeners w.
Proof.
  intros Hsock Hs Hr. rewrite (heartbeat_tick_open _ _ _ Hsock Hs Hr).
  unfold setTimer, clear_if_set, clearTimer.
  destruct (pongTimeout w) as [p|] eqn:Hp; simpl;
    rewrite lookup_insert_eq; repeat split; try done.
  - intros id [= ->] Hne. rewrite lookup_insert_ne by done.
    by rewrite lookup_delete_eq.
Qed.

(** Below the ceiling handleReconnect schedules a retry and touches
    nothing but the counter, the state and the timers. *)
Lemma handleReconnect_schedules rnd x :
  reconnectAttempts x < maxReconnectAttempts (cfg x) →
  state (handleReconnect rnd x) = reconnecting
  ∧ reconnectAttempts (handleReconnect rnd x) = S (reconnectAttempts x)
  ∧ timers (handleReconnect rnd x) !! nextTimer x
    = Some (mkTimer TReconnect
              (reconnect_delay (baseReconnectDelay (cfg x))
                 (S (reconnectAttempts x)) rnd)
              (inject_Z (now x)
               + reconnect_delay (baseReconnectDelay (cfg x))
                   (S (reconnectAttempts x)) rnd))
  ∧ heartbeatTimer (handleReconnect rnd x) = heartbeatTimer x
  ∧ pongTimeout (handleReconnect rnd x) = pongTimeout x
  ∧ lastDisconnectedAt (handleReconnect rnd x) = lastDisconnectedAt x
  ∧ sockets (handleReconnect rnd x) = sockets x
  ∧ socket (handleReconnect rnd x) = socket x
  ∧ calls (handleReconnect rnd x) = calls x.
Proof.
  intros Hn. unfold handleReconnect.
  destruct (Nat.leb_spec (maxReconnectAttempts (cfg x)) (reconnectAttempts x));
    [lia|].
  cbv zeta. unfold setTimer. simpl. rewrite lookup_insert_eq.
  by repeat split.
Qed.

(** An unexpected close below the ceiling. *)
Lemma onclose_below_ceiling reason rnd v :
  manualClose v = false →
  reconnectAttempts v < maxReconnectAttempts (cfg v) →
  state (onclose reason rnd v) = reconnecting
  ∧ reconnectAttempts (onclose reason rnd v) = S (reconnectAttempts v)
  ∧ heartbeatTimer (onclose reason rnd v) = None
  ∧ pongTimeout (onclose reason rnd v) = None
  ∧ lastDisconnectedAt (onclose reason rnd v) = Some (now v)
  ∧ sockets (onclose reason rnd v) = sockets v
  ∧ socket (onclose reason rnd v) = socket v
  ∧ timers (onclose reason rnd v) !! nextTimer v
    = Some (mkTimer TReconnect
              (reconnect_delay (baseReconnectDelay (cfg v))
                 (S (reconnectAttempts v)) rnd)
              (inject_Z (now v)
               + reconnect_delay (baseReconnectDelay (cfg v))
                   (S (reconnectAttempts v)) rnd))
  ∧ (∀ id, Ext id ∈ chan "connection" v →
           (id, JObj [("status", JStr "disconnected"); ("reason", JStr reason)])
           ∈ calls (onclose reason rnd v)).
Proof.
  intros Hm Hn. unfold onclose. cbv zeta.
  set (u := set_lastDisconnectedAt _ (clearHeartbeat (set_state disconnected v))).
  assert (cfg u = cfg v ∧ manualClose u = false
          ∧ reconnectAttempts u = reconnectAttempts v
          ∧ heartbeatTimer u = None ∧ pongTimeout u = None
          ∧ lastDisconnectedAt u = Some (now v)
          ∧ sockets u = sockets v ∧ socket u = socket v
          ∧ nextTimer u = nextTimer v ∧ now u = now v
          ∧ listeners u = listeners v)
    as (U1&U2&U3&U4&U5&U6&U7&U8&U9&U10&U11).
  { unfold u, clearHeartbeat, clear_if_set, clearTimer, Date_now.
    destruct (heartbeatTimer v) eqn:Hh, (pongTimeout v) eqn:Hp;
      repeat (simpl; rewrite ?Hh, ?Hp); by repeat split. }
  clearbody u.
  set (x := emit _ _ u).
  assert (∀ id, Ext id ∈ chan "connection" v →
                (id, JObj [("status", JStr "disconnected");
                           ("reason", JStr reason)]) ∈ calls x) as Hcalls.
  { intros id Hin. apply emit_calls_channel. unfold chan in *. by rewrite U11. }
  destruct (dispatched_fields u x (emit_dispatched _ _ _))
    as (D1&_&D3&D4&D5&D6&D7&_&_&_&D11&D12&D13&_&_&D16).
  clearbody x.
  rewrite D5, U2. cbv iota.
  destruct (handleReconnect_schedules rnd x) as (R1&R2&R3&R4&R5&R6&R7&R8&R9);
    [rewrite D1, D4, U1, U3; done|].
  rewrite D13, D1, D4, D16, U9, U1, U3, U10 in R3.
  rewrite R1, R2, R4, R5, R6, R7, R8, R9.
  rewrite D4, D6, D7, D11, D12, D3, U3, U4, U5, U6, U7, U8.
  by repeat split.
Qed.

End HeartbeatRound.

(** * After a manual disconnect *)

Section Parked.

Lemma parked_same n w w' :
  manualClose w' = manualClose w → socket w' = socket w →
  length (sockets w') = length (sockets w) → timers w' = timers w →
  parked n w → parked n w'.
Proof.
  intros E1 E2 E3 E4 H. unfold parked. by rewrite E1, E2, E3, E4.
Qed.

Lemma parked_set_reconnectAttempts n v w : parked n w → parked n (set_reconnectAttempts v w).
Proof. by apply parked_same. Qed.

Lemma parked_set_heartbeatTimer n v w : parked n w → parked n (set_heartbeatTimer v w).
Proof. by apply parked_same. Qed.

Lemma parked_set_pongTimeout n v w : parked n w → parked n (set_pongTimeout v w).
Proof. by apply parked_same. Qed.

Lemma parked_set_messageQueue n v w : parked n w → parked n (set_messageQueue v w).
Proof. by apply parked_same. Qed.

Lemma parked_set_state n v w : parked n w → parked n (set_state v w).
Proof. by apply parked_same. Qed.

Lemma parked_set_lastConnectedAt n v w : parked n w → parked n (set_lastConnectedAt v w).
Proof. by apply parked_same. Qed.

Lemma parked_set_lastDisconnectedAt n v w : parked n w → parked n (set_lastDisconnectedAt v w).
Proof. by apply parked_same. Qed.

Lemma parked_set_nextTimer n v w : parked n w → parked n (set_nextTimer v w).
Proof. by apply parked_same. Qed.

Lemma parked_set_promises n v w : parked n w → parked n (set_promises v w).
Proof. by apply parked_same. Qed.

Lemma parked_set_nextPromise n v w : parked n w → parked n (set_nextPromise v w).
Proof. by apply parked_same. Qed.

Lemma parked_set_nextWrapper n v w : parked n w → parked n (set_nextWrapper v w).
Proof. by apply parked_same. Qed.

Lemma parked_set_calls n v w : parked n w → parked n (set_calls v w).
Proof. by apply parked_same. Qed.

Lemma parked_set_now n v w : parked n w → parked n (set_now v w).
Proof. by apply parked_same. Qed.

Lemma parked_set_listeners n v w : parked n w → parked n (set_listeners v w).
Proof. by apply parked_same. Qed.


Lemma parked_dispatched n w w' : dispatched w w' → parked n w → parked n w'.
Proof.
  intros Hd (P1&P2&P3&P4).
  destruct (dispatched_fields _ _ Hd) as (_&_&D3&_&D5&_&_&_&_&_&_&D12&_).
  pose proof (dispatched_timers _ _ Hd) as Ht.
  unfold parked. rewrite D3, D5, D12. repeat split; try done.
  intros id t Hl. apply (P4 id t). by eapply lookup_weaken.
Qed.

Lemma parked_emit n event data w : parked n w → parked n (emit event data w).
Proof. apply parked_dispatched, emit_dispatched. Qed.

Lemma parked_off n event cb w : parked n w → parked n (off event cb w).
Proof. apply parked_dispatched, off_dispatched. Qed.

Lemma parked_on n event cb w : parked n w → parked n (on event cb w).
Proof. intros H. unfold on. by apply parked_set_listeners. Qed.

Lemma parked_resolve n p v w : parked n w → parked n (resolve p v w).
Proof.
  intros H. unfold resolve. destruct (promises w !! p); [done|].
  by apply parked_set_promises.
Qed.

Lemma parked_fewer_timers n T w :
  T ⊆ timers w → parked n w → parked n (set_timers T w).
Proof.
  intros HT (P1&P2&P3&P4). repeat split; try done.
  intros id t Hl. apply (P4 id t). by eapply lookup_weaken.
Qed.

Lemma parked_clearTimer n id w : parked n w → parked n (clearTimer id w).
Proof. apply parked_fewer_timers, delete_subseteq. Qed.

Lemma parked_clear_if_set n t w : parked n w → parked n (clear_if_set t w).
Proof. destruct t; [apply parked_clearTimer | done]. Qed.

Lemma parked_insert_timer n id t w :
  action t ≠ TReconnect →
  parked n w → parked n (set_timers (<[id := t]> (timers w)) w).
Proof.
  intros Ha (P1&P2&P3&P4). repeat split; try done.
  intros id' t' Hl. simpl in Hl.
  destruct (decide (id = id')) as [Heq|Hne];
    [subst id'; rewrite lookup_insert_eq in Hl; by simplify_eq
    |rewrite lookup_insert_ne in Hl by done; by apply (P4 id' t')].
Qed.

Lemma parked_setTimer n a d w :
  a ≠ TReconnect → parked n w → parked n (setTimer a d w).2.
Proof.
  intros Ha H. unfold setTimer. cbn [snd].
  by apply parked_set_nextTimer, parked_insert_timer.
Qed.

Lemma parked_update_socket n sid f w :
  parked n w → parked n (update_socket sid f w).
Proof.
  intros (P1&P2&P3&P4). unfold update_socket.
  destruct (sockets w !! sid); [|done].
  repeat split; try done. simpl. by rewrite length_insert.
Qed.

Lemma parked_not_open n w : parked n w → socket_is_open w = false.
Proof. intros (_&P2&_). unfold socket_is_open. by rewrite P2. Qed.

End Parked.

(** Peels one operation off the world of [parked]. *)
Ltac parked_step :=
  lazymatch goal with
  | H : parked ?n ?a |- parked ?n ?a => exact H
  | |- parked _ (set_reconnectAttempts _ _) => apply parked_set_reconnectAttempts
  | |- parked _ (set_heartbeatTimer _ _) => apply parked_set_heartbeatTimer
  | |- parked _ (set_pongTimeout _ _) => apply parked_set_pongTimeout
  | |- parked _ (set_messageQueue _ _) => apply parked_set_messageQueue
  | |- parked _ (set_state _ _) => apply parked_set_state
  | |- parked _ (set_lastConnectedAt _ _) => apply parked_set_lastConnectedAt
  | |- parked _ (set_lastDisconnectedAt _ _) => apply parked_set_lastDisconnectedAt
  | |- parked _ (set_nextTimer _ _) => apply parked_set_nextTimer
  | |- parked _ (set_promises _ _) => apply parked_set_promises
  | |- parked _ (set_nextPromise _ _) => apply parked_set_nextPromise
  | |- parked _ (set_nextWrapper _ _) => apply parked_set_nextWrapper
  | |- parked _ (set_calls _ _) => apply parked_set_calls
  | |- parked _ (set_now _ _) => apply parked_set_now
  | |- parked _ (set_listeners _ _) => apply parked_set_listeners
  | |- parked _ (clearTimer _ _) => apply parked_clearTimer
  | |- parked _ (clear_if_set _ _) => apply parked_clear_if_set
  | |- parked _ (emit _ _ _) => apply parked_emit
  | |- parked _ (off _ _ _) => apply parked_off
  | |- parked _ (on _ _ _) => apply parked_on
  | |- parked _ (resolve _ _ _) => apply parked_resolve
  | |- parked _ (socket_close _ _) => apply parked_update_socket
  | |- parked _ (update_socket _ _ _) => apply parked_update_socket
  | |- parked ?n (snd (?a, ?b)) => change (parked n b)
  | |- parked _ (snd (setTimer _ _ _)) =>
      apply parked_setTimer; [discriminate|]
  | |- context [match setTimer ?a ?d ?x with _ => _ end] =>
      rewrite (setTimer_eta a d x)
  | |- _ => case_innermost
  end.

Ltac parked_chain :=
  repeat (cbv beta iota zeta delta [bind try_catch socket_send];
          try change (world_of (Returned ?x)) with x;
          try change (world_of (Thrown ?e ?x)) with x;
          parked_step).

Section ParkedSteps.

Lemma parked_clearHeartbeat n w : parked n w → parked n (clearHeartbeat w).
Proof. intros H. unfold clearHeartbeat. parked_chain. Qed.

Lemma parked_startHeartbeat n w : parked n w → parked n (startHeartbeat w).
Proof.
  intros H. unfold startHeartbeat. cbv zeta. rewrite setTimer_eta.
  apply parked_set_heartbeatTimer, parked_setTimer; [discriminate|].
  by apply parked_clearHeartbeat.
Qed.

(** Without a current socket the heartbeat sends nothing. *)
Lemma parked_heartbeat_tick n w : parked n w → parked n (heartbeat_tick w).
Proof.
  intros H. unfold heartbeat_tick. by rewrite (parked_not_open n w H).
Qed.

Lemma parked_pong_deadline n w : parked n w → parked n (pong_deadline w).
Proof. intros H. unfold pong_deadline. parked_chain. Qed.

Lemma parked_flushQueue n w : parked n w → parked n (world_of (flushQueue w)).
Proof.
  intros H. unfold flushQueue. rewrite (parked_not_open n w H).
  by destruct (length (messageQueue w) =? 0).
Qed.

Lemma parked_send n event data w :
  parked n w → parked n (world_of (send event data w)).
Proof.
  intros H. unfold send. rewrite (parked_not_open n w H).
  change (world_of (Returned ?x)) with x. parked_chain.
Qed.

(** A socket that was replaced earlier may still open. *)
Lemma parked_onopen n w : parked n w → parked n (world_of (onopen w)).
Proof.
  intros H. unfold onopen. cbv zeta.
  apply parked_flushQueue, parked_startHeartbeat. parked_chain.
Qed.

(** A close that finds the manual mark set schedules nothing. *)
Lemma parked_onclose n reason rnd w :
  parked n w → parked n (onclose reason rnd w).
Proof.
  intros H. unfold onclose. cbv zeta.
  set (x := emit _ _ _).
  assert (parked n x) as Hx
    by (unfold x; apply parked_emit, parked_set_lastDisconnectedAt,
          parked_clearHeartbeat, parked_set_state, H).
  clearbody x. destruct Hx as (P1&P2&P3&P4). rewrite P1. by repeat split.
Qed.

Lemma parked_onerror n w : parked n w → parked n (onerror w).
Proof. intros H. unfold onerror. parked_chain. Qed.

Lemma parked_onmessage n data w : parked n w → parked n (onmessage data w).
Proof.
  intros H. unfold onmessage.
  destruct data as [raw|msg]; [done|]. destruct msg; parked_chain.
Qed.

Lemma parked_once n event cb w : parked n w → parked n (once event cb w).
Proof. intros H. unfold once. parked_chain. Qed.

Lemma parked_waitForConnection n timeoutMs w :
  parked n w → parked n (waitForConnection timeoutMs w).2.
Proof.
  intros H. destruct (isConnected w) eqn:Hc.
  - rewrite (waitForConnection_connected _ _ Hc). cbn [snd].
    by apply parked_resolve, parked_set_nextPromise.
  - rewrite (waitForConnection_pending _ _ Hc). cbn [snd].
    apply parked_on, parked_setTimer; [discriminate|].
    by apply parked_set_nextPromise.
Qed.

Lemma parked_wait_timeout n p id w :
  parked n w → parked n (wait_timeout p id w).
Proof. intros H. unfold wait_timeout. by apply parked_resolve, parked_off. Qed.

(** No retry is pending, so no timer that fires calls [connect]. *)
Lemma parked_fire_timer n id t w :
  timers w !! id = Some t →
  parked n w → parked n (fire_timer id t w).
Proof.
  intros Ht H. unfold fire_timer. destruct (action t) eqn:Ha.
  - destruct H as (_&_&_&P4). by destruct (P4 id t Ht).
  - by apply parked_heartbeat_tick, parked_insert_timer.
  - by apply parked_pong_deadline, parked_clearTimer.
  - by apply parked_wait_timeout, parked_clearTimer.
Qed.

Lemma step_parked n e w w' :
  operator_open e = false →
  parked n w → step e w = Some w' → parked n w'.
Proof.
  intros He H Hstep. destruct e; try discriminate He; cbn [step] in Hstep.
  - simplify_eq. unfold disconnect.
    destruct H as (P1&P2&P3&P4).
    assert (parked n (clearHeartbeat (set_manualClose true w))) as Hc
      by (by apply parked_clearHeartbeat, parked_same with w).
    assert (socket (clearHeartbeat (set_manualClose true w)) = None) as Hn
      by (by destruct Hc as (_&?&_)).
    cbv zeta. rewrite Hn.
    by apply parked_set_state, parked_set_listeners.
  - simplify_eq. by apply parked_send.
  - simplify_eq. by apply parked_on.
  - simplify_eq. by apply parked_once.
  - simplify_eq. by apply parked_off.
  - simplify_eq. by apply parked_waitForConnection.
  - destruct (sockets w !! sid) as [s|] eqn:Hs; [|done].
    destruct (readyState s); try done. simplify_eq.
    destruct (handlers s).
    + by apply parked_onopen, parked_update_socket.
    + by apply parked_update_socket.
  - destruct (sockets w !! sid) as [s|] eqn:Hs; [|done].
    assert (∀ x, Some (if handlers s
                       then onclose reason rnd
                              (update_socket sid (with_readyState CLOSED) w)
                       else update_socket sid (with_readyState CLOSED) w)
                 = Some x → parked n x) as Hx.
    { intros x [= <-]. destruct (handlers s).
      - by apply parked_onclose, parked_update_socket.
      - by apply parked_update_socket. }
    destruct (readyState s); try done;
      destruct (valid_random rnd); try done; by apply Hx.
  - destruct (sockets w !! sid) as [s|] eqn:Hs; [|done].
    assert (∀ x, Some (if handlers s then onerror w else w) = Some x →
                 parked n x) as Hx.
    { intros x [= <-]. destruct (handlers s); [|done].
      by apply parked_onerror. }
    destruct (readyState s); try done; by apply Hx.
  - destruct (sockets w !! sid) as [s|] eqn:Hs; [|done].
    destruct (readyState s); try done. simplify_eq.
    destruct (handlers s); [|done]. by apply parked_onmessage.
  - destruct (timers w !! id) as [t|] eqn:Ht; [|done].
    destruct (Qle_bool _ _); [|done]. simplify_eq.
    by apply parked_fire_timer.
  - destruct (0 <=? ms)%Z; [|done]. simplify_eq.
    by apply parked_set_now.
Qed.

Lemma run_parked n es : ∀ w w',
  forallb (λ e, negb (operator_open e)) es = true →
  parked n w → run es w = Some w' → parked n w'.
Proof.
  induction es as [|e es IH]; intros w w' Hes H Hrun; simpl in *.
  - by simplify_eq.
  - apply andb_true_iff in Hes as [He Hes]. apply negb_true_iff in He.
    destruct (step e w) as [w1|] eqn:Hstep; [|done].
    eapply IH; [done| |done]. by eapply step_parked.
Qed.

(** [disconnect] parks the service when no retry is pending. *)
Lemma disconnect_parks w :
  (∀ id t, timers w !! id = Some t → action t ≠ TReconnect) →
  parked (length (sockets w)) (disconnect w).
Proof.
  intros Hno.
  destruct (disconnect_fields w) as (D1&_&D3&_&_&_&_&_&_&D10&D11).
  destruct (clearHeartbeat_fields w) as (_&_&C3&C4&C5).
  unfold parked. rewrite D1, D3, D10, D11. repeat split; try done.
  - destruct (socket w) as [sid|]; [|done].
    unfold socket_close, update_socket.
    destruct (sockets w !! sid); [|done]. simpl. by rewrite length_insert.
  - intros id t Ht. apply (Hno id t).
    destruct (decide (heartbeatTimer w = Some id)) as [Hh|Hh];
      [rewrite (C3 id Hh) in Ht; done|].
    destruct (decide (pongTimeout w = Some id)) as [Hp|Hp];
      [rewrite (C4 id Hp) in Ht; done|].
    by rewrite (C5 id Hh Hp) in Ht.
Qed.

End ParkedSteps.

(** * The polling hook *)

Section PollingHook.

Import RealTimeData.

Lemma resumed_fields k r h :
  options (fetchData_resumed k r h) = options h
  ∧ controllers (fetchData_resumed k r h) = controllers h
  ∧ abortControllerRef (fetchData_resumed k r h) = abortControllerRef h
  ∧ awaiting (fetchData_resumed k r h) = awaiting h
  ∧ intervals (fetchData_resumed k r h) = intervals h
  ∧ intervalRef (fetchData_resumed k r h) = intervalRef h.
Proof.
  unfold fetchData_resumed, aborted.
  destruct (controllers h !! k) as [[|]|] eqn:Hc;
    destruct r as [d|[|m|]]; simpl; rewrite ?Hc; simpl;
    try destruct (onSuccess (options h)); try destruct (onError (options h));
    simpl; rewrite ?Hc; by repeat split.
Qed.

(** Aborting the current controller leaves none alive. *)
Lemma abort_current_none_live h :
  one_live_controller h →
  (∀ j, controllers (abort_current h) !! j ≠ Some false)
  ∧ length (controllers (abort_current h)) = length (controllers h)
  ∧ abortControllerRef (abort_current h) = abortControllerRef h
  ∧ awaiting (abort_current h) = awaiting h
  ∧ options (abort_current h) = options h
  ∧ intervals (abort_current h) = intervals h
  ∧ intervalRef (abort_current h) = intervalRef h
  ∧ nextTimer (abort_current h) = nextTimer h
  ∧ rendered (abort_current h) = rendered h.
Proof.
  intros [H1 H2]. unfold abort_current.
  destruct (abortControllerRef h) as [k|] eqn:Hk; simpl.
  - rewrite length_insert. repeat split; try done.
    intros j Hj. destruct (decide (k = j)) as [->|Hne].
    + apply list_lookup_insert_Some in Hj as [(_ & ? & _)|(? & _)]; done.
    + rewrite list_lookup_insert_ne in Hj by done.
      apply H1 in Hj. congruence.
  - repeat split; try done. intros j Hj. apply H1 in Hj. congruence.
Qed.

Lemma fetchData_one_live h :
  one_live_controller h → one_live_controller (fetchData h).
Proof.
  intros H. unfold fetchData. destruct (enabled (options h)); [|done]. simpl.
  destruct (abort_current_none_live h H) as (A1&A2&A3&A4&_).
  destruct H as [H1 H2].
  generalize dependent (abort_current h). intros x A1 A2 A3 A4.
  split; simpl.
  - intros k Hk. apply lookup_app_Some in Hk as [Hk|[Hlen Hk]].
    + by destruct (A1 k).
    + apply list_lookup_singleton_Some in Hk as [Hk _]. f_equal. lia.
  - intros k Hk. rewrite length_app. simpl.
    apply elem_of_app in Hk as [Hk|Hk].
    + rewrite A4 in Hk. apply H2 in Hk. lia.
    + apply list_elem_of_singleton in Hk. lia.
Qed.

Lemma one_live_same h h' :
  controllers h' = controllers h →
  abortControllerRef h' = abortControllerRef h →
  awaiting h' ⊆ awaiting h →
  one_live_controller h → one_live_controller h'.
Proof.
  intros E1 E2 E3 [H1 H2]. unfold one_live_controller. rewrite E1, E2.
  split; [done|]. intros k Hk. apply H2. by apply E3.
Qed.

Lemma cleanup_none_live h :
  one_live_controller h → enabled (options h) = true →
  (∀ j, controllers (cleanup h) !! j ≠ Some false)
  ∧ awaiting (cleanup h) = awaiting h
  ∧ abortControllerRef (cleanup h) = abortControllerRef h
  ∧ length (controllers (cleanup h)) = length (controllers h)
  ∧ rendered (cleanup h) = rendered h.
Proof.
  intros H He. unfold cleanup. rewrite He. simpl.
  set (x := match intervalRef h with
            | Some id => set_intervals (delete id (intervals h)) h
            | None => h
            end).
  assert (one_live_controller x ∧ awaiting x = awaiting h
          ∧ abortControllerRef x = abortControllerRef h
          ∧ controllers x = controllers h ∧ rendered x = rendered h)
    as (X1&X2&X3&X4&X5)
    by (unfold x; destruct (intervalRef h);
        (split; [by apply one_live_same with h | by repeat split])).
  clearbody x.
  destruct (abort_current_none_live x X1) as (A1&A2&A3&A4&_&_&_&_&A9).
  rewrite A2, A3, A4, A9, X2, X3, X4, X5. by repeat split.
Qed.

Lemma step_one_live e h h' :
  one_live_controller h → step e h = Some h' → one_live_controller h'.
Proof.
  intros H Hstep. destruct e; simpl in Hstep.
  - simplify_eq. unfold effect. destruct (enabled (options h)); [|done].
    simpl. pose proof (fetchData_one_live h H) as Hf.
    destruct (Qlt_le_dec 0 _); [|done].
    by apply one_live_same with (fetchData h).
  - simplify_eq. destruct (enabled (options h)) eqn:He.
    + destruct (cleanup_none_live h H He) as (C1&C2&C3&C4&_).
      destruct H as [H1 H2]. split.
      * intros k Hk. by destruct (C1 k).
      * intros k Hk. rewrite C4. apply H2. by rewrite <- C2.
    + unfold cleanup. by rewrite He.
  - destruct (intervals h !! id); [|done]. simplify_eq.
    by apply fetchData_one_live.
  - simplify_eq. unfold refresh. apply fetchData_one_live.
    by apply one_live_same with h.
  - case_decide; [|done]. simplify_eq.
    destruct (resumed_fields k r
                (set_awaiting (filter (λ j, j ≠ k) (awaiting h)) h))
      as (_&R2&R3&R4&_).
    apply one_live_same with h; [by rewrite R2 | by rewrite R3 | | done].
    rewrite R4. simpl. intros j Hj. by apply list_elem_of_filter in Hj as [_ ?].
  - destruct (0 <=? ms)%Z; [|done]. simplify_eq. by apply one_live_same with h.
Qed.

Lemma run_one_live es : ∀ h h',
  one_live_controller h → run es h = Some h' → one_live_controller h'.
Proof.
  induction es as [|e es IH]; intros h h' H Hrun; simpl in *.
  - by simplify_eq.
  - destruct (step e h) as [h1|] eqn:Hstep; [|done].
    eapply IH; [|done]. by eapply step_one_live.
Qed.

Lemma mounted_one_live o t0 es h :
  run es (new_hook o t0) = Some h → one_live_controller h.
Proof.
  apply run_one_live. split.
  - intros k Hk. simpl in Hk. by rewrite lookup_nil in Hk.
  - intros k Hk. simpl in Hk. by apply elem_of_nil in Hk.
Qed.

Lemma step_options e h h' : step e h = Some h' → options h' = options h.
Proof.
  intros Hstep. destruct e; simpl in Hstep.
  - simplify_eq. unfold effect, fetchData, abort_current.
    destruct (enabled (options h)); [|done]. simpl.
    destruct (Qlt_le_dec 0 _); by destruct (abortControllerRef h).
  - simplify_eq. unfold cleanup, abort_current.
    destruct (enabled (options h)); [|done]. simpl.
    destruct (intervalRef h); simpl; by destruct (abortControllerRef h).
  - destruct (intervals h !! id); [|done]. simplify_eq.
    unfold fetchData, abort_current.
    destruct (enabled (options h)); [|done]. simpl.
    by destruct (abortControllerRef h).
  - simplify_eq. unfold refresh, fetchData, abort_current. simpl.
    destruct (enabled (options h)); [|done]. simpl.
    by destruct (abortControllerRef h).
  - case_decide; [|done]. simplify_eq.
    by destruct (resumed_fields k r
                   (set_awaiting (filter (λ j, j ≠ k) (awaiting h)) h))
      as (R1&_).
  - destruct (0 <=? ms)%Z; [|done]. by simplify_eq.
Qed.

Lemma run_options es : ∀ h h', run es h = Some h' → options h' = options h.
Proof.
  induction es as [|e es IH]; intros h h' Hrun; simpl in *.
  - by simplify_eq.
  - destruct (step e h) as [h1|] eqn:Hstep; [|done].
    rewrite (IH _ _ Hrun). by eapply step_options.
Qed.

(** A fulfilled promise of an aborted controller changes nothing that is
    rendered. *)
Lemma aborted_response_dropped k d h :
  k ∈ awaiting h → controllers h !! k = Some true →
  ∃ h', step (Settle k (Fulfilled d)) h = Some h' ∧ rendered h' = rendered h.
Proof.
  intros Hk Ha. simpl. rewrite decide_True by done.
  eexists. split; [reflexivity|].
  unfold fetchData_resumed, aborted. cbv zeta.
  change (controllers (set_awaiting ?a h)) with (controllers h).
  rewrite Ha. simpl. by rewrite Ha.
Qed.

(** A disabled hook does nothing, whatever is asked of it. *)
Lemma step_idle e h h' :
  idle h → step e h = Some h' →
  idle h' ∧ data h' = data h ∧ isConnected h' = isConnected h
  ∧ calls h' = calls h ∧ error h' = error h
  ∧ (loading h = true → loading h' = true).
Proof.
  intros (I1&I2&I3) Hstep. destruct e; simpl in Hstep.
  - simplify_eq. unfold effect. rewrite I1. by repeat split.
  - simplify_eq. unfold cleanup. rewrite I1. by repeat split.
  - by rewrite I3, lookup_empty in Hstep.
  - simplify_eq. unfold refresh, fetchData. simpl. rewrite I1. simpl.
    by repeat split.
  - rewrite I2 in Hstep. case_decide as Hin; [|done].
    by apply elem_of_nil in Hin.
  - destruct (0 <=? ms)%Z; [|done]. simplify_eq. by repeat split.
Qed.

Lemma run_idle es : ∀ h h',
  idle h → run es h = Some h' →
  idle h' ∧ data h' = data h ∧ isConnected h' = isConnected h
  ∧ calls h' = calls h ∧ error h' = error h
  ∧ (loading h = true → loading h' = true).
Proof.
  induction es as [|e es IH]; intros h h' H Hrun; simpl in *.
  - simplify_eq. split; [done | by repeat split].
  - destruct (step e h) as [h1|] eqn:Hstep; [|done].
    destruct (step_idle _ _ _ H Hstep) as (S1&S2&S3&S4&S5&S6).
    destruct (IH _ _ S1 Hrun) as (R1&R2&R3&R4&R5&R6).
    rewrite R2, R3, R4, R5, S2, S3, S4, S5.
    split; [done|]. do 4 (split; [done|]). intros Hl. by apply R6, S6.
Qed.

Lemma run_app es es' h :
  run (es ++ es') h = match run es h with
                      | Some h' => run es' h'
                      | None => None
                      end.
Proof.
  revert h. induction es as [|e es IH]; intros h; simpl; [done|].
  destruct (step e h); [apply IH | done].
Qed.

Lemma fetchData_intervals h :
  intervals (fetchData h) = intervals h
  ∧ intervalRef (fetchData h) = intervalRef h
  ∧ nextTimer (fetchData h) = nextTimer h.
Proof.
  unfold fetchData, abort_current. destruct (enabled (options h)); [|done].
  simpl. by destruct (abortControllerRef h).
Qed.

Lemma single_interval_same h h' :
  intervals h' = intervals h → intervalRef h' = intervalRef h →
  single_interval h → single_interval h'.
Proof. intros E1 E2 H. unfold single_interval. by rewrite E1, E2. Qed.

Lemma step_single_interval e h h' :
  is_mount e = false →
  single_interval h → step e h = Some h' → single_interval h'.
Proof.
  intros He H Hstep. destruct e; try discriminate He; simpl in Hstep.
  - simplify_eq. unfold cleanup, abort_current.
    destruct (enabled (options h)); [|done]. simpl.
    assert (single_interval
              match intervalRef h with
              | Some id => set_intervals (delete id (intervals h)) h
              | None => h
              end) as Hx.
    { destruct (intervalRef h) as [id|] eqn:Hid; [|done].
      intros id' p Hl. simpl in *.
      apply lookup_delete_Some in Hl as [Hne Hl]. rewrite Hid.
      pose proof (H id' p Hl) as E. congruence. }
    revert Hx. generalize (match intervalRef h with
                           | Some id => set_intervals (delete id (intervals h)) h
                           | None => h
                           end).
    intros x Hx. by destruct (abortControllerRef x).
  - destruct (intervals h !! id); [|done]. simplify_eq.
    destruct (fetchData_intervals h) as (F1&F2&_).
    by apply single_interval_same with h.
  - simplify_eq. unfold refresh.
    destruct (fetchData_intervals (set_loading true h)) as (F1&F2&_).
    by apply single_interval_same with h.
  - case_decide; [|done]. simplify_eq.
    destruct (resumed_fields k r
                (set_awaiting (filter (λ j, j ≠ k) (awaiting h)) h))
      as (_&_&_&_&R5&R6).
    by apply single_interval_same with h.
  - destruct (0 <=? ms)%Z; [|done]. simplify_eq. done.
Qed.

Lemma run_single_interval es : ∀ h h',
  forallb (λ e, negb (is_mount e)) es = true →
  single_interval h → run es h = Some h' → single_interval h'.
Proof.
  induction es as [|e es IH]; intros h h' Hes H Hrun; simpl in *.
  - by simplify_eq.
  - apply andb_true_iff in Hes as [He Hes]. apply negb_true_iff in He.
    destruct (step e h) as [h1|] eqn:Hstep; [|done].
    eapply IH; [done| |done]. by eapply step_single_interval.
Qed.

(** The first run of the effect arms at most one interval. *)
Lemma effect_single_interval h :
  intervals h = ∅ → single_interval (effect h).
Proof.
  intros He. unfold effect. destruct (enabled (options h)); simpl;
    [|intros id p Hl; by rewrite He, lookup_empty in Hl].
  destruct (fetchData_intervals h) as (F1&F2&F3).
  destruct (Qlt_le_dec 0 _).
  - intros id p Hl. simpl in *. rewrite F1, He in Hl.
    apply lookup_insert_Some in Hl as [[<- _]|[_ Hl]]; [done|].
    by rewrite lookup_empty in Hl.
  - intros id p Hl. by rewrite F1, He, lookup_empty in Hl.
Qed.

(** The cleanup cancels the interval of the ref. *)
Lemma cleanup_clears_interval h :
  enabled (options h) = true → single_interval h → intervals (cleanup h) = ∅.
Proof.
  intros He H. unfold cleanup, abort_current. rewrite He. simpl.
  assert (intervals match intervalRef h with
                    | Some id => set_intervals (delete id (intervals h)) h
                    | None => h
                    end = ∅) as Hx.
  { apply map_eq. intros id. rewrite lookup_empty.
    destruct (intervalRef h) as [id0|] eqn:Hid; simpl.
    - destruct (decide (id0 = id)) as [->|Hne];
        [by rewrite lookup_delete_eq|].
      rewrite lookup_delete_ne by done.
      destruct (intervals h !! id) as [p|] eqn:Hl; [|done].
      pose proof (H id p Hl). congruence.
    - destruct (intervals h !! id) as [p|] eqn:Hl; [|done].
      pose proof (H id p Hl). congruence. }
  revert Hx. generalize (match intervalRef h with
                         | Some id => set_intervals (delete id (intervals h)) h
                         | None => h
                         end).
  intros x Hx. by destruct (abortControllerRef x).
Qed.

End PollingHook.

(** * The hook variant *)

Section HookVariant.

Import UseWebSocket.

Lemma hook_wf_same o h h' :
  options h' = options h → sockets h' = sockets h → timers h' = timers h →
  ws h' = ws h → reconnectTimeoutRef h' = reconnectTimeoutRef h →
  heartbeatRef h' = heartbeatRef h → reconnectCount h' = reconnectCount h →
  well_formed o h → well_formed o h'.
Proof.
  intros E1 E2 E3 E4 E5 E6 E7 H. unfold well_formed.
  by rewrite E1, E2, E3, E4, E5, E6, E7.
Qed.

(** A socket may change as long as its callbacks stay, and its
    readiness too when it has callbacks. *)
Lemma hook_wf_update_socket o sid s0 f h :
  sockets h !! sid = Some s0 →
  handlers (f s0) = handlers s0 →
  (handlers s0 = true → readyState (f s0) = readyState s0) →
  well_formed o h → well_formed o (update_socket sid f h).
Proof.
  intros Hs Hh Hr (W1&W2&W3&W4&W5). unfold update_socket. rewrite Hs.
  assert (Hlook : ∀ sid' s', <[sid := f s0]> (sockets h) !! sid' = Some s' →
            handlers s' = true →
            ∃ s, sockets h !! sid' = Some s ∧ handlers s = true
                 ∧ readyState s' = readyState s).
  { intros sid' s' Hl Hh'. destruct (decide (sid = sid')) as [<-|Hne].
    - rewrite list_lookup_insert_eq in Hl by (by eapply lookup_lt_Some).
      simplify_eq. exists s0. rewrite Hh in Hh'. split; [done|].
      split; [done | by apply Hr].
    - rewrite list_lookup_insert_ne in Hl by done. by exists s'. }
  split; [done|]. split; [|split; [|split; [|done]]]; simpl.
  - intros sid' s' Hl Hh'.
    destruct (Hlook sid' s' Hl Hh') as (s & Hl0 & Hh0 & _). by apply (W2 sid' s).
  - intros id t Ht Ha. destruct (W3 id t Ht Ha) as (R1&R2&R3).
    split; [done|]. split; [done|]. intros sid' s' Hl Hh'.
    destruct (Hlook sid' s' Hl Hh') as (s & Hl0 & Hh0 & ->). by apply (R3 sid' s).
  - intros id t Ht Ha. destruct (W4 id t Ht Ha) as (R1&R2).
    split; [done|]. intros sid' s' Hl Hh'.
    destruct (Hlook sid' s' Hl Hh') as (s & Hl0 & Hh0 & ->). by apply (R2 sid' s).
Qed.

Lemma hook_wf_ws_send o f h : well_formed o h → well_formed o (ws_send f h).
Proof.
  intros H. unfold ws_send. destruct (ws h) as [sid|]; [|done].
  destruct (sockets h !! sid) as [s0|] eqn:Hs.
  - by apply (hook_wf_update_socket o sid s0).
  - unfold update_socket. by rewrite Hs.
Qed.

Lemma hook_wf_fewer_timers o T h :
  T ⊆ timers h → well_formed o h → well_formed o (set_timers T h).
Proof.
  intros HT (W1&W2&W3&W4&W5).
  split; [done|]. split; [done|]. split; [|split; [|done]]; simpl.
  - intros id t Ht. apply (W3 id t). by eapply lookup_weaken.
  - intros id t Ht. apply (W4 id t). by eapply lookup_weaken.
Qed.

(** While a socket with callbacks is yet to open, no timer is pending;
    while one is yet to close, no retry is. *)
Lemma hook_no_timer_while_connecting o sid s h :
  well_formed o h →
  sockets h !! sid = Some s → handlers s = true → readyState s = CONNECTING →
  timers h = ∅.
Proof.
  intros (W1&W2&W3&W4&W5) Hs Hh Hr. apply map_eq. intros id.
  rewrite lookup_empty. destruct (timers h !! id) as [t|] eqn:Ht; [|done].
  destruct (action t) eqn:Ha.
  - destruct (W3 id t Ht Ha) as (_&_&R3). pose proof (R3 sid s Hs Hh). congruence.
  - destruct (W4 id t Ht Ha) as (_&R2). by destruct (R2 sid s Hs Hh).
Qed.

Lemma hook_no_retry_while_live o sid s h :
  well_formed o h →
  sockets h !! sid = Some s → handlers s = true → readyState s ≠ CLOSED →
  ∀ id t, timers h !! id = Some t → action t ≠ TReconnect.
Proof.
  intros (W1&W2&W3&W4&W5) Hs Hh Hr id t Ht Ha.
  destruct (W3 id t Ht Ha) as (_&_&R3). by apply Hr, (R3 sid s).
Qed.

(** cleanup cancels every timer and detaches every callback. *)
Lemma cleanup_spec o h :
  well_formed o h →
  inert (cleanup h)
  ∧ options (cleanup h) = options h ∧ hook_url (cleanup h) = hook_url h
  ∧ rendered (cleanup h) = rendered h ∧ ws (cleanup h) = ws h
  ∧ reconnectCount (cleanup h) = reconnectCount h
  ∧ messageQueue (cleanup h) = messageQueue h
  ∧ nextTimer (cleanup h) = nextTimer h ∧ now (cleanup h) = now h
  ∧ length (sockets (cleanup h)) = length (sockets h)
  ∧ reconnectTimeoutRef (cleanup h) = reconnectTimeoutRef h
  ∧ heartbeatRef (cleanup h) = heartbeatRef h
  ∧ (∀ sid, sent_on sid (cleanup h) = sent_on sid h).
Proof.
  intros (W1&W2&W3&W4&W5). unfold cleanup. cbv zeta.
  set (x := clear_if_set (heartbeatRef (clear_if_set (reconnectTimeoutRef h) h))
              (clear_if_set (reconnectTimeoutRef h) h)).
  assert (timers x = ∅ ∧ options x = options h ∧ hook_url x = hook_url h
          ∧ rendered x = rendered h ∧ ws x = ws h
          ∧ reconnectCount x = reconnectCount h
          ∧ messageQueue x = messageQueue h
          ∧ nextTimer x = nextTimer h ∧ now x = now h
          ∧ sockets x = sockets h
          ∧ reconnectTimeoutRef x = reconnectTimeoutRef h
          ∧ heartbeatRef x = heartbeatRef h)
    as (X1&X2&X3&X4&X5&X6&X7&X8&X9&X10&X11&X12).
  { split.
    - apply map_eq. intros id. rewrite lookup_empty.
      destruct (timers x !! id) as [t|] eqn:Ht; [|done]. exfalso.
      assert (timers h !! id = Some t
              ∧ reconnectTimeoutRef h ≠ Some id ∧ heartbeatRef h ≠ Some id)
        as (Ht0 & N1 & N2).
      { unfold x, clear_if_set, clearTimer in Ht.
        destruct (reconnectTimeoutRef h) as [r|] eqn:Hr;
          destruct (heartbeatRef h) as [b|] eqn:Hb; simpl in Ht;
          rewrite ?Hb in Ht; simpl in Ht;
          repeat (apply lookup_delete_Some in Ht as [? Ht]);
          repeat split; congruence. }
      destruct (action t) eqn:Ha.
      + by destruct (W3 id t Ht0 Ha) as (?&_).
      + by destruct (W4 id t Ht0 Ha) as (?&_).
    - unfold x, clear_if_set, clearTimer.
      destruct (reconnectTimeoutRef h) as [r|] eqn:Hr;
        destruct (heartbeatRef h) as [b|] eqn:Hb; simpl;
        rewrite ?Hb; simpl; by repeat split. }
  clearbody x. rewrite X5.
  destruct (ws h) as [sid|] eqn:Hws.
  - unfold update_socket. rewrite X10.
    destruct (sockets h !! sid) as [s0|] eqn:Hs.
    + unfold inert, rendered, sent_on in *. simpl.
      rewrite length_insert. repeat split; try done.
      * intros sid' s' Hl. destruct (decide (sid = sid')) as [<-|Hne].
        -- rewrite list_lookup_insert_eq in Hl by (by eapply lookup_lt_Some).
           by simplify_eq.
        -- rewrite list_lookup_insert_ne in Hl by done.
           destruct (handlers s') eqn:Hh; [|done].
           pose proof (W2 sid' s' Hl Hh). congruence.
      * intros sid'. destruct (decide (sid = sid')) as [<-|Hne].
        -- rewrite list_lookup_insert_eq by (by eapply lookup_lt_Some).
           by rewrite Hs.
        -- by rewrite list_lookup_insert_ne.
    + unfold inert, sent_on. rewrite X10. repeat split; try done.
      intros sid' s' Hl. destruct (handlers s') eqn:Hh; [|done].
      pose proof (W2 sid' s' Hl Hh). congruence.
  - unfold inert, sent_on. rewrite X10. repeat split; try done.
    intros sid' s' Hl. destruct (handlers s') eqn:Hh; [|done].
    pose proof (W2 sid' s' Hl Hh). congruence.
Qed.

(** With nothing pending and no callbacks anywhere, little is needed. *)
Lemma inert_well_formed o h :
  options h = o → inert h →
  (∀ n, reconnectAttempts o = Some n → reconnectCount h ≤ n) →
  well_formed o h.
Proof.
  intros Ho [I1 I2] Hc. split; [done|].
  split; [|split; [|split; [|done]]].
  - intros sid s Hs Hh. rewrite (I2 sid s Hs) in Hh. done.
  - intros id t Ht. by rewrite I1, lookup_empty in Ht.
  - intros id t Ht. by rewrite I1, lookup_empty in Ht.
Qed.

Lemma hook_wf_cleanup o h : well_formed o h → well_formed o (cleanup h).
Proof.
  intros H. destruct (cleanup_spec o h H) as (C1&C2&_&_&_&C6&_).
  destruct H as (W1&_&_&_&W5).
  apply inert_well_formed; [by rewrite C2 | done | by rewrite C6].
Qed.

Lemma hook_wf_connect o h : well_formed o h → well_formed o (connect h).
Proof.
  intros H. destruct (cleanup_spec o h H) as ([I1 I2]&C2&_&_&_&C6&_).
  destruct H as (W1&_&_&_&W5). unfold connect. cbv zeta.
  generalize dependent (cleanup h). intros c I1 I2 C2 C6. simpl.
  rewrite C2, W1.
  destruct (constructible o).
  - split; [by simpl; rewrite C2|].
    split; [|split; [|split; [|by simpl; rewrite C6]]]; simpl.
    + intros sid s Hs Hh. apply lookup_app_Some in Hs as [Hs|[Hlen Hs]].
      * rewrite (I2 sid s Hs) in Hh. done.
      * apply list_lookup_singleton_Some in Hs as [Hs _]. f_equal. lia.
    + intros id t Ht. by rewrite I1, lookup_empty in Ht.
    + intros id t Ht. by rewrite I1, lookup_empty in Ht.
  - apply inert_well_formed; [by simpl; rewrite C2 | done | by simpl; rewrite C6].
Qed.

Lemma ws_send_fields f h :
  options (ws_send f h) = options h ∧ timers (ws_send f h) = timers h
  ∧ ws (ws_send f h) = ws h ∧ nextTimer (ws_send f h) = nextTimer h
  ∧ now (ws_send f h) = now h ∧ rendered (ws_send f h) = rendered h
  ∧ reconnectCount (ws_send f h) = reconnectCount h
  ∧ reconnectTimeoutRef (ws_send f h) = reconnectTimeoutRef h
  ∧ heartbeatRef (ws_send f h) = heartbeatRef h
  ∧ length (sockets (ws_send f h)) = length (sockets h)
  ∧ messageQueue (ws_send f h) = messageQueue h.
Proof.
  unfold ws_send, update_socket.
  destruct (ws h) as [sid|] eqn:Hws; [|by repeat split].
  destruct (sockets h !! sid); simpl; rewrite ?length_insert; by repeat split.
Qed.

Lemma flush_fields q : ∀ h,
  options (flush q h) = options h ∧ timers (flush q h) = timers h
  ∧ ws (flush q h) = ws h ∧ nextTimer (flush q h) = nextTimer h
  ∧ now (flush q h) = now h ∧ rendered (flush q h) = rendered h
  ∧ reconnectCount (flush q h) = reconnectCount h
  ∧ reconnectTimeoutRef (flush q h) = reconnectTimeoutRef h
  ∧ heartbeatRef (flush q h) = heartbeatRef h
  ∧ length (sockets (flush q h)) = length (sockets h).
Proof.
  induction q as [|m q IH]; intros h; simpl; [by repeat split|].
  destruct (ws_is_open h); [|by repeat split].
  destruct (IH (ws_send m (set_messageQueue q h)))
    as (F1&F2&F3&F4&F5&F6&F7&F8&F9&F10).
  destruct (ws_send_fields m (set_messageQueue q h))
    as (S1&S2&S3&S4&S5&S6&S7&S8&S9&S10&_).
  rewrite F1, F2, F3, F4, F5, F6, F7, F8, F9, F10.
  rewrite S1, S2, S3, S4, S5, S6, S7, S8, S9, S10.
  by repeat split.
Qed.

(** Sending changes no socket's readiness or callbacks. *)
Lemma flush_keeps_open q : ∀ h,
  (∀ sid s, sockets h !! sid = Some s → handlers s = true →
            readyState s = OPEN) →
  ∀ sid s, sockets (flush q h) !! sid = Some s → handlers s = true →
           readyState s = OPEN.
Proof.
  induction q as [|m q IH]; intros h Hopen sid' s' Hl Hh'; simpl in Hl.
  - by apply (Hopen sid' s').
  - destruct (ws_is_open h); [|by apply (Hopen sid' s')].
    revert Hl Hh'. apply IH. clear sid' s'. intros sid' s' Hl Hh'.
    unfold ws_send, update_socket in Hl. simpl in Hl.
    destruct (ws h) as [k|]; [|by apply (Hopen sid' s')].
    destruct (sockets h !! k) as [s0|] eqn:Hk; [|by apply (Hopen sid' s')].
    simpl in Hl. destruct (decide (k = sid')) as [<-|Hne].
    + rewrite list_lookup_insert_eq in Hl by (by eapply lookup_lt_Some).
      simplify_eq. simpl in *. by apply (Hopen k s0).
    + rewrite list_lookup_insert_ne in Hl by done. by apply (Hopen sid' s').
Qed.

Lemma hook_wf_flush o q : ∀ h, well_formed o h → well_formed o (flush q h).
Proof.
  induction q as [|m q IH]; intros h H; simpl; [done|].
  destruct (ws_is_open h); [|done].
  apply IH, hook_wf_ws_send. by apply hook_wf_same with h.
Qed.

Lemma hook_wf_sendMessage o m h :
  well_formed o h → well_formed o (sendMessage m h).
Proof.
  intros H. unfold sendMessage. destruct (ws_is_open h).
  - by apply hook_wf_ws_send.
  - by apply hook_wf_same with h.
Qed.

Lemma hook_wf_heartbeat_tick o h :
  well_formed o h → well_formed o (heartbeat_tick h).
Proof.
  intros H. unfold heartbeat_tick. destruct (ws_is_open h); [|done].
  by apply hook_wf_ws_send.
Qed.

Lemma reconnect_delay_capped o n :
  (reconnect_delay o n <= maxReconnectInterval o)%Q.
Proof. unfold reconnect_delay. apply Q.le_min_r. Qed.

End HookVariant.

Section HookVariantSteps.

Import UseWebSocket.

(** The socket in [ws] opens. *)
Lemma hook_wf_open o sid s h :
  well_formed o h →
  sockets h !! sid = Some s → handlers s = true → readyState s = CONNECTING →
  well_formed o (onopen (update_socket sid (with_readyState OPEN) h)).
Proof.
  intros H Hs Hh Hr.
  pose proof (hook_no_timer_while_connecting o sid s h H Hs Hh Hr) as Hnone.
  destruct H as (W1&W2&W3&W4&W5).
  assert (Hlen : sid < length (sockets h)) by (by eapply lookup_lt_Some).
  unfold update_socket. rewrite Hs. unfold onopen. cbv zeta.
  set (x := set_reconnectCount 0 _).
  assert (options x = o ∧ timers x = ∅ ∧ ws x = Some sid
          ∧ reconnectCount x = 0
          ∧ sockets x = <[sid := with_readyState OPEN s]> (sockets h))
    as (X1&X2&X3&X4&X5)
    by (unfold x; simpl; repeat split; try done; by apply (W2 sid s)).
  assert (well_formed o x) as Hx.
  { split; [done|]. split; [|split; [|split]].
    - intros sid' s' Hl Hh'. rewrite X3, X5 in *.
      destruct (decide (sid = sid')) as [<-|Hne]; [done|].
      rewrite list_lookup_insert_ne in Hl by done.
      pose proof (W2 sid' s' Hl Hh') as E1. pose proof (W2 sid s Hs Hh) as E2.
      congruence.
    - intros id t Ht. by rewrite X2, lookup_empty in Ht.
    - intros id t Ht. by rewrite X2, lookup_empty in Ht.
    - intros n Hn. rewrite X4. lia. }
  assert (∀ sid' s', sockets x !! sid' = Some s' → handlers s' = true →
                     readyState s' = OPEN) as Hopen.
  { intros sid' s' Hl Hh'. destruct Hx as (_&V2&_).
    pose proof (V2 sid' s' Hl Hh') as E. rewrite X3 in E. simplify_eq.
    rewrite X5, list_lookup_insert_eq in Hl by done. by simplify_eq. }
  clearbody x.
  pose proof (hook_wf_flush o (messageQueue x) x Hx) as Hf.
  destruct (flush_fields (messageQueue x) x) as (F1&F2&F3&F4&F5&_&F7&F8&F9&_).
  assert (∀ sid' s', sockets (flush (messageQueue x) x) !! sid' = Some s' →
                     handlers s' = true → readyState s' ≠ CONNECTING) as Hnc.
  { intros sid' s' Hl Hh'.
    by rewrite (flush_keeps_open _ _ Hopen sid' s' Hl Hh'). }
  generalize dependent (flush (messageQueue x) x).
  intros y Hy F1 F2 F3 F4 F5 F7 F8 F9 Hnc.
  unfold setupHeartbeat. destruct (Qlt_le_dec 0 _); [|done].
  unfold setTimer. simpl.
  destruct Hy as (V1&V2&V3&V4&V5).
  split; [done|]. split; [done|]. split; [|split; [|done]]; simpl.
  - intros id t Ht Ha.
    rewrite F2, X2 in Ht.
    apply lookup_insert_Some in Ht as [[_ <-]|[_ Ht]]; [done|].
    by rewrite lookup_empty in Ht.
  - intros id t Ht Ha.
    rewrite F2, X2 in Ht.
    apply lookup_insert_Some in Ht as [[<- _]|[_ Ht]];
      [|by rewrite lookup_empty in Ht].
    split; [done | exact Hnc].
Qed.

(** The socket in [ws] closes. *)
Lemma hook_wf_close o sid s h :
  well_formed o h →
  sockets h !! sid = Some s → handlers s = true → readyState s ≠ CLOSED →
  well_formed o (onclose (update_socket sid (with_readyState CLOSED) h)).
Proof.
  intros H Hs Hh Hr.
  pose proof (hook_no_retry_while_live o sid s h H Hs Hh Hr) as Hnone.
  destruct H as (W1&W2&W3&W4&W5).
  assert (Hlen : sid < length (sockets h)) by (by eapply lookup_lt_Some).
  unfold update_socket. rewrite Hs.
  assert (Hclosed : ∀ sid' s',
            <[sid := with_readyState CLOSED s]> (sockets h) !! sid' = Some s' →
            handlers s' = true → readyState s' = CLOSED ∧ ws h = Some sid').
  { intros sid' s' Hl Hh'. destruct (decide (sid = sid')) as [<-|Hne].
    - rewrite list_lookup_insert_eq in Hl by done. simplify_eq.
      split; [done | by apply (W2 sid s)].
    - rewrite list_lookup_insert_ne in Hl by done.
      pose proof (W2 sid' s' Hl Hh') as E1. pose proof (W2 sid s Hs Hh) as E2.
      congruence. }
  unfold onclose, may_retry. cbv zeta. simpl.
  assert (Hstay : well_formed o
            (set_status status_closed
               (set_sockets (<[sid := with_readyState CLOSED s]> (sockets h)) h))).
  { split; [done|]. split; [|split; [|split; [|done]]]; simpl.
    - intros sid' s' Hl Hh'. by destruct (Hclosed sid' s' Hl Hh').
    - intros id t Ht Ha. by destruct (Hnone id t Ht).
    - intros id t Ht Ha. destruct (W4 id t Ht Ha) as (R1&R2).
      split; [done|]. intros sid' s' Hl Hh'.
      destruct (Hclosed sid' s' Hl Hh') as [-> _]. done. }
  rewrite W1.
  assert (Hsched : (match reconnectAttempts o with
                    | Some n => reconnectCount h < n
                    | None => True
                    end) →
    well_formed o
      (set_reconnectTimeoutRef (Some (nextTimer h))
         (setTimer TReconnect (reconnect_delay o (reconnectCount h))
            (set_status status_reconnecting
               (set_reconnectCount (S (reconnectCount h))
                  (set_status status_closed
                     (set_sockets
                        (<[sid := with_readyState CLOSED s]> (sockets h))
                        h))))).2)).
  { intros Hlt. unfold setTimer. simpl.
    split; [done|]. split; [|split; [|split]]; simpl.
    - intros sid' s' Hl Hh'. by destruct (Hclosed sid' s' Hl Hh').
    - intros id t Ht Ha.
      apply lookup_insert_Some in Ht as [[<- <-]|[_ Ht]];
        [|by destruct (Hnone id t Ht)].
      split; [done|]. split; [apply reconnect_delay_capped|].
      intros sid' s' Hl Hh'. by destruct (Hclosed sid' s' Hl Hh').
    - intros id t Ht Ha.
      apply lookup_insert_Some in Ht as [[_ <-]|[_ Ht]]; [done|].
      destruct (W4 id t Ht Ha) as (R1&R2).
      split; [done|]. intros sid' s' Hl Hh'.
      destruct (Hclosed sid' s' Hl Hh') as [-> _]. done.
    - intros n Hn. rewrite Hn in Hlt. lia. }
  destruct (reconnectAttempts o) as [n|] eqn:Hn.
  - destruct (Nat.ltb_spec (reconnectCount h) n); [|done].
    by apply Hsched.
  - by apply Hsched.
Qed.

Lemma hook_wf_rearm o id t d due h :
  timers h !! id = Some t → action t = THeartbeat →
  well_formed o h →
  well_formed o (set_timers (<[id := mkTimer THeartbeat d due]> (timers h)) h).
Proof.
  intros Ht Ha (W1&W2&W3&W4&W5).
  split; [done|]. split; [done|]. split; [|split; [|done]]; simpl.
  - intros id' t' Hl Ha'.
    apply lookup_insert_Some in Hl as [[_ <-]|[_ Hl]]; [done|].
    by apply (W3 id' t').
  - intros id' t' Hl Ha'.
    apply lookup_insert_Some in Hl as [[<- _]|[_ Hl]];
      [by apply (W4 id t) | by apply (W4 id' t')].
Qed.

Lemma step_hook_well_formed o e h h' :
  well_formed o h → step e h = Some h' → well_formed o h'.
Proof.
  intros H Hstep. destruct e; cbn [step] in Hstep.
  - simplify_eq. by apply hook_wf_connect.
  - simplify_eq. by apply hook_wf_cleanup.
  - simplify_eq. by apply hook_wf_sendMessage.
  - destruct (sockets h !! sid) as [s|] eqn:Hs; [|done].
    destruct (readyState s) eqn:Hr; try done. simplify_eq.
    destruct (handlers s) eqn:Hh.
    + by apply (hook_wf_open o sid s).
    + apply (hook_wf_update_socket o sid s); [done|done| |done].
      intros Hh'. congruence.
  - destruct (sockets h !! sid) as [s|] eqn:Hs; [|done].
    assert (readyState s ≠ CLOSED →
            well_formed o
              (if handlers s
               then onclose (update_socket sid (with_readyState CLOSED) h)
               else update_socket sid (with_readyState CLOSED) h)) as Hx.
    { intros Hr. destruct (handlers s) eqn:Hh.
      - by apply (hook_wf_close o sid s).
      - apply (hook_wf_update_socket o sid s); [done|done| |done].
        intros Hh'. congruence. }
    destruct (readyState s); try done; simplify_eq; by apply Hx.
  - destruct (sockets h !! sid) as [s|] eqn:Hs; [|done].
    assert (well_formed o (if handlers s then onerror h else h)) as Hx
      by (destruct (handlers s); [by apply hook_wf_same with h | done]).
    destruct (readyState s); try done; by simplify_eq.
  - destruct (sockets h !! sid) as [s|] eqn:Hs; [|done].
    destruct (readyState s); try done. simplify_eq.
    destruct (handlers s); [|done]. unfold onmessage.
    destruct data; [done|]. by apply hook_wf_same with h.
  - destruct (timers h !! id) as [t|] eqn:Ht; [|done].
    destruct (Qle_bool _ _); [|done]. simplify_eq.
    unfold fire_timer. destruct (action t) eqn:Ha.
    + apply hook_wf_connect, hook_wf_fewer_timers; [|done].
      apply delete_subseteq.
    + by apply hook_wf_heartbeat_tick, (hook_wf_rearm o id t).
  - destruct (0 <=? ms)%Z; [|done]. simplify_eq.
    by apply hook_wf_same with h.
Qed.

Lemma run_hook_well_formed o es : ∀ h h',
  well_formed o h → run es h = Some h' → well_formed o h'.
Proof.
  induction es as [|e es IH]; intros h h' H Hrun; simpl in *.
  - by simplify_eq.
  - destruct (step e h) as [h1|] eqn:Hstep; [|done].
    eapply IH; [|done]. by eapply step_hook_well_formed.
Qed.

Lemma mounted_well_formed o u t0 es h :
  run es (new_hook o u t0) = Some h → well_formed o h.
Proof.
  apply run_hook_well_formed. split; [done|].
  split; [|split; [|split]]; simpl.
  - intros sid s Hs. by rewrite lookup_nil in Hs.
  - intros id t Ht. by rewrite lookup_empty in Ht.
  - intros id t Ht. by rewrite lookup_empty in Ht.
  - intros n _. lia.
Qed.

(** Flushing through an open socket transmits the whole queue in order. *)
Lemma flush_open sid q : ∀ s h,
  ws h = Some sid → sockets h !! sid = Some s → readyState s = OPEN →
  messageQueue h = q →
  flush q h
  = set_messageQueue []
      (set_sockets
         (<[sid := mkSocket (url s) OPEN (handlers s) (sent s ++ q)]>
            (sockets h)) h).
Proof.
  induction q as [|m q IH]; intros s h Hws Hs Hr Hq.
  - simpl. rewrite app_nil_r.
    replace (mkSocket (url s) OPEN (handlers s) (sent s)) with s
      by (destruct s; simpl in *; by subst).
    rewrite list_insert_id by done. destruct h; simpl in *; by subst.
  - simpl. unfold ws_is_open at 1. rewrite Hws, Hs. simpl. rewrite Hr.
    unfold ws_send, update_socket. simpl. rewrite Hws, Hs.
    assert (Hlen : sid < length (sockets h)) by (by eapply lookup_lt_Some).
    rewrite (IH (with_sent m s)); simpl;
      [|done|by rewrite list_lookup_insert_eq|done|done].
    rewrite list_insert_insert_eq, <- app_assoc. done.
Qed.

(** Nothing calls an inert hook back. *)
Lemma step_inert e h h' :
  is_mount e = false → inert h → step e h = Some h' →
  inert h' ∧ rendered h' = rendered h
  ∧ reconnectCount h' = reconnectCount h
  ∧ length (sockets h') = length (sockets h).
Proof.
  intros He [I1 I2] Hstep.
  assert (Hupd : ∀ sid f, (∀ s, handlers (f s) = handlers s) →
            inert (update_socket sid f h)
            ∧ rendered (update_socket sid f h) = rendered h
            ∧ reconnectCount (update_socket sid f h) = reconnectCount h
            ∧ length (sockets (update_socket sid f h)) = length (sockets h)).
  { intros sid f Hf. unfold update_socket.
    destruct (sockets h !! sid) as [s0|] eqn:Hs0; [|by repeat split].
    unfold inert. simpl. rewrite length_insert. repeat split; try done.
    intros sid' s' Hl. destruct (decide (sid = sid')) as [<-|Hne].
    - rewrite list_lookup_insert_eq in Hl by (by eapply lookup_lt_Some).
      simplify_eq. rewrite Hf. by apply (I2 sid).
    - rewrite list_lookup_insert_ne in Hl by done. by apply (I2 sid'). }
  destruct e; try discriminate He; cbn [step] in Hstep.
  - simplify_eq. unfold cleanup, clear_if_set, clearTimer. cbv zeta.
    assert (∀ x, timers x = ∅ → sockets x = sockets h →
                 rendered x = rendered h →
                 reconnectCount x = reconnectCount h →
                 inert (match ws x with
                        | Some sid => update_socket sid detach_and_close x
                        | None => x
                        end)
                 ∧ rendered (match ws x with
                             | Some sid => update_socket sid detach_and_close x
                             | None => x
                             end) = rendered h
                 ∧ reconnectCount (match ws x with
                             | Some sid => update_socket sid detach_and_close x
                             | None => x
                             end) = reconnectCount h
                 ∧ length (sockets (match ws x with
                             | Some sid => update_socket sid detach_and_close x
                             | None => x
                             end)) = length (sockets h)) as Hx.
    { intros x X1 X2 X3 X4. unfold inert.
      destruct (ws x) as [sid|]; [|rewrite X1, X2, X3, X4; by repeat split].
      unfold update_socket. rewrite X2.
      destruct (sockets h !! sid) as [s0|] eqn:Hs0;
        [|rewrite X1, X2, X3, X4; by repeat split].
      simpl. rewrite length_insert, X1. unfold rendered in *. simpl.
      repeat split; try done; try congruence.
      intros sid' s' Hl. destruct (decide (sid = sid')) as [<-|Hne].
      - rewrite list_lookup_insert_eq in Hl by (by eapply lookup_lt_Some).
        by simplify_eq.
      - rewrite list_lookup_insert_ne in Hl by done. by apply (I2 sid'). }
    apply Hx;
      destruct (reconnectTimeoutRef h) eqn:Hr, (heartbeatRef h) eqn:Hb; simpl;
      rewrite ?Hb; simpl; rewrite ?I1, ?delete_empty; done.
  - simplify_eq. unfold sendMessage. destruct (ws_is_open h).
    + unfold ws_send. destruct (ws h); [by apply Hupd | by repeat split].
    + by repeat split.
  - destruct (sockets h !! sid) as [s|] eqn:Hs; [|done].
    destruct (readyState s); try done. simplify_eq.
    rewrite (I2 sid s Hs). by apply Hupd.
  - destruct (sockets h !! sid) as [s|] eqn:Hs; [|done].
    rewrite (I2 sid s Hs) in Hstep.
    destruct (readyState s); try done; simplify_eq; by apply Hupd.
  - destruct (sockets h !! sid) as [s|] eqn:Hs; [|done].
    rewrite (I2 sid s Hs) in Hstep.
    destruct (readyState s); try done; simplify_eq; by repeat split.
  - destruct (sockets h !! sid) as [s|] eqn:Hs; [|done].
    rewrite (I2 sid s Hs) in Hstep.
    destruct (readyState s); try done; simplify_eq; by repeat split.
  - by rewrite I1, lookup_empty in Hstep.
  - destruct (0 <=? ms)%Z; [|done]. simplify_eq. by repeat split.
Qed.

Lemma run_inert es : ∀ h h',
  forallb (λ e, negb (is_mount e)) es = true →
  inert h → run es h = Some h' →
  inert h' ∧ rendered h' = rendered h
  ∧ reconnectCount h' = reconnectCount h
  ∧ length (sockets h') = length (sockets h).
Proof.
  induction es as [|e es IH]; intros h h' Hes H Hrun; simpl in *.
  - simplify_eq. split; [done | by repeat split].
  - apply andb_true_iff in Hes as [He Hes]. apply negb_true_iff in He.
    destruct (step e h) as [h1|] eqn:Hstep; [|done].
    destruct (step_inert _ _ _ He H Hstep) as (S1&S2&S3&S4).
    destruct (IH _ _ Hes S1 Hrun) as (R1&R2&R3&R4).
    rewrite R2, R3, R4, S2, S3, S4. split; [done | by repeat split].
Qed.

Lemma hook_sendMessage_closed m h :
  ws_is_open h = false →
  sendMessage m h = set_messageQueue (messageQueue h ++ [Stringified m]) h.
Proof. intros Hc. unfold sendMessage. by rewrite Hc. Qed.

Lemma hook_send_many_closed msgs : ∀ h,
  ws_is_open h = false →
  send_many msgs h
  = set_messageQueue (messageQueue h ++ map Stringified msgs) h.
Proof.
  induction msgs as [|m msgs IH]; intros h Hc; simpl.
  - rewrite app_nil_r. by destruct h.
  - fold (send_many msgs (sendMessage m h)).
    rewrite (hook_sendMessage_closed m h Hc), IH by done.
    simpl. by rewrite <- app_assoc.
Qed.

End HookVariantSteps.

(** * What the open event of a socket does *)

Section OpenEvent.

Lemma socket_is_open_same a b :
  socket a = socket b → sockets a = sockets b →
  socket_is_open a = socket_is_open b.
Proof.
  intros H1 H2. unfold socket_is_open, socket_readyState. by rewrite H1, H2.
Qed.

Lemma flushQueue_closed w : socket_is_open w = false → flushQueue w = Returned w.
Proof.
  intros H. unfold flushQueue. rewrite H. by destruct (_ =? _).
Qed.

(** Marking a socket other than the current one as open does not open
    the transport of the service. *)
Lemma socket_is_open_other sid s w :
  socket w ≠ Some sid →
  socket_is_open (set_sockets (<[sid := s]> (sockets w)) w) = socket_is_open w.
Proof.
  intros Hne. unfold socket_is_open, socket_readyState. simpl.
  destruct (socket w) as [cur|]; [|done].
  rewrite list_lookup_insert_ne; [done|]. intros ->. by apply Hne.
Qed.

(** The open event of any socket whose callbacks are set: what it always
    does, and what the flush does by the socket the service holds. *)
Lemma open_event_outcome sid s w :
  sockets w !! sid = Some s → readyState s = CONNECTING → handlers s = true →
  ∃ w',
    step (EvOpen sid) w = Some w'
    ∧ reconnectAttempts w' = 0
    ∧ state w' = connected
    ∧ lastConnectedAt w' = Some (now w)
    ∧ (∀ id, Ext id ∈ chan "connection" w →
             (id, status "connected") ∈ calls w')
    ∧ (∀ id, Ext id ∈ chan "*" w →
             (id, JObj [("event", JStr "connection");
                        ("data", status "connected")]) ∈ calls w')
    ∧ (∃ t, heartbeatTimer w' = Some t
            ∧ timers w' !! t
              = Some (mkTimer THeartbeat (heartbeatIntervalMs (cfg w))
                        (inject_Z (now w) + heartbeatIntervalMs (cfg w))))
    ∧ (socket w = Some sid →
         messageQueue w' = []
         ∧ sent_on sid w' = sent s ++ map frame_of (messageQueue w))
    ∧ (∀ cur c, socket w = Some cur → cur ≠ sid →
                sockets w !! cur = Some c → readyState c = OPEN →
         messageQueue w' = []
         ∧ sent_on cur w' = sent c ++ map frame_of (messageQueue w)
         ∧ sent_on sid w' = sent s)
    ∧ (socket w ≠ Some sid → socket_is_open w = false →
         messageQueue w' = messageQueue w
         ∧ ∀ sid', sent_on sid' w' = sent_on sid' w).
Proof.
  intros Hs Hr Hh.
  rewrite (step_open _ _ _ Hs Hr Hh), onopen_opened.
  pose (w0 := set_sockets (<[sid := with_readyState OPEN s]> (sockets w)) w).
  change (set_sockets (<[sid := with_readyState OPEN s]> (sockets w)) w) with w0.
  destruct (opened_fields w0) as (O1&O2&O3&O4&O5&O6&O7&O8&t&O9&O10).
  assert (Hlt : sid < length (sockets w)) by (by eapply lookup_lt_Some).
  assert (Hs0 : sockets (opened w0) !! sid = Some (with_readyState OPEN s)).
  { rewrite O3. unfold w0. simpl. by apply list_lookup_insert_eq. }
  assert (Hother : ∀ cur, cur ≠ sid →
            sockets (opened w0) !! cur = sockets w !! cur).
  { intros cur Hne. rewrite O3. unfold w0. simpl.
    by rewrite list_lookup_insert_ne. }
  assert (Hopen : socket w ≠ Some sid →
            socket_is_open (opened w0) = socket_is_open w).
  { intros Hne. rewrite (socket_is_open_same (opened w0) w0) by done.
    by apply socket_is_open_other. }
  pose proof (λ id, opened_calls_channel id w0) as Hcalls1.
  pose proof (λ id, opened_calls_wildcard id w0) as Hcalls2.
  change (chan "connection" w0) with (chan "connection" w) in Hcalls1.
  change (chan "*" w0) with (chan "*" w) in Hcalls2.
  change (now w0) with (now w) in *.
  change (cfg w0) with (cfg w) in *.
  change (messageQueue w0) with (messageQueue w) in *.
  change (socket w0) with (socket w) in *.
  assert (Hsent : ∀ sid', sent_on sid' (opened w0) = sent_on sid' w).
  { intros sid'. unfold sent_on. destruct (decide (sid' = sid)) as [->|Hne].
    - by rewrite Hs0, Hs.
    - by rewrite Hother. }
  clearbody w0.
  generalize dependent (opened w0).
  intros w3 O1 O2 O3 O4 O5 O6 O7 O8 O9 O10 Hs0 Hother Hopen Hcalls1 Hcalls2 Hsent.
  assert (Hcases :
    (socket w = Some sid ∧
       flushQueue w3 = Returned (set_messageQueue []
         (set_sockets (<[sid := mkSocket (url s) OPEN (handlers s)
                                  (sent s ++ map frame_of (messageQueue w))]>
                         (sockets w3)) w3)))
    ∨ (∃ cur c, socket w = Some cur ∧ cur ≠ sid ∧ sockets w !! cur = Some c
          ∧ readyState c = OPEN
          ∧ flushQueue w3 = Returned (set_messageQueue []
              (set_sockets (<[cur := mkSocket (url c) OPEN (handlers c)
                                  (sent c ++ map frame_of (messageQueue w))]>
                              (sockets w3)) w3)))
    ∨ (socket w ≠ Some sid ∧ socket_is_open w = false
       ∧ flushQueue w3 = Returned w3)).
  { destruct (decide (socket w = Some sid)) as [Hcur|Hcur].
    - left. split; [done|].
      rewrite (flushQueue_open sid _ w3 (eq_trans O2 Hcur) Hs0 eq_refl).
      by rewrite O4.
    - right. destruct (socket_is_open w) eqn:Ho.
      + left. unfold socket_is_open, socket_readyState in Ho.
        destruct (socket w) as [cur|] eqn:Hsock; [|done].
        destruct (sockets w !! cur) as [c|] eqn:Hc; [|done]. simpl in Ho.
        assert (readyState c = OPEN) as Hrc by (by destruct (readyState c)).
        assert (cur ≠ sid) as Hne by (intros ->; by apply Hcur).
        exists cur, c. repeat (split; [done|]).
        rewrite (flushQueue_open cur c w3); [by rewrite O4 | done | | done].
        by rewrite Hother.
      + right. split; [done|]. split; [done|].
        apply flushQueue_closed. by rewrite Hopen. }
  exists (world_of (flushQueue w3)). split; [reflexivity|].
  assert (Hframe : ∃ S Q, world_of (flushQueue w3)
                          = set_messageQueue Q (set_sockets S w3))
    by apply flushQueue_frame.
  destruct Hframe as (S & Q & HF).
  split; [by rewrite HF|]. split; [by rewrite HF|]. split; [by rewrite HF|].
  split; [intros id Hin; rewrite HF; by apply Hcalls1|].
  split; [intros id Hin; rewrite HF; by apply Hcalls2|].
  split; [exists t; rewrite HF; by split|].
  clear S Q HF.
  split; [|split].
  - intros Hcur.
    destruct Hcases as [[_ ->] | [(cur & c & Hsock & Hne & _) | (Hn & _)]];
      [| congruence | congruence].
    simpl. split; [done|]. unfold sent_on. simpl.
    by rewrite list_lookup_insert_eq by (by eapply lookup_lt_Some).
  - intros cur c Hsock Hne Hc Hrc.
    destruct Hcases as [[Hcur _] | [(cur' & c' & Hsock' & _ & Hc' & _ & ->) | (_ & Ho & _)]].
    + congruence.
    + assert (cur' = cur) as -> by congruence.
      assert (c' = c) as -> by congruence.
      simpl. split; [done|]. unfold sent_on. simpl.
      assert (cur < length (sockets w3)) as Hlt'.
      { eapply lookup_lt_Some. rewrite Hother; done. }
      rewrite list_lookup_insert_eq by done.
      split; [done|].
      rewrite list_lookup_insert_ne by done. by rewrite Hs0.
    + rewrite (socket_is_open_at cur c w Hsock Hc) in Ho.
      by rewrite bool_decide_eq_false in Ho.
  - intros Hcur Ho.
    destruct Hcases as [[Hc _] | [(cur & c & Hsock & _ & Hc & Hrc & _) | (_ & _ & ->)]].
    + congruence.
    + rewrite (socket_is_open_at cur c w Hsock Hc) in Ho.
      by rewrite bool_decide_eq_false in Ho.
    + simpl. split; [done|]. exact Hsent.
Qed.

End OpenEvent.

(** * A pending wait and the events that do not settle it *)

Section PendingWait.












(** waitForConnection touches neither the state nor the sockets. *)
Lemma waitForConnection_keeps_state timeoutMs w :
  state (waitForConnection timeoutMs w).2 = state w
  ∧ sockets (waitForConnection timeoutMs w).2 = sockets w.
Proof.
  unfold waitForConnection. cbv zeta.
  destruct (isConnected _).
  - cbn [snd]. unfold resolve. by destruct (_ !! _).
  - by rewrite (setTimer_eta _ _ _).
Qed.







End PendingWait.

(** * Nothing but a socket's open or close and [connect] moves the state *)

Section StateKept.

Lemma state_dispatched w w' : dispatched w w' → state w' = state w.
Proof. intros H. by destruct (dispatched_fields _ _ H) as (_&_&_&_&_&_&_&_&->&_). Qed.

Lemma state_emit event data w : state (emit event data w) = state w.
Proof. apply state_dispatched, emit_dispatched. Qed.

Lemma state_off event cb w : state (off event cb w) = state w.
Proof. apply state_dispatched, off_dispatched. Qed.

Lemma state_resolve p v w : state (resolve p v w) = state w.
Proof. apply state_dispatched, resolve_dispatched. Qed.

Lemma state_clear_if_set t w : state (clear_if_set t w) = state w.
Proof. by destruct t. Qed.

Lemma state_clearHeartbeat w : state (clearHeartbeat w) = state w.
Proof.
  unfold clearHeartbeat, clear_if_set, clearTimer.
  destruct (heartbeatTimer w) eqn:Hh, (pongTimeout w) eqn:Hp;
    repeat (simpl; rewrite ?Hh, ?Hp); reflexivity.
Qed.

Lemma state_update_socket sid f w : state (update_socket sid f w) = state w.
Proof. unfold update_socket. by destruct (_ !! _). Qed.

Lemma state_send event data w : state (world_of (send event data w)) = state w.
Proof.
  unfold send, socket_send. cbv zeta.
  repeat case_innermost; simpl; by rewrite ?state_update_socket.
Qed.

Lemma state_heartbeat_tick w : state (heartbeat_tick w) = state w.
Proof.
  unfold heartbeat_tick, socket_send, try_catch.
  repeat case_innermost; simpl;
    by rewrite ?state_clear_if_set, ?state_update_socket.
Qed.

Lemma state_pong_deadline w : state (pong_deadline w) = state w.
Proof.
  unfold pong_deadline, socket_close.
  destruct (socket w); [apply state_update_socket | done].
Qed.

Lemma state_wait_timeout p id w : state (wait_timeout p id w) = state w.
Proof. unfold wait_timeout. by rewrite state_resolve, state_off. Qed.

Lemma state_onmessage data w : state (onmessage data w) = state w.
Proof.
  unfold onmessage. destruct data as [raw|msg]; [done|].
  destruct msg; try done;
    match goal with
    | |- context [if ?b then _ else _] => destruct b
    end; by rewrite ?state_clear_if_set, ?state_emit.
Qed.

(** At the ceiling a close ends in [disconnected], asked for or not. *)
Lemma state_onclose_at_ceiling reason rnd w :
  maxReconnectAttempts (cfg w) ≤ reconnectAttempts w →
  state (onclose reason rnd w) = disconnected.
Proof.
  intros Hc. unfold onclose. cbv zeta.
  set (x0 := set_lastDisconnectedAt _ (clearHeartbeat (set_state disconnected w))).
  assert (F0 : cfg x0 = cfg w ∧ reconnectAttempts x0 = reconnectAttempts w
               ∧ state x0 = disconnected).
  { unfold x0, clearHeartbeat, clear_if_set, clearTimer.
    destruct (heartbeatTimer w) eqn:Hh, (pongTimeout w) eqn:Hp;
      repeat (simpl; rewrite ?Hh, ?Hp); by repeat split. }
  destruct F0 as (A1&A2&A3). clearbody x0.
  pose proof (emit_dispatched (JStr "connection")
    (JObj [("status", JStr "disconnected"); ("reason", JStr reason)]) x0) as HD.
  set (x := emit _ _ x0) in *. clearbody x.
  destruct (dispatched_fields _ _ HD) as (D1&_&_&D4&_&_&_&_&D9&_).
  destruct (manualClose x); [by rewrite D9|].
  unfold handleReconnect.
  destruct (Nat.leb_spec (maxReconnectAttempts (cfg x)) (reconnectAttempts x))
    as [_|Hlt]; [|rewrite D1, D4, A1, A2 in Hlt; lia].
  by rewrite state_emit, D9.
Qed.

Lemma state_fire_timer id t w :
  action t ≠ TReconnect → state (fire_timer id t w) = state w.
Proof.
  intros Ha. unfold fire_timer. destruct (action t); [done|..].
  - by rewrite state_heartbeat_tick.
  - by rewrite state_pong_deadline.
  - by rewrite state_wait_timeout.
Qed.

(** Once the service has given up, no event but an operator's request to
    open takes it out of [disconnected]. *)
Lemma step_stays_disconnected e w w' :
  quiescent w → state w = disconnected → operator_open e = false →
  step e w = Some w' → state w' = disconnected.
Proof.
  intros (Q1 & Q2 & Q3) Hst Hop Hstep.
  destruct e; try discriminate Hop; cbn [step] in Hstep.
  - simplify_eq. by destruct (disconnect_fields w) as (_&->&_).
  - simplify_eq. by rewrite state_send.
  - by simplify_eq.
  - by simplify_eq.
  - simplify_eq. by rewrite state_off.
  - simplify_eq.
    by destruct (waitForConnection_keeps_state timeoutMs w) as [-> _].
  - destruct (sockets w !! sid) as [s|] eqn:Hs; [|done].
    destruct (readyState s) eqn:Hr; try done. by destruct (Q3 _ _ Hs).
  - destruct (sockets w !! sid) as [s|] eqn:Hs; [|done].
    assert (∀ x, Some (if handlers s
                       then onclose reason rnd
                              (update_socket sid (with_readyState CLOSED) w)
                       else update_socket sid (with_readyState CLOSED) w)
                 = Some x → state x = disconnected) as Hx.
    { intros x [= <-]. destruct (handlers s).
      - apply state_onclose_at_ceiling.
        unfold update_socket. by destruct (_ !! _).
      - by rewrite state_update_socket. }
    destruct (readyState s); try done;
      destruct (valid_random rnd); try done; by apply Hx.
  - destruct (sockets w !! sid) as [s|] eqn:Hs; [|done].
    assert (∀ x, Some (if handlers s then onerror w else w) = Some x →
                 state x = disconnected) as Hx.
    { intros x [= <-]. destruct (handlers s); [|done].
      unfold onerror. by rewrite state_emit. }
    destruct (readyState s); try done; by apply Hx.
  - destruct (sockets w !! sid) as [s|] eqn:Hs; [|done].
    destruct (readyState s); try done. simplify_eq.
    destruct (handlers s); [|done]. by rewrite state_onmessage.
  - destruct (timers w !! id) as [t|] eqn:Ht; [|done].
    destruct (Qle_bool _ _); [|done]. simplify_eq.
    rewrite state_fire_timer; [done | by eapply Q2].
  - destruct (0 <=? ms)%Z; [|done]. by simplify_eq.
Qed.

Lemma run_stays_disconnected es : ∀ w w',
  quiescent w → state w = disconnected →
  forallb (λ e, negb (operator_open e)) es = true →
  run es w = Some w' → state w' = disconnected.
Proof.
  induction es as [|e es IH]; intros w w' HQ Hst Hes Hrun; simpl in *.
  - by simplify_eq.
  - apply andb_true_iff in Hes as [He Hes].
    apply negb_true_iff in He.
    destruct (step e w) as [w1|] eqn:Hstep; [|done].
    apply (IH w1 w'); [|by eapply step_stays_disconnected|done|done].
    eapply no_retry_quiescent; [exact HQ|]. by eapply step_no_retry.
Qed.

End StateKept.

(** * The claims *)

(** ** C1: the reconnection delay *)

(** C1, as the code has it.  Below the attempt ceiling handleReconnect
    increments the counter to [n] and schedules [connect] after
    [base * 2^(n-1) + jitter], computed in binary64: the product and the
    sum are each rounded, as are the product and the sum of the jitter
    [300 + rnd * 300].  The jitter is at least 300 and at most 600, and
    600 is reached, by rounding, for the draw just below one.  There is
    no cap.  With a base of at least 300 the delay does not shrink from
    one failed open to the next, and since there are at most
    [maxReconnectAttempts] retries it is at most the delay of the last
    attempt with a jitter of 600: 128600 for the constants of the class,
    which the eighth retry reaches.  Neither bound is strict: with a
    base of 300 the first two delays can both be 900. *)
Theorem reconnect_delay_is_uncapped_backoff (rnd : Q) (w : World) :
  (0 <= rnd)%Q → (rnd < 1)%Q →
  reconnectAttempts w < maxReconnectAttempts (cfg w) →
  let base := baseReconnectDelay (cfg w) in
  let n := S (reconnectAttempts w) in
  let w' := handleReconnect rnd w in
  reconnectAttempts w' = n
  ∧ (∃ t, timers w' !! nextTimer w = Some t
          ∧ action t = TReconnect
          ∧ delay t = reconnect_delay base n rnd
          ∧ (due t == inject_Z (now w) + delay t)%Q)
  ∧ reconnect_delay base n rnd
    = b64 (b64 (base * Qpower 2 (Z.of_nat n - 1)) + reconnect_jitter rnd)
  ∧ reconnect_jitter rnd = b64 (300 + b64 (rnd * 300))
  ∧ (300 <= reconnect_jitter rnd)%Q ∧ (reconnect_jitter rnd <= 600)%Q
  ∧ (reconnect_jitter (1 - (1 # 4503599627370496)) == 600)%Q
  ∧ (∀ rnd', (0 <= rnd')%Q → (rnd' < 1)%Q → (300 <= base)%Q →
       (reconnect_delay base n rnd <= reconnect_delay base (S n) rnd')%Q)
  ∧ ((0 <= base)%Q →
       (reconnect_delay base n rnd
        <= b64 (b64 (base * Qpower 2 (Z.of_nat (maxReconnectAttempts (cfg w)) - 1))
                + 600))%Q)
  ∧ (b64 (b64 (1000 * Qpower 2 (Z.of_nat 8 - 1)) + 600) == 128600)%Q
  ∧ (reconnect_delay 1000 8 (1 - (1 # 4503599627370496)) == 128600)%Q
  ∧ (reconnect_delay 300 1 (1 - (1 # 4503599627370496))
     == reconnect_delay 300 2 0)%Q.
Proof.
  intros H0 H1 Hlt base n w'.
  destruct (reconnect_jitter_bounds rnd H0 H1) as [Hj1 Hj2].
  assert (Hw' : w' = snd (setTimer TReconnect (reconnect_delay base n rnd)
                       (set_state reconnecting (set_reconnectAttempts n w)))).
  { unfold w', handleReconnect.
    destruct (Nat.leb_spec (maxReconnectAttempts (cfg w)) (reconnectAttempts w));
      [lia | reflexivity]. }
  split; [by rewrite Hw'|].
  split.
  { rewrite Hw'. simpl. rewrite lookup_insert_eq. eexists. split; [reflexivity|].
    simpl. repeat split; reflexivity. }
  split; [reflexivity|]. split; [reflexivity|].
  split; [exact Hj1|]. split; [exact Hj2|].
  split; [exact reconnect_jitter_attains_600|].
  split; [|split; [|split; [|split]; vm_compute; reflexivity]].
  - intros rnd' H0' H1' Hb. unfold n.
    by apply reconnect_delay_grows.
  - intros Hb. unfold reconnect_delay. cbv zeta.
    pose proof (backoff_product_mono base n (maxReconnectAttempts (cfg w)) Hb
                  ltac:(unfold n; lia)) as U.
    assert (0 <= base * Qpower 2 (Z.of_nat n - 1))%Q as Hp.
    { apply Qmult_le_0_compat; [done|]. apply Qlt_le_weak, pow2_pos. }
    pose proof (b64_nonneg _ Hp) as N.
    set (P := b64 (base * Qpower 2 (Z.of_nat n - 1))) in *.
    set (M := b64 (base * Qpower 2 (Z.of_nat (maxReconnectAttempts (cfg w)) - 1)))
      in *.
    set (j := reconnect_jitter rnd) in *. clearbody P M j.
    apply b64_mono; lra.
Qed.

Lemma reconnect_delay_is_uncapped_backoff_witness :
  let w := connect websocketService in
  let w' := handleReconnect (1 # 2) w in
  reconnectAttempts w' = 1
  ∧ (∃ t, timers w' !! nextTimer w = Some t
          ∧ action t = TReconnect
          ∧ delay t = reconnect_delay 1000 1 (1 # 2)
          ∧ (due t == inject_Z (now w) + delay t)%Q)
  ∧ reconnect_delay 1000 1 (1 # 2)
    = b64 (b64 (1000 * Qpower 2 (Z.of_nat 1 - 1)) + reconnect_jitter (1 # 2))
  ∧ reconnect_jitter (1 # 2) = b64 (300 + b64 ((1 # 2) * 300))
  ∧ (300 <= reconnect_jitter (1 # 2))%Q ∧ (reconnect_jitter (1 # 2) <= 600)%Q
  ∧ (reconnect_jitter (1 - (1 # 4503599627370496)) == 600)%Q
  ∧ (∀ rnd', (0 <= rnd')%Q → (rnd' < 1)%Q → (300 <= 1000)%Q →
       (reconnect_delay 1000 1 (1 # 2) <= reconnect_delay 1000 2 rnd')%Q)
  ∧ ((0 <= 1000)%Q →
       (reconnect_delay 1000 1 (1 # 2)
        <= b64 (b64 (1000 * Qpower 2 (Z.of_nat 8 - 1)) + 600))%Q)
  ∧ (b64 (b64 (1000 * Qpower 2 (Z.of_nat 8 - 1)) + 600) == 128600)%Q
  ∧ (reconnect_delay 1000 8 (1 - (1 # 4503599627370496)) == 128600)%Q
  ∧ (reconnect_delay 300 1 (1 - (1 # 4503599627370496))
     == reconnect_delay 300 2 0)%Q.
Proof.
  intros w w'.
  apply (reconnect_delay_is_uncapped_backoff (1 # 2) w).
  - vm_compute. discriminate.
  - reflexivity.
  - vm_compute. lia.
Defined.

(** C1 as stated fails: with a base of 1000 and the cap of 30000 of the
    design document, the sixth retry in a row is scheduled after 32300,
    which is neither the capped value nor below cap plus the largest
    jitter. *)
Lemma reconnect_delay_cap_counterexample :
  ∃ w t,
    run six_failed_opens websocketService = Some w
    ∧ reconnectAttempts w = 6
    ∧ timers w !! 6 = Some t
    ∧ action t = TReconnect
    ∧ (delay t == 32300)%Q
    ∧ ¬ (delay t == spec_delay 1000 30000 6 (reconnect_jitter 0))%Q
    ∧ ¬ (delay t < 30000 + 600)%Q.
Proof.
  eexists _, _. split; [vm_compute; reflexivity|].
  split; [reflexivity|]. split; [vm_compute; reflexivity|].
  split; [reflexivity|]. split; [reflexivity|].
  split; vm_compute; intros H; discriminate H.
Qed.

(** ** C2: what disconnect cancels *)

(** C2, as the code has it.  [disconnect] marks the closure as manual,
    cancels the two heartbeat timers, asks the current socket to close
    and drops it, empties the listener registry and sets the state to
    [disconnected].  It leaves every other timer pending, a scheduled
    retry among them, and it leaves the callbacks of every socket in
    place.  While the manual mark stands, that is until the next
    [connect], a close event that arrives late schedules nothing: it
    leaves the attempt counter and the sockets alone and adds no timer. *)
Theorem disconnect_cancels_heartbeat_only (w : World) :
  manualClose (disconnect w) = true
  ∧ state (disconnect w) = disconnected
  ∧ socket (disconnect w) = None
  ∧ listeners (disconnect w) = ∅
  ∧ heartbeatTimer (disconnect w) = None
  ∧ pongTimeout (disconnect w) = None
  ∧ (∀ id, heartbeatTimer w = Some id ∨ pongTimeout w = Some id →
           timers (disconnect w) !! id = None)
  ∧ (∀ id, heartbeatTimer w ≠ Some id → pongTimeout w ≠ Some id →
           timers (disconnect w) !! id = timers w !! id)
  ∧ (∀ sid s, sockets w !! sid = Some s →
              ∃ s', sockets (disconnect w) !! sid = Some s'
                    ∧ handlers s' = handlers s
                    ∧ (socket w = Some sid → readyState s' ≠ OPEN
                                             ∧ readyState s' ≠ CONNECTING))
  ∧ (∀ sid s reason rnd,
       sockets (disconnect w) !! sid = Some s →
       readyState s ≠ CLOSED → valid_random rnd = true →
       ∃ w', step (EvClose sid reason rnd) (disconnect w) = Some w'
             ∧ state w' = disconnected
             ∧ reconnectAttempts w' = reconnectAttempts w
             ∧ timers w' = timers (disconnect w)
             ∧ length (sockets w') = length (sockets w)).
Proof.
  destruct (disconnect_fields w) as (F1&F2&F3&F4&F5&F6&F7&F8&F9&F10&F11).
  destruct (clearHeartbeat_fields w) as (_&_&H1&H2&H3).
  split; [exact F1|]. split; [exact F2|]. split; [exact F3|].
  split; [exact F4|]. split; [exact F5|]. split; [exact F6|].
  split; [intros id [Hid|Hid]; rewrite F10; auto|].
  split; [intros id N1 N2; rewrite F10; auto|].
  assert (Hlen : length (sockets (disconnect w)) = length (sockets w)).
  { rewrite F11. destruct (socket w) as [sid|]; [|done].
    unfold socket_close, update_socket.
    destruct (sockets w !! sid); simpl; by rewrite ?length_insert. }
  split.
  - intros sid s Hs. rewrite F11.
    destruct (socket w) as [sid0|].
    + destruct (socket_close_lookup sid0 sid s w Hs)
        as (s' & Hs' & Hh & _ & _ & Hr & _).
      exists s'. split; [done|]. split; [done|].
      intros [= ->]. by apply Hr.
    + exists s. by repeat split.
  - intros sid s reason rnd Hs Hr Hv.
    destruct (late_close_while_manual sid s reason rnd (disconnect w)
                F1 F4 F5 F6 F2 Hs Hr Hv) as (w' & Hstep & R1 & R2 & R3 & R4).
    exists w'. rewrite <- F7, <- Hlen. by repeat split.
Qed.

(** C2 as stated fails.  After a manual reconnect the close event of
    the replaced socket still runs its callback: it moves the state of
    the service from [connecting] to [reconnecting], counts an attempt
    and schedules a retry.  And a retry that was pending when the
    operator disconnected still fires and opens a new socket. *)
Lemma stale_callback_counterexample :
  (∃ w w',
     run stale_close_after_replace websocketService = Some w
     ∧ socket w = Some 1 ∧ state w = connecting ∧ reconnectAttempts w = 0
     ∧ step (EvClose 0 "" 0) w = Some w'
     ∧ socket w' = Some 1 ∧ state w' = reconnecting
     ∧ reconnectAttempts w' = 1
     ∧ (action <$> timers w' !! 2) = Some TReconnect)
  ∧ (∃ w w',
     run disconnect_with_pending_retry websocketService = Some w
     ∧ state w = disconnected ∧ manualClose w = true ∧ socket w = None
     ∧ (action <$> timers w !! 1) = Some TReconnect
     ∧ step (EvTimer 1) w = Some w'
     ∧ state w' = connecting
     ∧ length (sockets w') = 2).
Proof.
  split.
  - eexists _, _. split; [vm_compute; reflexivity|].
    do 3 (split; [reflexivity|]). split; [vm_compute; reflexivity|].
    do 3 (split; [reflexivity|]). vm_compute; reflexivity.
  - eexists _, _. split; [vm_compute; reflexivity|].
    do 3 (split; [reflexivity|]). split; [vm_compute; reflexivity|].
    split; [vm_compute; reflexivity|]. split; reflexivity.
Qed.

(** ** C3: the guard of connect *)

(** C3, as the code has it.  [connect] returns at once, leaving the
    service as it is, exactly when the current socket is open; in every
    other case, a socket that is still connecting included, it
    constructs a new socket and makes it the current one, without
    closing the one it replaces. *)
Theorem connect_guard_is_open_socket (w : World) :
  (socket_is_open w = true → connect w = w)
  ∧ (socket_is_open w = false →
     sockets (connect w)
     = sockets w ++ [mkSocket (connection_url (platform w)) CONNECTING true []]
     ∧ socket (connect w) = Some (length (sockets w))
     ∧ state (connect w) = connecting).
Proof.
  split; intros Ho.
  - unfold connect. by rewrite Ho.
  - destruct (connect_constructs w Ho) as (C1 & C2 & C3 & _).
    by repeat split.
Qed.

(** C3 as stated fails while connecting: a second [connect] in state
    [connecting] constructs a second socket, and both are live. *)
Lemma connect_while_connecting_counterexample :
  ∃ w w',
    run [CallConnect] websocketService = Some w
    ∧ state w = connecting
    ∧ length (sockets w) = 1
    ∧ step CallConnect w = Some w'
    ∧ length (sockets w') = 2
    ∧ length (filter (λ s, live s = true) (sockets w')) = 2.
Proof.
  eexists _, _. split; [vm_compute; reflexivity|].
  split; [reflexivity|]. split; [reflexivity|].
  split; [vm_compute; reflexivity|]. split; vm_compute; reflexivity.
Qed.

(** ** C4: heartbeat frames and the dispatcher *)

(** C4, as the code has it.  An inbound frame of type [pong] is consumed:
    no subscriber is called, the registry is untouched, and the pending
    pong deadline is cancelled.  Every other type, the reserved [ping]
    included, is dispatched: the subscribers of that type are called with
    the frame and the wildcard subscribers with the wrapper. *)
Theorem onmessage_consumes_pong_only (msg : json) (t : string) (w : World) :
  prop "type" msg = Some (JStr t) →
  t ≠ "" →
  (t = "pong" →
     calls (onmessage (JSONText msg) w) = calls w
     ∧ listeners (onmessage (JSONText msg) w) = listeners w
     ∧ (∀ id, pongTimeout w = Some id →
              timers (onmessage (JSONText msg) w) !! id = None))
  ∧ (t ≠ "pong" →
     (∀ id, Ext id ∈ chan t w →
            (id, msg) ∈ calls (onmessage (JSONText msg) w))
     ∧ (∀ id, Ext id ∈ chan "*" w →
            (id, JObj [("event", JStr t); ("data", msg)])
            ∈ calls (onmessage (JSONText msg) w))).
Proof.
  intros Ht Hne.
  assert (Hmsg : onmessage (JSONText msg) w
                 = if String.eqb t "pong"
                   then clear_if_set (pongTimeout w) w
                   else emit (JStr t) msg w).
  { unfold onmessage. destruct msg; try discriminate Ht.
    rewrite Ht. simpl.
    destruct (String.eqb_spec t "") as [->|_]; [done|]. reflexivity. }
  rewrite Hmsg. split.
  - intros ->. simpl. unfold clear_if_set.
    destruct (pongTimeout w) as [p|]; simpl; [|done].
    repeat split; try done. intros id [= ->]. apply lookup_delete_eq.
  - intros Hnp. destruct (String.eqb_spec t "pong") as [->|_]; [done|].
    split; intros id Hin;
      [by apply emit_calls_channel | by apply emit_calls_wildcard].
Qed.

Lemma onmessage_consumes_pong_only_witness :
  let msg := JObj [("type", JStr "ping")] in
  let w := on "*" (Ext 7) websocketService in
  ("ping" = "pong" →
     calls (onmessage (JSONText msg) w) = calls w
     ∧ listeners (onmessage (JSONText msg) w) = listeners w
     ∧ (∀ id, pongTimeout w = Some id →
              timers (onmessage (JSONText msg) w) !! id = None))
  ∧ ("ping" ≠ "pong" →
     (∀ id, Ext id ∈ chan "ping" w →
            (id, msg) ∈ calls (onmessage (JSONText msg) w))
     ∧ (∀ id, Ext id ∈ chan "*" w →
            (id, JObj [("event", JStr "ping"); ("data", msg)])
            ∈ calls (onmessage (JSONText msg) w))).
Proof.
  intros msg w.
  apply (onmessage_consumes_pong_only msg "ping" w).
  - reflexivity.
  - discriminate.
Defined.

(** C4 as stated fails for [ping]: the wildcard subscriber is called
    with the inbound [ping] frame. *)
Lemma inbound_ping_counterexample :
  ∃ w,
    run inbound_ping websocketService = Some w
    ∧ (7, JObj [("event", JStr "ping");
                ("data", JObj [("type", JStr "ping")])]) ∈ calls w.
Proof.
  eexists. split; [vm_compute; reflexivity|].
  apply list_elem_of_In. simpl. right. left. reflexivity.
Qed.

(** ** C5: the bounded queue and its flush *)

(** C5, as the code has it.  What [send] looks at is the socket the
    service holds, not the state.  For a queue bound [N] of at least
    one, sending [N + k] messages while that socket is missing or not
    open leaves exactly the last [N] of them in the queue, oldest first;
    the queue never grows beyond [N] on the way and nothing is
    transmitted.  When a socket then opens with that queue, the flush
    goes through the socket the service holds at that moment: if that
    is the socket that opened, or another one that is open, exactly
    those messages are transmitted through it in that order, each as
    [{type, data}], and the queue is emptied; if the service holds no
    socket or one that is not open, nothing is transmitted and the
    queue stays as it is. *)
Theorem queue_keeps_newest_and_flushes_in_order
    (N k : nat) (msgs : list Message) (w : World) :
  maxQueueSize (cfg w) = N → 1 ≤ N →
  length (messageQueue w) ≤ N →
  socket_is_open w = false →
  length msgs = N + k →
  let frames :=
    map (λ m, Stringified (JObj [("type", JStr (msg_type m));
                                 ("data", msg_data m)])) (drop k msgs) in
  messageQueue (send_many msgs w) = drop k msgs
  ∧ (∀ n, length (messageQueue (send_many (take n msgs) w)) ≤ N)
  ∧ (∀ sid, sent_on sid (send_many msgs w) = sent_on sid w)
  ∧ (∀ w' sid s,
       messageQueue w' = messageQueue (send_many msgs w) →
       sockets w' !! sid = Some s →
       readyState s = CONNECTING → handlers s = true →
       ∃ w2, step (EvOpen sid) w' = Some w2
             ∧ (socket w' = Some sid →
                  sent_on sid w2 = sent s ++ frames
                  ∧ messageQueue w2 = [])
             ∧ (∀ cur c, socket w' = Some cur → cur ≠ sid →
                         sockets w' !! cur = Some c → readyState c = OPEN →
                  sent_on cur w2 = sent c ++ frames
                  ∧ sent_on sid w2 = sent s
                  ∧ messageQueue w2 = [])
             ∧ (socket w' ≠ Some sid → socket_is_open w' = false →
                  messageQueue w2 = drop k msgs
                  ∧ ∀ sid', sent_on sid' w2 = sent_on sid' w')).
Proof.
  intros HN Hpos Hq Hclosed Hlen frames.
  assert (Hlast : messageQueue (send_many msgs w) = drop k msgs).
  { rewrite send_many_closed by (rewrite ?HN; done). simpl.
    unfold keep_last. rewrite HN, length_app, Hlen.
    replace (length (messageQueue w) + (N + k) - N)
      with (length (messageQueue w) + k) by lia.
    rewrite <- drop_drop, drop_app_length. reflexivity. }
  split; [exact Hlast|]. split; [|split].
  - intros n. rewrite send_many_closed by (rewrite ?HN; done). simpl.
    rewrite HN. apply keep_last_length.
  - intros sid. by rewrite send_many_closed by (rewrite ?HN; done).
  - intros w' sid s Hq' Hs Hr Hh.
    destruct (open_event_outcome sid s w' Hs Hr Hh)
      as (w2 & Hstep & _ & _ & _ & _ & _ & _ & F1 & F2 & F3).
    rewrite Hq', Hlast in F1, F2, F3.
    exists w2. split; [exact Hstep|]. split; [|split].
    + intros Hcur. by destruct (F1 Hcur).
    + intros cur c Hcur Hne Hc Hrc.
      by destruct (F2 cur c Hcur Hne Hc Hrc) as (? & ? & ?).
    + exact F3.
Qed.

Lemma queue_keeps_newest_and_flushes_in_order_witness :
  let w := connect (new_WebSocketService (mkConfig 8 1000 15000 12000 2)
                      demo_platform 0) in
  let msgs := [mkMessage "alert" (JNum 1); mkMessage "alert" (JNum 2);
               mkMessage "alert" (JNum 3)] in
  let frames :=
    map (λ m, Stringified (JObj [("type", JStr (msg_type m));
                                 ("data", msg_data m)])) (drop 1 msgs) in
  messageQueue (send_many msgs w) = drop 1 msgs
  ∧ (∀ n, length (messageQueue (send_many (take n msgs) w)) ≤ 2)
  ∧ (∀ sid, sent_on sid (send_many msgs w) = sent_on sid w)
  ∧ (∀ w' sid s,
       messageQueue w' = messageQueue (send_many msgs w) →
       sockets w' !! sid = Some s →
       readyState s = CONNECTING → handlers s = true →
       ∃ w2, step (EvOpen sid) w' = Some w2
             ∧ (socket w' = Some sid →
                  sent_on sid w2 = sent s ++ frames
                  ∧ messageQueue w2 = [])
             ∧ (∀ cur c, socket w' = Some cur → cur ≠ sid →
                         sockets w' !! cur = Some c → readyState c = OPEN →
                  sent_on cur w2 = sent c ++ frames
                  ∧ sent_on sid w2 = sent s
                  ∧ messageQueue w2 = [])
             ∧ (socket w' ≠ Some sid → socket_is_open w' = false →
                  messageQueue w2 = drop 1 msgs
                  ∧ ∀ sid', sent_on sid' w2 = sent_on sid' w')).
Proof.
  intros w msgs.
  apply (queue_keeps_newest_and_flushes_in_order 2 1 msgs w).
  - reflexivity.
  - lia.
  - simpl. lia.
  - reflexivity.
  - reflexivity.
Defined.

(** C5 as stated fails in three ways.  While the service is
    [reconnecting] over an open socket, so not connected, 101 messages
    sent with the bound of 100 are all transmitted and none is queued.
    When the socket that opens is one the service has replaced, the
    state becomes [connected] but the queued message is neither
    transmitted nor taken out.  And with a bound of zero one message
    sent while connecting stays in the queue. *)
Lemma queue_by_state_counterexample :
  (run stale_close_after_reopen websocketService = Some reconnecting_while_open
   ∧ state reconnecting_while_open = reconnecting
   ∧ maxQueueSize (cfg reconnecting_while_open) = 100
   ∧ length (numbered_alerts 101) = 100 + 1
   ∧ messageQueue (send_many (numbered_alerts 101) reconnecting_while_open) = []
   ∧ messageQueue (send_many (numbered_alerts 101) reconnecting_while_open)
     ≠ drop 1 (numbered_alerts 101)
   ∧ length (sent_on 1 (send_many (numbered_alerts 101) reconnecting_while_open))
     = 101)
  ∧ (run open_of_replaced_socket websocketService = Some after_replaced_open
     ∧ state after_replaced_open = connected
     ∧ messageQueue after_replaced_open = [mkMessage "alert" (JNum 1)]
     ∧ sent_on 0 after_replaced_open = []
     ∧ sent_on 1 after_replaced_open = [])
  ∧ (maxQueueSize (cfg connecting_without_queue) = 0
     ∧ state connecting_without_queue = connecting
     ∧ messageQueue (send_many [mkMessage "alert" (JNum 1)]
                       connecting_without_queue)
       = [mkMessage "alert" (JNum 1)]).
Proof.
  split; [|split].
  - split; [vm_compute; reflexivity|]. split; [vm_compute; reflexivity|].
    split; [vm_compute; reflexivity|]. split; [vm_compute; reflexivity|].
    split; [vm_compute; reflexivity|].
    split; [vm_compute; discriminate|]. vm_compute. reflexivity.
  - split; [vm_compute; reflexivity|]. split; [vm_compute; reflexivity|].
    split; [vm_compute; reflexivity|]. split; vm_compute; reflexivity.
  - split; [vm_compute; reflexivity|]. split; vm_compute; reflexivity.
Qed.

(** ** C6: send and the state of the transport *)

(** C6, as the code has it.  [send] never throws.  It decides by the
    transport, not by the connection state: when the current socket is
    missing or not open the message is enqueued under the queue bound and
    nothing is transmitted; when the current socket is open the envelope
    [{type, data}] is serialised and transmitted at once and the queue is
    left alone. *)
Theorem send_decides_by_transport (event : string) (data : json) (w : World) :
  (∃ w', send event data w = Returned w')
  ∧ (socket_is_open w = false →
     ∃ w', send event data w = Returned w'
           ∧ messageQueue w'
             = bounded_push (maxQueueSize (cfg w)) (messageQueue w)
                 (mkMessage event data)
           ∧ sockets w' = sockets w)
  ∧ (socket_is_open w = true →
     ∃ sid w', socket w = Some sid
           ∧ send event data w = Returned w'
           ∧ sent_on sid w'
             = sent_on sid w
               ++ [Stringified (JObj [("type", JStr event); ("data", data)])]
           ∧ messageQueue w' = messageQueue w).
Proof.
  assert (Hopen : socket_is_open w = true →
     ∃ sid w', socket w = Some sid
           ∧ send event data w = Returned w'
           ∧ sent_on sid w'
             = sent_on sid w
               ++ [Stringified (JObj [("type", JStr event); ("data", data)])]
           ∧ messageQueue w' = messageQueue w).
  { intros Ho. destruct (proj1 (socket_is_open_true w) Ho)
      as (sid & s & Hsock & Hs & Hr).
    exists sid. unfold send. rewrite Ho, Hsock.
    unfold socket_send. rewrite Hs, Hr.
    eexists. split; [done|]. split; [reflexivity|].
    rewrite (update_socket_at _ _ _ _ Hs). unfold sent_on. simpl.
    rewrite Hs, list_lookup_insert_eq by (by eapply lookup_lt_Some).
    split; reflexivity. }
  assert (Hclosed : socket_is_open w = false →
     ∃ w', send event data w = Returned w'
           ∧ messageQueue w'
             = bounded_push (maxQueueSize (cfg w)) (messageQueue w)
                 (mkMessage event data)
           ∧ sockets w' = sockets w).
  { intros Hc. rewrite send_closed_queue by done.
    eexists. split; [reflexivity|]. split; reflexivity. }
  split; [|split; assumption].
  destruct (socket_is_open w) eqn:Ho.
  - destruct (Hopen eq_refl) as (sid & w' & _ & Hsend & _). by exists w'.
  - destruct (Hclosed eq_refl) as (w' & Hsend & _). by exists w'.
Qed.

(** C6 as stated fails in both directions.  In a reachable state that is
    [connected], [send] queues the message and transmits nothing; in a
    reachable state that is [reconnecting], [send] transmits at once and
    queues nothing. *)
Lemma send_by_state_counterexample :
  (∃ w w',
     run closing_while_connected websocketService = Some w
     ∧ state w = connected
     ∧ send "alert" (JNum 1) w = Returned w'
     ∧ messageQueue w' = [mkMessage "alert" (JNum 1)]
     ∧ sockets w' = sockets w)
  ∧ (∃ w w',
     run stale_close_after_reopen websocketService = Some w
     ∧ state w = reconnecting
     ∧ send "alert" (JNum 1) w = Returned w'
     ∧ messageQueue w' = []
     ∧ sent_on 1 w' = [frame_of (mkMessage "alert" (JNum 1))]).
Proof.
  split.
  - eexists _, _. split; [vm_compute; reflexivity|].
    split; [reflexivity|]. split; [vm_compute; reflexivity|].
    split; reflexivity.
  - eexists _, _. split; [vm_compute; reflexivity|].
    split; [reflexivity|]. split; [vm_compute; reflexivity|].
    split; reflexivity.
Qed.

(** ** C7: what a successful open does *)

(** C7, as the code has it.  When a socket whose callbacks the service
    has set opens, whether or not it is the socket the service holds,
    the attempt counter is 0 whatever it was before, the state is
    [connected], the time of the open is recorded, every subscriber of
    [connection] is called with [{status: "connected"}] (and every
    wildcard subscriber with its wrapper) and the heartbeat interval is
    armed.  The flush goes through the socket the service holds: when
    that is the socket that opened, or another one that is open, the
    queue is transmitted through it in order, each message as
    [{type, data}], and left empty; when the service holds no socket or
    one that is not open, as after the open of a socket that a second
    [connect] has replaced, nothing is transmitted and the queue is left
    as it is. *)
Theorem open_success_resets_and_flushes (sid : nat) (s : Socket) (w : World) :
  sockets w !! sid = Some s →
  readyState s = CONNECTING →
  handlers s = true →
  let frames :=
    map (λ m, Stringified (JObj [("type", JStr (msg_type m));
                                 ("data", msg_data m)])) (messageQueue w) in
  ∃ w',
    step (EvOpen sid) w = Some w'
    ∧ reconnectAttempts w' = 0
    ∧ state w' = connected
    ∧ lastConnectedAt w' = Some (now w)
    ∧ (∀ id, Ext id ∈ chan "connection" w →
             (id, JObj [("status", JStr "connected")]) ∈ calls w')
    ∧ (∀ id, Ext id ∈ chan "*" w →
             (id, JObj [("event", JStr "connection");
                        ("data", JObj [("status", JStr "connected")])])
             ∈ calls w')
    ∧ (∃ t, heartbeatTimer w' = Some t
            ∧ timers w' !! t
              = Some (mkTimer THeartbeat (heartbeatIntervalMs (cfg w))
                        (inject_Z (now w) + heartbeatIntervalMs (cfg w))))
    ∧ (socket w = Some sid →
         messageQueue w' = [] ∧ sent_on sid w' = sent s ++ frames)
    ∧ (∀ cur c, socket w = Some cur → cur ≠ sid →
                sockets w !! cur = Some c → readyState c = OPEN →
         messageQueue w' = []
         ∧ sent_on cur w' = sent c ++ frames
         ∧ sent_on sid w' = sent s)
    ∧ (socket w ≠ Some sid → socket_is_open w = false →
         messageQueue w' = messageQueue w
         ∧ ∀ sid', sent_on sid' w' = sent_on sid' w).
Proof.
  intros Hs Hr Hh frames.
  exact (open_event_outcome sid s w Hs Hr Hh).
Qed.

Lemma open_success_resets_and_flushes_witness :
  let w := world_of (send "alert" (JNum 2)
             (on "connection" (Ext 5)
                (set_reconnectAttempts 3 (connect websocketService)))) in
  let frames :=
    map (λ m, Stringified (JObj [("type", JStr (msg_type m));
                                 ("data", msg_data m)])) (messageQueue w) in
  ∃ w',
    step (EvOpen 0) w = Some w'
    ∧ reconnectAttempts w' = 0
    ∧ state w' = connected
    ∧ lastConnectedAt w' = Some (now w)
    ∧ (∀ id, Ext id ∈ chan "connection" w →
             (id, JObj [("status", JStr "connected")]) ∈ calls w')
    ∧ (∀ id, Ext id ∈ chan "*" w →
             (id, JObj [("event", JStr "connection");
                        ("data", JObj [("status", JStr "connected")])])
             ∈ calls w')
    ∧ (∃ t, heartbeatTimer w' = Some t
            ∧ timers w' !! t
              = Some (mkTimer THeartbeat (heartbeatIntervalMs (cfg w))
                        (inject_Z (now w) + heartbeatIntervalMs (cfg w))))
    ∧ (socket w = Some 0 →
         messageQueue w' = [] ∧ sent_on 0 w' = [] ++ frames)
    ∧ (∀ cur c, socket w = Some cur → cur ≠ 0 →
                sockets w !! cur = Some c → readyState c = OPEN →
         messageQueue w' = []
         ∧ sent_on cur w' = sent c ++ frames
         ∧ sent_on 0 w' = [])
    ∧ (socket w ≠ Some 0 → socket_is_open w = false →
         messageQueue w' = messageQueue w
         ∧ ∀ sid', sent_on sid' w' = sent_on sid' w).
Proof.
  intros w.
  apply (open_success_resets_and_flushes 0
           (mkSocket "wss://ids.example/ws" CONNECTING true []) w);
    vm_compute; reflexivity.
Defined.

(** C7 as stated fails for the open of a socket that has been replaced.
    After a second [connect] while the first socket was connecting, the
    open of the first socket resets the counter, sets the state to
    [connected] and arms the heartbeat, but the message queued meanwhile
    is not flushed: it stays in the queue and no socket has transmitted
    anything. *)
Lemma replaced_socket_open_counterexample :
  run open_of_replaced_socket websocketService = Some after_replaced_open
  ∧ socket after_replaced_open = Some 1
  ∧ (readyState <$> sockets after_replaced_open !! 0) = Some OPEN
  ∧ (readyState <$> sockets after_replaced_open !! 1) = Some CONNECTING
  ∧ state after_replaced_open = connected
  ∧ reconnectAttempts after_replaced_open = 0
  ∧ heartbeatTimer after_replaced_open = Some 1
  ∧ messageQueue after_replaced_open = [mkMessage "alert" (JNum 1)]
  ∧ messageQueue after_replaced_open ≠ []
  ∧ sent_on 0 after_replaced_open = []
  ∧ sent_on 1 after_replaced_open = [].
Proof.
  split; [vm_compute; reflexivity|]. split; [vm_compute; reflexivity|].
  split; [vm_compute; reflexivity|]. split; [vm_compute; reflexivity|].
  split; [vm_compute; reflexivity|]. split; [vm_compute; reflexivity|].
  split; [vm_compute; reflexivity|]. split; [vm_compute; reflexivity|].
  split; [vm_compute; discriminate|]. split; vm_compute; reflexivity.
Qed.

(** ** C8: waitForConnection *)




(** ** C9: the retry ceiling *)

(** C9, as the code has it.  When a close arrives that was not asked for
    and the attempt counter has reached the ceiling, no retry is
    scheduled: the state is [disconnected], the subscribers of
    [connection] are told [{status: "failed"}], the counter is left as
    it is, and no retry timer or socket is added.  What follows needs that
    nothing is left over from before: with no retry pending and no
    other socket on its way to open, no run of events brings a
    reconnection unless it contains a call of [connect] or
    [forceReconnect]: the state stays [disconnected], no socket is
    constructed, no socket starts to connect and no retry timer
    appears. *)
Theorem retry_ceiling_stops_reconnection
    (sid : nat) (s : Socket) (reason : string) (rnd : Q) (w : World) :
  maxReconnectAttempts (cfg w) ≤ reconnectAttempts w →
  manualClose w = false →
  sockets w !! sid = Some s → readyState s ≠ CLOSED → handlers s = true →
  valid_random rnd = true →
  ∃ w',
    step (EvClose sid reason rnd) w = Some w'
    ∧ state w' = disconnected
    ∧ reconnectAttempts w' = reconnectAttempts w
    ∧ (∀ id, Ext id ∈ chan "connection" w →
             (id, JObj [("status", JStr "failed")]) ∈ calls w')
    ∧ length (sockets w') = length (sockets w)
    ∧ (∀ id t, timers w' !! id = Some t → action t = TReconnect →
               timers w !! id = Some t)
    ∧ ((∀ id t, timers w !! id = Some t → action t ≠ TReconnect) →
       (∀ sid' s', sockets w !! sid' = Some s' → sid' ≠ sid →
                   readyState s' ≠ CONNECTING) →
       (∀ id t, timers w' !! id = Some t → action t ≠ TReconnect)
       ∧ (∀ es w'',
            forallb (λ e, negb (operator_open e)) es = true →
            run es w' = Some w'' →
            state w'' = disconnected
            ∧ length (sockets w'') = length (sockets w)
            ∧ (∀ id t, timers w'' !! id = Some t → action t ≠ TReconnect)
            ∧ (∀ sid' s', sockets w'' !! sid' = Some s' →
                          readyState s' ≠ CONNECTING))).
Proof.
  intros Hc Hm Hs Hr Hh Hv.
  rewrite (step_close _ _ _ _ _ Hs Hr Hv). cbv zeta. rewrite Hh.
  set (w0 := set_sockets (<[sid := with_readyState CLOSED s]> (sockets w)) w).
  assert (Q0 : (∀ id t, timers w !! id = Some t → action t ≠ TReconnect) →
               (∀ sid' s', sockets w !! sid' = Some s' → sid' ≠ sid →
                           readyState s' ≠ CONNECTING) →
               quiescent w0).
  { intros Ht Ho. split; [exact Hc|]. split; [exact Ht|].
    intros sid' s' Hs'. unfold w0 in Hs'. simpl in Hs'.
    destruct (decide (sid = sid')) as [Heq|Hne].
    - subst sid'.
      rewrite list_lookup_insert_eq in Hs' by (by eapply lookup_lt_Some).
      by simplify_eq.
    - rewrite list_lookup_insert_ne in Hs' by done. by eapply Ho. }
  assert (L0 : length (sockets w0) = length (sockets w))
    by (unfold w0; simpl; by rewrite length_insert).
  assert (C0 : ∀ c, chan c w0 = chan c w) by done.
  assert (A0 : reconnectAttempts w0 = reconnectAttempts w) by done.
  assert (T0 : timers w0 = timers w) by done.
  assert (M0 : manualClose w0 = false) by exact Hm.
  assert (N0 : maxReconnectAttempts (cfg w0) ≤ reconnectAttempts w0) by exact Hc.
  clearbody w0.
  destruct (onclose_at_ceiling reason rnd w0 N0 M0) as (R1 & R2 & _ & R4).
  pose proof (no_retry_onclose w0 reason rnd w0 N0 (no_retry_refl w0)) as NR.
  set (w' := onclose reason rnd w0) in *. clearbody w'.
  exists w'. split; [reflexivity|]. split; [exact R1|].
  split; [by rewrite R2|].
  split; [intros id Hin; apply R4; by rewrite C0|].
  destruct NR as (N1 & N2 & N3 & N4 & N5).
  split; [by rewrite N3|].
  split; [intros id t Ht Ha; rewrite <- T0; by apply N4|].
  intros Ht Ho.
  pose proof (no_retry_quiescent _ _ (Q0 Ht Ho)
                (conj N1 (conj N2 (conj N3 (conj N4 N5))))) as Q1.
  split; [by destruct Q1 as (_ & Q1b & _)|].
  intros es w'' Hes Hrun.
  pose proof (run_no_retry es w' w'' Q1 Hes Hrun) as NR'.
  destruct (no_retry_quiescent _ _ Q1 NR') as (_ & Q2b & Q2c).
  destruct NR' as (_ & _ & N3' & _).
  split; [by apply (run_stays_disconnected es w' w'')|].
  split; [by rewrite N3', N3|]. split; [exact Q2b | exact Q2c].
Qed.

Lemma retry_ceiling_stops_reconnection_witness :
  ∃ w',
    step (EvClose 8 "" 0) at_ceiling = Some w'
    ∧ state w' = disconnected
    ∧ reconnectAttempts w' = reconnectAttempts at_ceiling
    ∧ (∀ id, Ext id ∈ chan "connection" at_ceiling →
             (id, JObj [("status", JStr "failed")]) ∈ calls w')
    ∧ length (sockets w') = length (sockets at_ceiling)
    ∧ (∀ id t, timers w' !! id = Some t → action t = TReconnect →
               timers at_ceiling !! id = Some t)
    ∧ (∀ id t, timers w' !! id = Some t → action t ≠ TReconnect)
    ∧ (∀ es w'',
         forallb (λ e, negb (operator_open e)) es = true →
         run es w' = Some w'' →
         state w'' = disconnected
         ∧ length (sockets w'') = length (sockets at_ceiling)
         ∧ (∀ id t, timers w'' !! id = Some t → action t ≠ TReconnect)
         ∧ (∀ sid' s', sockets w'' !! sid' = Some s' →
                       readyState s' ≠ CONNECTING)).
Proof.
  destruct (retry_ceiling_stops_reconnection 8
              (mkSocket "wss://ids.example/ws" CONNECTING true []) "" 0
              at_ceiling)
    as (w' & H1 & H2 & H3 & H4 & H5 & H6 & H7).
  - vm_compute. lia.
  - vm_compute. reflexivity.
  - vm_compute. reflexivity.
  - discriminate.
  - reflexivity.
  - vm_compute. reflexivity.
  - exists w'. split; [exact H1|]. split; [exact H2|]. split; [exact H3|].
    split; [exact H4|]. split; [exact H5|]. split; [exact H6|].
    apply H7.
    + intros id t H. vm_compute in H. discriminate H.
    + intros sid' s' H Hne.
      do 9 (destruct sid' as [|sid'];
            [vm_compute in H; try congruence;
             injection H as <-; discriminate|]).
      vm_compute in H. discriminate H.
Defined.

(** C9 as stated fails when a retry is still pending at the ceiling.
    The operator calls [connect] while the first retry is pending, which
    starts a second chain of retries on the same counter.  When the
    counter has reached the ceiling of 8 and a close reports [failed],
    the state is [disconnected] and the last retry of the other chain is
    still pending.  Then, with no call of the operator at all, that
    retry fires, a tenth socket is constructed and opens: the service is
    [connected] with the counter at 0. *)
Lemma pending_retry_at_ceiling_counterexample :
  run two_retry_chains websocketService = Some failed_with_pending_retry
  ∧ maxReconnectAttempts (cfg failed_with_pending_retry) = 8
  ∧ reconnectAttempts failed_with_pending_retry = 8
  ∧ state failed_with_pending_retry = disconnected
  ∧ (3, JObj [("status", JStr "failed")]) ∈ calls failed_with_pending_retry
  ∧ (action <$> timers failed_with_pending_retry !! 8) = Some TReconnect
  ∧ length (sockets failed_with_pending_retry) = 9
  ∧ forallb (λ e, negb (operator_open e)) the_other_chain_fires = true
  ∧ run the_other_chain_fires failed_with_pending_retry
    = Some reconnected_after_failure
  ∧ state reconnected_after_failure = connected
  ∧ reconnectAttempts reconnected_after_failure = 0
  ∧ length (sockets reconnected_after_failure) = 10
  ∧ socket reconnected_after_failure = Some 9.
Proof.
  split; [vm_compute; reflexivity|]. split; [vm_compute; reflexivity|].
  split; [vm_compute; reflexivity|]. split; [vm_compute; reflexivity|].
  split.
  { assert (calls failed_with_pending_retry
            = replicate 9 (3, JObj [("status", JStr "disconnected");
                                    ("reason", JStr "")])
              ++ [(3, JObj [("status", JStr "failed")])]) as ->
      by (vm_compute; reflexivity).
    apply elem_of_app. right. by apply list_elem_of_singleton. }
  split; [vm_compute; reflexivity|]. split; [vm_compute; reflexivity|].
  split; [vm_compute; reflexivity|]. split; [vm_compute; reflexivity|].
  split; [vm_compute; reflexivity|]. split; [vm_compute; reflexivity|].
  split; vm_compute; reflexivity.
Qed.

(** ** C10: forceReconnect and the subscribers *)

(** C10.  forceReconnect leaves the listener registry empty.  So the
    open of the socket it constructs, which does bring the service to
    [connected], calls nobody; and whatever happens afterwards, as long
    as nobody registers again, no callback of any subscriber from before
    is ever called: not on [connection], not on the wildcard channel. *)
Theorem forceReconnect_drops_every_subscriber (w : World) :
  listeners (forceReconnect w) = ∅
  ∧ (∀ c, chan c (forceReconnect w) = [])
  ∧ calls (forceReconnect w) = calls w
  ∧ (∃ w', step (EvOpen (length (sockets w))) (forceReconnect w) = Some w'
           ∧ state w' = connected
           ∧ calls w' = calls w)
  ∧ (∀ es w',
       forallb (λ e, negb (registers e)) es = true →
       run es (forceReconnect w) = Some w' →
       calls w' = calls w ∧ listeners w' = ∅).
Proof.
  assert (HS : silent w (forceReconnect w))
    by (by apply silent_connect, silent_disconnect).
  destruct HS as [HL HC].
  split; [exact HL|].
  split; [intros c; unfold chan; by rewrite HL, lookup_empty|].
  split; [exact HC|].
  split.
  - destruct (disconnect_fields w) as (_&_&F3&_&_&_&_&_&_&_&F11).
    assert (Hlen : length (sockets (disconnect w)) = length (sockets w)).
    { rewrite F11. destruct (socket w) as [sid|]; [|done].
      unfold socket_close, update_socket.
      destruct (sockets w !! sid); simpl; by rewrite ?length_insert. }
    assert (Hclosed : socket_is_open (disconnect w) = false)
      by (unfold socket_is_open; by rewrite F3).
    destruct (connect_constructs (disconnect w) Hclosed) as (C1 & _).
    assert (Hnew : sockets (forceReconnect w) !! length (sockets w)
                   = Some (mkSocket (connection_url (platform (disconnect w)))
                             CONNECTING true [])).
    { unfold forceReconnect. rewrite C1, <- Hlen.
      by rewrite lookup_app_r, Nat.sub_diag. }
    assert (HS : silent w (forceReconnect w)) by (by split).
    pose proof (step_silent w (EvOpen (length (sockets w))) (forceReconnect w))
      as Hsil.
    rewrite (step_open _ _ _ Hnew eq_refl eq_refl) in Hsil |- *.
    eexists. split; [reflexivity|]. split; [apply onopen_state|].
    by destruct (Hsil _ HS eq_refl eq_refl).
  - intros es w' Hes Hrun.
    destruct (run_silent w es (forceReconnect w) w') as [H1 H2]; try done.
Qed.

(** * Further properties of the service *)

(** ** What holds in every state the service reaches *)

(** X1.  However many messages are sent while the transport is down, and
    whatever else happens, the queue of a service created with the bound
    [maxQueueSize] never holds more than that many messages (one message
    when the bound is zero): what getStats reports as queued stays
    within the bound. *)
Theorem queue_never_exceeds_bound c pf t0 es w :
  run es (new_WebSocketService c pf t0) = Some w →
  length (messageQueue w) ≤ Nat.max (maxQueueSize c) 1
  ∧ (1 ≤ maxQueueSize c → stats_queuedMessages (getStats w) ≤ maxQueueSize c).
Proof.
  intros Hrun.
  destruct (created_well_formed _ _ _ _ _ Hrun) as (_&_&W2&_).
  split; [done|]. intros HN. simpl. lia.
Qed.

Lemma queue_never_exceeds_bound_witness :
  length (messageQueue queue_overflowed) ≤ Nat.max 100 1
  ∧ (1 ≤ 100 → stats_queuedMessages (getStats queue_overflowed) ≤ 100).
Proof.
  apply (queue_never_exceeds_bound default_config demo_platform 0
           (sends_while_connecting 120) queue_overflowed).
  vm_compute. reflexivity.
Defined.

(** X2.  The attempt counter of a service created with the ceiling
    [maxReconnectAttempts] never passes it, whatever closes, opens,
    timers and calls occur. *)
Theorem attempts_never_exceed_ceiling c pf t0 es w :
  run es (new_WebSocketService c pf t0) = Some w →
  cfg w = c
  ∧ reconnectAttempts w ≤ maxReconnectAttempts c.
Proof.
  intros Hrun.
  by destruct (created_well_formed _ _ _ _ _ Hrun) as (W0&W1&_).
Qed.

Lemma attempts_never_exceed_ceiling_witness :
  cfg at_ceiling = default_config ∧ reconnectAttempts at_ceiling ≤ 8.
Proof.
  apply (attempts_never_exceed_ceiling default_config demo_platform 0
           eight_failed_opens at_ceiling).
  vm_compute. reflexivity.
Defined.

(** X3.  The heartbeat never leaks a timer.  In every state the service
    reaches, a pending heartbeat interval is the one the field
    [heartbeatTimer] holds and a pending pong deadline is the one the
    field [pongTimeout] holds; so at most one of each is pending, and
    [clearHeartbeat] cancels all there are. *)
Theorem heartbeat_timers_never_leak c pf t0 es w :
  run es (new_WebSocketService c pf t0) = Some w →
  (∀ id t, timers w !! id = Some t → action t = THeartbeat →
           heartbeatTimer w = Some id)
  ∧ (∀ id t, timers w !! id = Some t → action t = TPong →
             pongTimeout w = Some id)
  ∧ (∀ id id' t t',
       timers w !! id = Some t → timers w !! id' = Some t' →
       action t = action t' →
       action t = THeartbeat ∨ action t = TPong → id = id')
  ∧ (∀ id t, timers (clearHeartbeat w) !! id = Some t →
             action t ≠ THeartbeat ∧ action t ≠ TPong).
Proof.
  intros Hrun.
  pose proof (created_well_formed _ _ _ _ _ Hrun) as H.
  destruct (wf_clearHeartbeat _ _ H) as [_ Hn].
  destruct H as (_&_&_&W3&W4&_).
  split; [done|]. split; [done|]. split; [|done].
  intros id id' t t' Ht Ht' Ha [Hh|Hp].
  - pose proof (W3 id t Ht Hh) as E1.
    rewrite Ha in Hh. pose proof (W3 id' t' Ht' Hh) as E2. congruence.
  - pose proof (W4 id t Ht Hp) as E1.
    rewrite Ha in Hp. pose proof (W4 id' t' Ht' Hp) as E2. congruence.
Qed.

Lemma heartbeat_timers_never_leak_witness :
  let w := after_heartbeat_round in
  (∀ id t, timers w !! id = Some t → action t = THeartbeat →
           heartbeatTimer w = Some id)
  ∧ (∀ id t, timers w !! id = Some t → action t = TPong →
             pongTimeout w = Some id)
  ∧ (∀ id id' t t',
       timers w !! id = Some t → timers w !! id' = Some t' →
       action t = action t' →
       action t = THeartbeat ∨ action t = TPong → id = id')
  ∧ (∀ id t, timers (clearHeartbeat w) !! id = Some t →
             action t ≠ THeartbeat ∧ action t ≠ TPong).
Proof.
  apply (heartbeat_timers_never_leak default_config demo_platform 0
           heartbeat_round after_heartbeat_round).
  vm_compute. reflexivity.
Defined.

(** X4.  The registry never holds an empty listener set: [off] removes
    the entry of a channel when its last listener leaves, so a channel
    is present in the map exactly when somebody listens on it. *)
Theorem registry_holds_no_empty_channel c pf t0 es w :
  run es (new_WebSocketService c pf t0) = Some w →
  ∀ ch, (∀ s, listeners w !! ch = Some s → s ≠ [])
        ∧ (listenerCount ch w = 0 ↔ listeners w !! ch = None).
Proof.
  intros Hrun ch.
  destruct (created_well_formed _ _ _ _ _ Hrun) as (_&_&_&_&_&W5&_).
  split; [apply W5|]. unfold listenerCount, chan.
  destruct (listeners w !! ch) as [s|] eqn:Hs; simpl.
  - split; [|done]. intros Hl. destruct s; [|done]. by destruct (W5 ch [] Hs).
  - done.
Qed.

Lemma registry_holds_no_empty_channel_witness :
  (∀ s, listeners after_heartbeat_round !! "alert" = Some s → s ≠ [])
  ∧ (listenerCount "alert" after_heartbeat_round = 0
     ↔ listeners after_heartbeat_round !! "alert" = None).
Proof.
  apply (registry_holds_no_empty_channel default_config demo_platform 0
           heartbeat_round after_heartbeat_round).
  vm_compute. reflexivity.
Defined.

(** X5.  Every pending retry of a service with a non-negative base delay
    waits at least the base delay plus 300 and at most the delay of the
    last attempt with the largest jitter,
    [base * 2^(maxReconnectAttempts - 1) + 600], both computed in
    binary64: between 1300 and 128600 milliseconds for the constants of
    the class, and the eighth retry can be told to wait the full
    128600. *)
Theorem pending_retries_wait_within_bounds c pf t0 es w :
  (0 <= baseReconnectDelay c)%Q →
  run es (new_WebSocketService c pf t0) = Some w →
  (∀ id t, timers w !! id = Some t → action t = TReconnect →
           (b64 (b64 (baseReconnectDelay c) + 300) <= delay t)%Q
           ∧ (delay t
              <= b64 (b64 (baseReconnectDelay c
                           * Qpower 2 (Z.of_nat (maxReconnectAttempts c) - 1))
                      + 600))%Q)
  ∧ (b64 (b64 (baseReconnectDelay default_config) + 300) == 1300)%Q
  ∧ (b64 (b64 (baseReconnectDelay default_config
               * Qpower 2 (Z.of_nat (maxReconnectAttempts default_config) - 1))
          + 600) == 128600)%Q
  ∧ (reconnect_delay (baseReconnectDelay default_config)
       (maxReconnectAttempts default_config) (1 - (1 # 4503599627370496))
     == 128600)%Q.
Proof.
  intros Hb Hrun.
  split; [|repeat split; vm_compute; reflexivity].
  intros id t Ht Ha.
  destruct (created_well_formed _ _ _ _ _ Hrun) as (_&_&_&_&_&_&W6).
  by apply (W6 id t).
Qed.

Lemma pending_retries_wait_within_bounds_witness :
  (∀ id t, timers sixth_retry_pending !! id = Some t → action t = TReconnect →
           (b64 (b64 (baseReconnectDelay default_config) + 300) <= delay t)%Q
           ∧ (delay t
              <= b64 (b64 (baseReconnectDelay default_config
                           * Qpower 2
                               (Z.of_nat (maxReconnectAttempts default_config) - 1))
                      + 600))%Q)
  ∧ (b64 (b64 (baseReconnectDelay default_config) + 300) == 1300)%Q
  ∧ (b64 (b64 (baseReconnectDelay default_config
               * Qpower 2 (Z.of_nat (maxReconnectAttempts default_config) - 1))
          + 600) == 128600)%Q
  ∧ (reconnect_delay (baseReconnectDelay default_config)
       (maxReconnectAttempts default_config) (1 - (1 # 4503599627370496))
     == 128600)%Q.
Proof.
  apply (pending_retries_wait_within_bounds default_config demo_platform 0
           six_failed_opens sixth_retry_pending).
  - by vm_compute.
  - vm_compute. reflexivity.
Defined.

(** ** The dispatcher *)

(** X6.  Subscribing the same callback twice to a channel is the same as
    subscribing it once: the listener sets are sets, so the callback is
    called once per event. *)
Theorem on_twice_is_on_once (event : string) (cb : Listener) (w : World) :
  on event cb (on event cb w) = on event cb w.
Proof.
  unfold on. cbv zeta.
  set (m := match listeners w !! event with
            | Some _ => listeners w
            | None => <[event := []]> (listeners w)
            end).
  simpl. rewrite lookup_insert_eq. simpl. rewrite lookup_insert_eq. simpl.
  by rewrite set_add_idemp, insert_insert_eq.
Qed.

(** X7.  emit calls the listeners of the channel in the order in which
    they subscribed, each with the payload, and then the wildcard
    listeners in their order, each with [{event, data}]; callbacks of
    collaborators leave the registry as it is, and a callback that
    subscribes afresh is called last on its channel. *)
Theorem emit_calls_in_subscription_order
    (event : string) (data : json) (ids stars : list nat) (w : World) :
  chan event w = Ext <$> ids → chan "*" w = Ext <$> stars →
  calls (emit (JStr event) data w)
  = calls w ++ called_with data ids
      ++ called_with (wildcard_payload event data) stars
  ∧ listeners (emit (JStr event) data w) = listeners w
  ∧ (∀ id, id ∉ ids →
           chan event (on event (Ext id) w) = Ext <$> (ids ++ [id])).
Proof.
  intros H1 H2. rewrite (emit_exts event data ids stars w H1 H2).
  split; [done|]. split; [done|].
  intros id Hid. rewrite chan_on, decide_True by done.
  rewrite H1, set_add_new.
  - by rewrite fmap_app.
  - intros Hin. apply list_elem_of_fmap in Hin as (id' & [= <-] & Hin). done.
Qed.

Lemma emit_calls_in_subscription_order_witness :
  let w := on "*" (Ext 9) (on "alert" (Ext 2) (on "alert" (Ext 1) websocketService)) in
  calls (emit (JStr "alert") (JNum 5) w)
  = calls w ++ called_with (JNum 5) [1; 2]
      ++ called_with (wildcard_payload "alert" (JNum 5)) [9]
  ∧ listeners (emit (JStr "alert") (JNum 5) w) = listeners w
  ∧ (∀ id, id ∉ [1; 2] →
           chan "alert" (on "alert" (Ext id) w) = Ext <$> ([1; 2] ++ [id])).
Proof.
  apply (emit_calls_in_subscription_order "alert" (JNum 5) [1; 2] [9]);
    vm_compute; reflexivity.
Defined.

(** X8.  A callback subscribed with once is called on the first event of
    its channel only: it is called after the listeners that were there
    before it, its wrapper has left the registry when the dispatch
    ends, and the next event of the channel does not reach it. *)
Theorem once_fires_on_the_first_event_only
    (event : string) (cb : nat) (data data' : json) (ids stars : list nat)
    (w : World) :
  chan event w = Ext <$> ids → chan "*" w = Ext <$> stars →
  let w1 := once event cb w in
  let w2 := emit (JStr event) data w1 in
  chan event w1 = chan event w ++ [OnceWrapper event (nextWrapper w) cb]
  ∧ calls w2
    = calls w ++ called_with data ids ++ [(cb, data)]
        ++ called_with (wildcard_payload event data) stars
  ∧ chan event w2 = chan event w
  ∧ chan "*" w2 = chan "*" w
  ∧ calls (emit (JStr event) data' w2)
    = calls w2 ++ called_with data' ids
        ++ called_with (wildcard_payload event data') stars.
Proof.
  intros H1 H2. cbv zeta.
  set (wr := OnceWrapper event (nextWrapper w) cb).
  assert (chan event (once event cb w) = chan event w ++ [wr]) as Hc1.
  { unfold once. cbv zeta. fold wr. rewrite chan_on, decide_True by done.
    change (chan event (set_nextWrapper ?n w)) with (chan event w).
    rewrite H1. apply set_add_new, ext_not_wrapper. }
  assert (∀ c, c ≠ event → chan c (once event cb w) = chan c w) as Hc2.
  { intros c Hne. unfold once. cbv zeta. by rewrite chan_on, decide_False. }
  assert (calls (once event cb w) = calls w) as Hc3 by done.
  generalize dependent (once event cb w). intros w1 Hc1 Hc2 Hc3.
  (* the first phase: the callbacks before, then the wrapper *)
  set (x := forEach_invoke (chan event w1) data w1).
  assert (chan event x = chan event w
          ∧ (∀ c, c ≠ event → chan c x = chan c w)
          ∧ calls x = calls w ++ called_with data ids ++ [(cb, data)])
    as (X1 & X2 & X3).
  { unfold x. rewrite Hc1, H1. unfold forEach_invoke. rewrite foldl_app.
    fold (forEach_invoke (Ext <$> ids) data w1).
    rewrite forEach_invoke_exts. simpl.
    set (y := set_calls _ w1).
    assert (chan event y = (Ext <$> ids) ++ [wr]) as Y1
      by (unfold y; change (chan event (set_calls ?C w1)) with (chan event w1);
          by rewrite Hc1, H1).
    assert (∀ c, c ≠ event → chan c y = chan c w) as Y2
      by (intros c Hne; unfold y;
          change (chan c (set_calls ?C w1)) with (chan c w1); by apply Hc2).
    assert (calls y = calls w ++ called_with data ids) as Y3
      by (unfold y; simpl; by rewrite Hc3).
    clearbody y. fold wr.
    change (chan event (set_calls ?C ?z)) with (chan event z).
    split; [|split].
    - rewrite chan_off, decide_True, Y1, set_delete_app, set_delete_one by done.
      rewrite set_delete_absent by apply ext_not_wrapper.
      by rewrite app_nil_r.
    - intros c Hne. change (chan c (set_calls ?C ?z)) with (chan c z).
      rewrite chan_off, decide_False by done. by apply Y2.
    - simpl. assert (calls (off event wr y) = calls y) as ->.
      { unfold off. destruct (listeners y !! event); [|done].
        by destruct (_ =? _). }
      by rewrite Y3, <- app_assoc. }
  assert (chan "*" x = Ext <$> stars) as X4.
  { destruct (decide ("*" = event)) as [<-|Hne].
    - by rewrite X1.
    - by rewrite X2. }
  assert (emit (JStr event) data w1
          = set_calls (calls x ++ called_with (wildcard_payload event data) stars) x)
    as Hemit.
  { rewrite emit_two_phases. cbv zeta. fold x.
    by rewrite X4, forEach_invoke_exts. }
  rewrite Hemit. clearbody x. clear Hemit.
  split; [done|]. split; [|split; [|split]].
  - simpl. by rewrite X3, <- !app_assoc.
  - done.
  - change (chan "*" (set_calls ?C x)) with (chan "*" x). by rewrite X4.
  - rewrite (emit_exts event data' ids stars); [done| |done].
    change (chan event (set_calls ?C x)) with (chan event x).
    by rewrite X1.
Qed.

Lemma once_fires_on_the_first_event_only_witness :
  let w := on "*" (Ext 9) (on "alert" (Ext 1) websocketService) in
  let w1 := once "alert" 4 w in
  let w2 := emit (JStr "alert") (JNum 5) w1 in
  chan "alert" w1 = chan "alert" w ++ [OnceWrapper "alert" (nextWrapper w) 4]
  ∧ calls w2
    = calls w ++ called_with (JNum 5) [1] ++ [(4, JNum 5)]
        ++ called_with (wildcard_payload "alert" (JNum 5)) [9]
  ∧ chan "alert" w2 = chan "alert" w
  ∧ chan "*" w2 = chan "*" w
  ∧ calls (emit (JStr "alert") (JNum 6) w2)
    = calls w2 ++ called_with (JNum 6) [1]
        ++ called_with (wildcard_payload "alert" (JNum 6)) [9].
Proof.
  apply (once_fires_on_the_first_event_only "alert" 4 (JNum 5) (JNum 6) [1] [9]);
    vm_compute; reflexivity.
Defined.

(** X9.  What once subscribed cannot be unsubscribed with the callback
    it was given: the registry holds the wrapper, not the callback, so
    [off(event, callback)] leaves the wrapper in place and the next
    event still reaches the callback. *)
Theorem off_does_not_cancel_once
    (event : string) (cb : nat) (data : json) (ids stars : list nat)
    (w : World) :
  chan event w = Ext <$> ids → chan "*" w = Ext <$> stars → cb ∉ ids →
  let w1 := off event (Ext cb) (once event cb w) in
  chan event w1 = chan event w ++ [OnceWrapper event (nextWrapper w) cb]
  ∧ (cb, data) ∈ drop (length (calls w1)) (calls (emit (JStr event) data w1)).
Proof.
  intros H1 H2 Hcb. cbv zeta.
  set (wr := OnceWrapper event (nextWrapper w) cb).
  assert (chan event (off event (Ext cb) (once event cb w))
          = chan event w ++ [wr]) as Hc.
  { rewrite chan_off, decide_True by done.
    unfold once. cbv zeta. fold wr. rewrite chan_on, decide_True by done.
    change (chan event (set_nextWrapper ?n w)) with (chan event w).
    rewrite H1, set_add_new by apply ext_not_wrapper.
    apply set_delete_absent. intros Hin.
    apply elem_of_app in Hin as [Hin|Hin].
    - apply list_elem_of_fmap in Hin as (id & [= <-] & Hin). done.
    - by apply list_elem_of_singleton in Hin. }
  split; [done|].
  generalize dependent (off event (Ext cb) (once event cb w)). intros w1 Hc.
  rewrite emit_two_phases. cbv zeta.
  set (x := forEach_invoke (chan event w1) data w1).
  assert (calls x = calls w1 ++ called_with data ids ++ [(cb, data)]) as X.
  { unfold x. rewrite forEach_invoke_calls, Hc, H1.
    by rewrite omap_app, omap_callee_exts, map_app. }
  rewrite forEach_invoke_calls, X, <- !app_assoc, drop_app_length.
  apply elem_of_app. right. apply elem_of_app. left.
  by apply list_elem_of_singleton.
Qed.

Lemma off_does_not_cancel_once_witness :
  let w := on "alert" (Ext 1) websocketService in
  let w1 := off "alert" (Ext 4) (once "alert" 4 w) in
  chan "alert" w1 = chan "alert" w ++ [OnceWrapper "alert" (nextWrapper w) 4]
  ∧ (4, JNum 5)
    ∈ drop (length (calls w1)) (calls (emit (JStr "alert") (JNum 5) w1)).
Proof.
  apply (off_does_not_cancel_once "alert" 4 (JNum 5) [1] []);
    [vm_compute; reflexivity | vm_compute; reflexivity |].
  intros H. apply list_elem_of_singleton in H. discriminate H.
Defined.

(** X10.  In every state the service reaches, unsubscribing a callback
    that is not subscribed changes nothing, and subscribing a new
    callback and unsubscribing it again gives the registry back as it
    was, the entry of a channel nobody else listens on included. *)
Theorem on_then_off_restores_registry c pf t0 es w (event : string) (cb : Listener) :
  run es (new_WebSocketService c pf t0) = Some w →
  cb ∉ chan event w →
  off event cb w = w
  ∧ off event cb (on event cb w) = w.
Proof.
  intros Hrun Hcb.
  destruct (created_well_formed _ _ _ _ _ Hrun) as (_&_&_&_&_&W5&_).
  clear Hrun. split.
  - unfold off. destruct (listeners w !! event) as [s|] eqn:Hs; [|done].
    unfold chan in Hcb. rewrite Hs in Hcb. simpl in Hcb.
    rewrite set_delete_absent by done.
    destruct s as [|l s]; [by destruct (W5 event [] Hs)|]. simpl.
    rewrite insert_id by done. apply set_listeners_id.
  - assert (∀ L L', set_listeners L' (set_listeners L w) = set_listeners L' w)
      as Hset by done.
    unfold chan in Hcb. unfold on. cbv zeta.
    destruct (listeners w !! event) as [s|] eqn:Hs; simpl in Hcb.
    + rewrite Hs. simpl (default _ _). rewrite set_add_new by done.
      unfold off. simpl (listeners (set_listeners _ _)).
      rewrite lookup_insert_eq. cbv zeta.
      rewrite set_delete_app, set_delete_one, set_delete_absent, app_nil_r
        by done.
      destruct s as [|l s]; [by destruct (W5 event [] Hs)|].
      simpl (length _ =? 0). cbv iota.
      rewrite Hset, insert_insert_eq, insert_id by done.
      apply set_listeners_id.
    + rewrite lookup_insert_eq. simpl (default _ _).
      rewrite set_add_new by apply not_elem_of_nil.
      unfold off. simpl (listeners (set_listeners _ _)).
      rewrite lookup_insert_eq. cbv zeta.
      simpl (set_delete _ _). rewrite set_delete_one.
      simpl (length _ =? 0). cbv iota.
      rewrite Hset, insert_insert_eq, delete_insert_eq, delete_id by done.
      apply set_listeners_id.
Qed.

Lemma on_then_off_restores_registry_witness :
  off "alert" (Ext 2) after_heartbeat_round = after_heartbeat_round
  ∧ off "alert" (Ext 2) (on "alert" (Ext 2) after_heartbeat_round)
    = after_heartbeat_round.
Proof.
  apply (on_then_off_restores_registry default_config demo_platform 0
           heartbeat_round).
  - vm_compute. reflexivity.
  - vm_compute. intros H. by apply elem_of_nil in H.
Defined.

(** ** The heartbeat *)



(** X12.  When no [pong] arrives the deadline fires, not before
    [heartbeatTimeoutMs] have passed since the ping, and asks the socket
    to close: the transport is then closing and no longer open, while
    the state of the service is still what it was until the close event
    is delivered. *)
Theorem missed_pong_closes_the_socket
    (sid : nat) (s : Socket) (ms : Z) (w : World) :
  socket w = Some sid → sockets w !! sid = Some s → readyState s = OPEN →
  (0 ≤ ms)%Z →
  let tid := nextTimer w in
  let w1 := heartbeat_tick w in
  ((heartbeatTimeoutMs (cfg w) <= inject_Z ms)%Q →
     ∃ w2, run [EvAdvance ms; EvTimer tid] w1 = Some w2
           ∧ (readyState <$> sockets w2 !! sid) = Some CLOSING
           ∧ socket_is_open w2 = false
           ∧ timers w2 !! tid = None
           ∧ state w2 = state w)
  ∧ ((inject_Z ms < heartbeatTimeoutMs (cfg w))%Q →
     run [EvAdvance ms; EvTimer tid] w1 = None).
Proof.
  intros Hsock Hs Hr Hms. cbv zeta.
  destruct (heartbeat_tick_fields _ _ _ Hsock Hs Hr)
    as (F1&F2&F3&F4&F5&F6&F7&_).
  assert (Hlen : sid < length (sockets w)) by (by eapply lookup_lt_Some).
  set (T := heartbeatTimeoutMs (cfg w)) in *.
  generalize dependent (heartbeat_tick w). intros x F1 F2 F3 F4 F5 F6 F7.
  assert (Hstep1 : step (EvAdvance ms) x = Some (set_now (now x + ms)%Z x)).
  { simpl. destruct (Z.leb_spec 0 ms); [done | lia]. }
  assert (Hdue : ∀ b, Qle_bool (inject_Z (now w) + T)
                        (inject_Z (now x + ms)) = b →
                run [EvAdvance ms; EvTimer (nextTimer w)] x
                = if b then Some (pong_deadline
                                    (clearTimer (nextTimer w)
                                       (set_now (now x + ms)%Z x)))
                  else None).
  { intros b Hb. cbn [run]. rewrite Hstep1.
    change (step (EvTimer (nextTimer w)) (set_now (now x + ms)%Z x))
      with (match timers x !! nextTimer w with
            | Some t =>
                if Qle_bool (due t) (inject_Z (now x + ms))
                then Some (fire_timer (nextTimer w) t
                             (set_now (now x + ms)%Z x))
                else None
            | None => None
            end).
    rewrite F4. cbn [due]. rewrite Hb. by destruct b. }
  split.
  - intros Hle. rewrite (Hdue true).
    2:{ apply Qle_bool_iff. rewrite F7, inject_Z_plus. lra. }
    eexists. split; [reflexivity|].
    set (y := clearTimer (nextTimer w) (set_now (now x + ms)%Z x)).
    assert (socket y = Some sid
            ∧ sockets y = <[sid := with_sent (ping_frame w) s]> (sockets w)
            ∧ timers y !! nextTimer w = None ∧ state y = state w)
      as (Y1&Y2&Y3&Y4).
    { unfold y, clearTimer. simpl. rewrite lookup_delete_eq, F1, F2, F6.
      by repeat split. }
    clearbody y. unfold pong_deadline. rewrite Y1.
    unfold socket_close.
    assert (sockets y !! sid = Some (with_sent (ping_frame w) s)) as Hy
      by (rewrite Y2; by apply list_lookup_insert_eq).
    rewrite (update_socket_at _ _ _ _ Hy). simpl. rewrite Hr. simpl.
    rewrite list_lookup_insert_eq
      by (rewrite Y2, length_insert; done).
    split; [done|]. split; [|done].
    unfold socket_is_open, socket_readyState. simpl. rewrite Y1.
    rewrite list_lookup_insert_eq by (rewrite Y2, length_insert; done).
    done.
  - intros Hlt. rewrite (Hdue false); [done|].
    destruct (Qle_bool _ _) eqn:Hq; [|done].
    apply Qle_bool_iff in Hq. rewrite F7, inject_Z_plus in Hq. lra.
Qed.

Lemma missed_pong_closes_the_socket_witness :
  let w := before_first_ping in
  let tid := nextTimer w in
  let w1 := heartbeat_tick w in
  ((heartbeatTimeoutMs (cfg w) <= inject_Z 12000)%Q →
     ∃ w2, run [EvAdvance 12000; EvTimer tid] w1 = Some w2
           ∧ (readyState <$> sockets w2 !! 0) = Some CLOSING
           ∧ socket_is_open w2 = false
           ∧ timers w2 !! tid = None
           ∧ state w2 = state w)
  ∧ ((inject_Z 12000 < heartbeatTimeoutMs (cfg w))%Q →
     run [EvAdvance 12000; EvTimer tid] w1 = None).
Proof.
  apply (missed_pong_closes_the_socket 0
           (mkSocket (connection_url demo_platform) OPEN true [])
           12000 before_first_ping);
    [vm_compute; reflexivity | vm_compute; reflexivity
    | vm_compute; reflexivity | lia].
Defined.

(** ** Close, error and message events *)

(** X13.  A close that was not asked for, below the retry ceiling, ends
    in [reconnecting]: the heartbeat is cancelled, the time is recorded,
    the subscribers of [connection] are told
    [{status: "disconnected", reason}], the attempt is counted and one
    retry is scheduled with the backoff delay; the socket is not
    replaced until that retry fires. *)
Theorem unexpected_close_schedules_a_retry
    (sid : nat) (s : Socket) (reason : string) (rnd : Q) (w : World) :
  sockets w !! sid = Some s → readyState s ≠ CLOSED → handlers s = true →
  valid_random rnd = true →
  manualClose w = false →
  reconnectAttempts w < maxReconnectAttempts (cfg w) →
  ∃ w',
    step (EvClose sid reason rnd) w = Some w'
    ∧ state w' = reconnecting
    ∧ reconnectAttempts w' = S (reconnectAttempts w)
    ∧ heartbeatTimer w' = None ∧ pongTimeout w' = None
    ∧ lastDisconnectedAt w' = Some (now w)
    ∧ timers w' !! nextTimer w
      = Some (mkTimer TReconnect
                (reconnect_delay (baseReconnectDelay (cfg w))
                   (S (reconnectAttempts w)) rnd)
                (inject_Z (now w)
                 + reconnect_delay (baseReconnectDelay (cfg w))
                     (S (reconnectAttempts w)) rnd))
    ∧ (∀ id, Ext id ∈ chan "connection" w →
             (id, JObj [("status", JStr "disconnected");
                        ("reason", JStr reason)]) ∈ calls w')
    ∧ socket w' = socket w
    ∧ length (sockets w') = length (sockets w)
    ∧ (readyState <$> sockets w' !! sid) = Some CLOSED.
Proof.
  intros Hs Hr Hh Hv Hm Hn.
  rewrite (step_close _ _ _ _ _ Hs Hr Hv). cbv zeta. rewrite Hh.
  assert (Hlen : sid < length (sockets w)) by (by eapply lookup_lt_Some).
  set (v := set_sockets _ w).
  assert (manualClose v = false
          ∧ reconnectAttempts v = reconnectAttempts w ∧ cfg v = cfg w
          ∧ now v = now w ∧ nextTimer v = nextTimer w
          ∧ listeners v = listeners w ∧ socket v = socket w
          ∧ sockets v = <[sid := with_readyState CLOSED s]> (sockets w))
    as (V1&V2&V3&V4&V5&V6&V7&V8) by (by unfold v).
  clearbody v.
  destruct (onclose_below_ceiling reason rnd v V1)
    as (C1&C2&C3&C4&C5&C6&C7&C8&C9); [by rewrite V2, V3|].
  eexists. split; [reflexivity|].
  rewrite C1, C2, C3, C4, C5, C6, C7.
  rewrite V2, V3, V4, V5, V7, V8 in *.
  rewrite length_insert, list_lookup_insert_eq by done.
  repeat split; try done.
  intros id Hin. apply C9. unfold chan in *. by rewrite V6.
Qed.

Lemma unexpected_close_schedules_a_retry_witness :
  let w := before_first_ping in
  ∃ w',
    step (EvClose 0 "gone" 0) w = Some w'
    ∧ state w' = reconnecting
    ∧ reconnectAttempts w' = S (reconnectAttempts w)
    ∧ heartbeatTimer w' = None ∧ pongTimeout w' = None
    ∧ lastDisconnectedAt w' = Some (now w)
    ∧ timers w' !! nextTimer w
      = Some (mkTimer TReconnect
                (reconnect_delay (baseReconnectDelay (cfg w))
                   (S (reconnectAttempts w)) 0)
                (inject_Z (now w)
                 + reconnect_delay (baseReconnectDelay (cfg w))
                     (S (reconnectAttempts w)) 0))
    ∧ (∀ id, Ext id ∈ chan "connection" w →
             (id, JObj [("status", JStr "disconnected");
                        ("reason", JStr "gone")]) ∈ calls w')
    ∧ socket w' = socket w
    ∧ length (sockets w') = length (sockets w)
    ∧ (readyState <$> sockets w' !! 0) = Some CLOSED.
Proof.
  apply (unexpected_close_schedules_a_retry 0
           (mkSocket (connection_url demo_platform) OPEN true [])
           "gone" 0 before_first_ping);
    try (vm_compute; reflexivity).
  - vm_compute. discriminate.
  - vm_compute. lia.
Defined.

(** X14.  A frame without a usable type is not lost.  When the type is
    missing or falsy the frame goes to the channel [message]: its
    subscribers are called with the frame and the wildcard subscribers
    with [{event: "message", data}].  When the type is truthy but not a
    string no channel matches it, and only the wildcard subscribers see
    the frame.  Text that is not JSON, and the JSON value [null], change
    nothing at all. *)
Theorem frames_without_a_string_type (msg : json) (w : World) :
  msg ≠ JNull →
  (prop "type" msg = None
   ∨ (∃ t, prop "type" msg = Some t ∧ truthy t = false) →
     (∀ id, Ext id ∈ chan "message" w →
            (id, msg) ∈ calls (onmessage (JSONText msg) w))
     ∧ (∀ id, Ext id ∈ chan "*" w →
            (id, JObj [("event", JStr "message"); ("data", msg)])
            ∈ calls (onmessage (JSONText msg) w)))
  ∧ (∀ t, prop "type" msg = Some t → truthy t = true →
          (∀ s, t ≠ JStr s) →
          onmessage (JSONText msg) w
          = forEach_invoke (chan "*" w)
              (JObj [("event", t); ("data", msg)]) w)
  ∧ (∀ raw, onmessage (NonJSON raw) w = w)
  ∧ onmessage (JSONText JNull) w = w.
Proof.
  intros Hnull. split; [|split; [|done]].
  - intros Hty.
    assert (onmessage (JSONText msg) w = emit (JStr "message") msg w) as ->.
    { unfold onmessage. destruct msg; try done;
        destruct Hty as [-> | (t & -> & ->)]; done. }
    split; intros id Hin.
    + by apply emit_calls_channel.
    + by apply emit_calls_wildcard.
  - intros t Hty Htr Hns.
    assert (onmessage (JSONText msg) w = emit t msg w) as ->.
    { unfold onmessage. destruct msg; try done; rewrite Hty, Htr.
      all: destruct t; try done; by destruct (Hns s). }
    unfold emit, listeners_get, chan.
    destruct t; try (by destruct (Hns s));
      by destruct (listeners w !! "*").
Qed.

Lemma frames_without_a_string_type_witness :
  let w := on "message" (Ext 3) websocketService in
  (prop "type" untyped_frame = None
   ∨ (∃ t, prop "type" untyped_frame = Some t ∧ truthy t = false) →
     (∀ id, Ext id ∈ chan "message" w →
            (id, untyped_frame) ∈ calls (onmessage (JSONText untyped_frame) w))
     ∧ (∀ id, Ext id ∈ chan "*" w →
            (id, JObj [("event", JStr "message"); ("data", untyped_frame)])
            ∈ calls (onmessage (JSONText untyped_frame) w)))
  ∧ (∀ t, prop "type" untyped_frame = Some t → truthy t = true →
          (∀ s, t ≠ JStr s) →
          onmessage (JSONText untyped_frame) w
          = forEach_invoke (chan "*" w)
              (JObj [("event", t); ("data", untyped_frame)]) w)
  ∧ (∀ raw, onmessage (NonJSON raw) w = w)
  ∧ onmessage (JSONText JNull) w = w.
Proof.
  apply (frames_without_a_string_type untyped_frame). discriminate.
Defined.

(** X15.  An error event changes nothing of the connection: the state,
    the sockets, the attempt counter, the heartbeat and the queue are as
    before and no timer is added; the subscribers of [connection] are
    told [{status: "error", error}].  Only the close event that follows
    moves the service on. *)
Theorem error_event_only_notifies (sid : nat) (s : Socket) (w : World) :
  sockets w !! sid = Some s → readyState s ≠ CLOSED → handlers s = true →
  ∃ w',
    step (EvError sid) w = Some w'
    ∧ state w' = state w ∧ socket w' = socket w ∧ sockets w' = sockets w
    ∧ reconnectAttempts w' = reconnectAttempts w
    ∧ manualClose w' = manualClose w
    ∧ heartbeatTimer w' = heartbeatTimer w ∧ pongTimeout w' = pongTimeout w
    ∧ messageQueue w' = messageQueue w
    ∧ timers w' ⊆ timers w
    ∧ (∀ id, Ext id ∈ chan "connection" w →
             (id, JObj [("status", JStr "error");
                        ("error", JStr "[object Event]")]) ∈ calls w').
Proof.
  intros Hs Hr Hh.
  assert (step (EvError sid) w = Some (onerror w)) as ->.
  { simpl. rewrite Hs, Hh. by destruct (readyState s). }
  eexists. split; [reflexivity|].
  pose proof (emit_dispatched (JStr "connection")
                (JObj [("status", JStr "error");
                       ("error", JStr "[object Event]")]) w) as Hd.
  fold (onerror w) in Hd.
  destruct (dispatched_fields _ _ Hd)
    as (_&_&D3&D4&D5&D6&D7&D8&D9&_&_&D12&_).
  pose proof (dispatched_timers _ _ Hd) as Ht.
  repeat split; try done.
  intros id Hin. unfold onerror. by apply emit_calls_channel.
Qed.

Lemma error_event_only_notifies_witness :
  let w := before_first_ping in
  ∃ w',
    step (EvError 0) w = Some w'
    ∧ state w' = state w ∧ socket w' = socket w ∧ sockets w' = sockets w
    ∧ reconnectAttempts w' = reconnectAttempts w
    ∧ manualClose w' = manualClose w
    ∧ heartbeatTimer w' = heartbeatTimer w ∧ pongTimeout w' = pongTimeout w
    ∧ messageQueue w' = messageQueue w
    ∧ timers w' ⊆ timers w
    ∧ (∀ id, Ext id ∈ chan "connection" w →
             (id, JObj [("status", JStr "error");
                        ("error", JStr "[object Event]")]) ∈ calls w').
Proof.
  apply (error_event_only_notifies 0
           (mkSocket (connection_url demo_platform) OPEN true []));
    [vm_compute; reflexivity | vm_compute; discriminate | reflexivity].
Defined.

(** X16.  disconnect is idempotent: a second call in a row finds
    nothing left to cancel, close or clear. *)
Theorem disconnect_twice_is_disconnect_once (w : World) :
  disconnect (disconnect w) = disconnect w.
Proof.
  destruct (disconnect_fields w) as (D1&D2&D3&D4&D5&D6&_).
  generalize dependent (disconnect w). intros v D1 D2 D3 D4 D5 D6.
  unfold disconnect, clearHeartbeat, clear_if_set. cbv zeta.
  simpl. rewrite D5. simpl. rewrite D6. simpl. rewrite D3.
  destruct v; simpl in *; by subst.
Qed.

(** ** A manual disconnect is final *)

(** X17.  When the operator disconnects while no retry is pending,
    nothing connects again by itself.  Whatever follows short of a call
    of connect or forceReconnect (close and error events, frames and
    opens of sockets replaced earlier, timers, sends, subscriptions),
    the manual mark stays set, the service has no current socket, no
    socket is constructed, no retry is ever scheduled, and what is sent
    is queued. *)
Theorem manual_disconnect_is_final (w : World) (es : list Event) (w' : World) :
  (∀ id t, timers w !! id = Some t → action t ≠ TReconnect) →
  forallb (λ e, negb (operator_open e)) es = true →
  run es (disconnect w) = Some w' →
  manualClose w' = true
  ∧ socket w' = None
  ∧ length (sockets w') = length (sockets w)
  ∧ (∀ id t, timers w' !! id = Some t → action t ≠ TReconnect)
  ∧ socket_is_open w' = false.
Proof.
  intros Hno Hes Hrun.
  pose proof (run_parked _ es _ _ Hes (disconnect_parks w Hno) Hrun) as H.
  pose proof (parked_not_open _ _ H) as Hopen.
  destruct H as (P1&P2&P3&P4). by repeat split.
Qed.

Lemma manual_disconnect_is_final_witness :
  manualClose long_after_disconnect = true
  ∧ socket long_after_disconnect = None
  ∧ length (sockets long_after_disconnect)
    = length (sockets (connect websocketService))
  ∧ (∀ id t, timers long_after_disconnect !! id = Some t →
             action t ≠ TReconnect)
  ∧ socket_is_open long_after_disconnect = false.
Proof.
  apply (manual_disconnect_is_final (connect websocketService)
           after_manual_disconnect long_after_disconnect).
  - intros id t H. vm_compute in H. discriminate H.
  - reflexivity.
  - vm_compute. reflexivity.
Defined.

(** ** The polling hook, useRealTimeData *)

Section PollingHookProperties.

Import RealTimeData.

(** X18.  Only the latest response is shown.  When the promise of a
    request is fulfilled after a later fetchData has replaced its
    controller, or after the effect has been cleaned up, nothing that
    the hook returns changes and onSuccess is not called.  When it is
    the request of the current controller and that controller has not
    been aborted, its data is stored with the time, isConnected becomes
    true, loading becomes false and onSuccess is called with the data;
    the error cell is left as it is. *)
Theorem only_the_latest_response_is_shown
    (o : Options) (t0 : Z) (es : list Event) (h : Hook) (k : nat) (d : json) :
  run es (new_hook o t0) = Some h →
  k ∈ awaiting h →
  (abortControllerRef h ≠ Some k →
     ∃ h', step (Settle k (Fulfilled d)) h = Some h'
           ∧ rendered h' = rendered h)
  ∧ (enabled o = true →
     ∃ h', run [Unmount; Settle k (Fulfilled d)] h = Some h'
           ∧ rendered h' = rendered h)
  ∧ (abortControllerRef h = Some k → aborted k h = false →
     ∃ h', step (Settle k (Fulfilled d)) h = Some h'
           ∧ data h' = d
           ∧ lastUpdated h' = Some (now h)
           ∧ isConnected h' = true
           ∧ loading h' = false
           ∧ error h' = error h
           ∧ calls h'
             = calls h ++ (if onSuccess o then [OnSuccess d] else [])).
Proof.
  intros Hrun Hk.
  pose proof (mounted_one_live _ _ _ _ Hrun) as Hlive.
  pose proof (run_options _ _ _ Hrun) as Ho. simpl in Ho.
  clear Hrun. split; [|split].
  - intros Hne. apply aborted_response_dropped; [done|].
    destruct Hlive as [H1 H2].
    destruct (lookup_lt_is_Some_2 _ _ (H2 k Hk)) as [[|] Hb]; [done|].
    by destruct (Hne (H1 k Hb)).
  - intros He. rewrite <- Ho in He.
    destruct (cleanup_none_live h Hlive He) as (C1&C2&C3&C4&C5).
    destruct Hlive as [H1 H2].
    assert (controllers (cleanup h) !! k = Some true) as Hb.
    { destruct (lookup_lt_is_Some_2 (controllers (cleanup h)) k) as [[|] Hb];
        [rewrite C4; by apply H2 | done | by destruct (C1 k)]. }
    cbn [run]. change (step Unmount h) with (Some (cleanup h)).
    destruct (aborted_response_dropped k d (cleanup h)) as (h' & Hs & Hr);
      [by rewrite C2 | done |].
    exists h'. rewrite Hs. split; [done|]. by rewrite Hr.
  - intros Hcur Hab. simpl. rewrite decide_True by done.
    eexists. split; [reflexivity|].
    unfold fetchData_resumed. cbv zeta.
    change (aborted k (set_awaiting ?a h)) with (aborted k h).
    rewrite Hab. simpl. rewrite Ho.
    destruct (onSuccess o); simpl;
      change (aborted k ?x) with (aborted k h); rewrite Hab;
      by rewrite ?app_nil_r.
Qed.

Lemma only_the_latest_response_is_shown_witness :
  let h := two_in_flight in
  (abortControllerRef h ≠ Some 0 →
     ∃ h', step (Settle 0 (Fulfilled (JNum 1))) h = Some h'
           ∧ rendered h' = rendered h)
  ∧ (enabled default_options = true →
     ∃ h', run [Unmount; Settle 0 (Fulfilled (JNum 1))] h = Some h'
           ∧ rendered h' = rendered h)
  ∧ (abortControllerRef h = Some 0 → aborted 0 h = false →
     ∃ h', step (Settle 0 (Fulfilled (JNum 1))) h = Some h'
           ∧ data h' = JNum 1
           ∧ lastUpdated h' = Some (now h)
           ∧ isConnected h' = true
           ∧ loading h' = false
           ∧ error h' = error h
           ∧ calls h'
             = calls h ++ (if onSuccess default_options
                           then [OnSuccess (JNum 1)] else [])).
Proof.
  apply (only_the_latest_response_is_shown default_options 0
           overlapping_requests two_in_flight 0 (JNum 1)).
  - vm_compute. reflexivity.
  - vm_compute. by left.
Defined.



(** X20.  A disabled hook never leaves its initial state: whatever is
    asked of it, refresh included, it starts no request and arms no
    interval, so loading stays true and data stays null for good. *)
Theorem disabled_hook_stays_loading
    (o : Options) (t0 : Z) (es : list Event) (h : Hook) :
  enabled o = false →
  run es (new_hook o t0) = Some h →
  loading h = true ∧ data h = JNull ∧ error h = None
  ∧ isConnected h = false ∧ calls h = []
  ∧ awaiting h = [] ∧ intervals h = ∅.
Proof.
  intros He Hrun.
  assert (idle (new_hook o t0)) as Hi by done.
  destruct (run_idle _ _ _ Hi Hrun) as ((_&I2&I3)&R2&R3&R4&R5&R6).
  rewrite R2, R3, R4, R5, I2, I3. by repeat split; [apply R6|..].
Qed.

Lemma disabled_hook_stays_loading_witness :
  let h := refreshed_while_disabled in
  loading h = true ∧ data h = JNull ∧ error h = None
  ∧ isConnected h = false ∧ calls h = []
  ∧ awaiting h = [] ∧ intervals h = ∅.
Proof.
  apply (disabled_hook_stays_loading disabled_options 0
           [Mount; Refresh; Advance 60000]); reflexivity.
Defined.

(** X21.  The cleanup of the effect stops the polling.  After the effect
    has run once and been cleaned up, whatever happened in between, no
    interval is left that could fire, every controller has been aborted,
    and the response of any request still in flight is dropped. *)
Theorem unmount_stops_the_polling
    (o : Options) (t0 : Z) (es : list Event) (h : Hook) :
  enabled o = true →
  forallb (λ e, negb (is_mount e)) es = true →
  run (Mount :: es ++ [Unmount]) (new_hook o t0) = Some h →
  intervals h = ∅
  ∧ (∀ id, step (Tick id) h = None)
  ∧ (∀ k, controllers h !! k ≠ Some false)
  ∧ (∀ k d, k ∈ awaiting h →
            ∃ h', step (Settle k (Fulfilled d)) h = Some h'
                  ∧ rendered h' = rendered h).
Proof.
  intros He Hes Hrun.
  change (Mount :: es ++ [Unmount]) with ((Mount :: es) ++ [Unmount]) in Hrun.
  rewrite run_app in Hrun.
  destruct (run (Mount :: es) (new_hook o t0)) as [x|] eqn:Hx; [|done].
  simpl in Hrun. simplify_eq.
  pose proof (mounted_one_live _ _ _ _ Hx) as Hlive.
  pose proof (run_options _ _ _ Hx) as Ho. simpl in Ho.
  assert (single_interval x) as Hsingle.
  { simpl in Hx. eapply run_single_interval; [exact Hes| |exact Hx].
    by apply effect_single_interval. }
  clear Hx. rewrite <- Ho in He.
  pose proof (cleanup_clears_interval x He Hsingle) as Hnone.
  destruct (cleanup_none_live x Hlive He) as (C1&C2&C3&C4&C5).
  destruct Hlive as [H1 H2].
  split; [done|]. split; [|split; [done|]].
  - intros id. simpl. by rewrite Hnone, lookup_empty.
  - intros k d Hk. apply aborted_response_dropped; [done|].
    destruct (lookup_lt_is_Some_2 (controllers (cleanup x)) k) as [[|] Hb];
      [rewrite C4; apply H2; by rewrite <- C2 | done | by destruct (C1 k)].
Qed.

Lemma unmount_stops_the_polling_witness :
  let h := unmounted in
  intervals h = ∅
  ∧ (∀ id, step (Tick id) h = None)
  ∧ (∀ k, controllers h !! k ≠ Some false)
  ∧ (∀ k d, k ∈ awaiting h →
            ∃ h', step (Settle k (Fulfilled d)) h = Some h'
                  ∧ rendered h' = rendered h).
Proof.
  apply (unmount_stops_the_polling default_options 0 polled_then_unmounted);
    [reflexivity | reflexivity | vm_compute; reflexivity].
Defined.

End PollingHookProperties.

(** ** The hook variant, useWebSocket *)

Section HookVariantProperties.

Import UseWebSocket.

(** X22.  In the hook the backoff is capped.  When the socket of the
    hook closes and the retry counter [n] is below reconnectAttempts
    (always, with the default of Infinity), the status ends in
    [reconnecting], the counter is incremented and [connect] is
    scheduled after [min(reconnectInterval * 2^n, maxReconnectInterval)]:
    never more than the cap, exactly the cap once the exponential has
    reached it, and for a non-negative interval never less than the
    delay before.  When the counter has reached reconnectAttempts the
    status stays [closed] and nothing is scheduled. *)
Theorem hook_backoff_is_capped (sid : nat) (s : Socket) (h : Hook) :
  sockets h !! sid = Some s → readyState s ≠ CLOSED → handlers s = true →
  let o := options h in
  let n := reconnectCount h in
  (may_retry h = true →
     ∃ h', step (EvClose sid) h = Some h'
           ∧ status h' = status_reconnecting
           ∧ reconnectCount h' = S n
           ∧ reconnectTimeoutRef h' = Some (nextTimer h)
           ∧ timers h' !! nextTimer h
             = Some (mkTimer TReconnect (reconnect_delay o n)
                       (inject_Z (now h) + reconnect_delay o n))
           ∧ length (sockets h') = length (sockets h))
  ∧ (may_retry h = false →
     ∃ h', step (EvClose sid) h = Some h'
           ∧ status h' = status_closed
           ∧ timers h' = timers h
           ∧ reconnectCount h' = n
           ∧ length (sockets h') = length (sockets h))
  ∧ (reconnect_delay o n <= maxReconnectInterval o)%Q
  ∧ ((maxReconnectInterval o <= reconnectInterval o * Qpower 2 (Z.of_nat n))%Q →
     (reconnect_delay o n == maxReconnectInterval o)%Q)
  ∧ ((reconnectInterval o * Qpower 2 (Z.of_nat n) <= maxReconnectInterval o)%Q →
     (reconnect_delay o n == reconnectInterval o * Qpower 2 (Z.of_nat n))%Q)
  ∧ ((0 <= reconnectInterval o)%Q →
     (reconnect_delay o n <= reconnect_delay o (S n))%Q).
Proof.
  intros Hs Hr Hh. cbv zeta.
  assert (Hlen : sid < length (sockets h)) by (by eapply lookup_lt_Some).
  assert (Hstep : step (EvClose sid) h
                  = Some (onclose (set_sockets
                            (<[sid := with_readyState CLOSED s]> (sockets h)) h))).
  { cbn [step]. rewrite Hs, Hh. unfold update_socket. rewrite Hs.
    by destruct (readyState s). }
  rewrite Hstep. clear Hstep.
  split; [|split; [|split; [|split; [|split]]]].
  - intros Hm. eexists. split; [reflexivity|].
    unfold onclose. cbv zeta.
    change (may_retry (set_status ?a (set_sockets ?b h))) with (may_retry h).
    rewrite Hm. unfold setTimer. simpl. rewrite lookup_insert_eq, length_insert.
    by repeat split.
  - intros Hm. eexists. split; [reflexivity|].
    unfold onclose. cbv zeta.
    change (may_retry (set_status ?a (set_sockets ?b h))) with (may_retry h).
    rewrite Hm. simpl. rewrite length_insert. by repeat split.
  - apply reconnect_delay_capped.
  - intros Hle. unfold reconnect_delay. by apply Q.min_r.
  - intros Hle. unfold reconnect_delay. by apply Q.min_l.
  - intros Hi. unfold reconnect_delay. apply Q.min_le_compat_r.
    rewrite pow2_succ.
    pose proof (pow2_ge_1 (reconnectCount h)) as Hp.
    set (P := Qpower 2 (Z.of_nat (reconnectCount h))) in *.
    set (a := reconnectInterval (options h)) in *. clearbody P a.
    assert (0 <= a * P)%Q by (apply Qmult_le_0_compat; lra). lra.
Qed.

Lemma hook_backoff_is_capped_witness :
  let h := connect (new_hook default_options "wss://ids.example/ws" 0) in
  let o := options h in
  let n := reconnectCount h in
  (may_retry h = true →
     ∃ h', step (EvClose 0) h = Some h'
           ∧ status h' = status_reconnecting
           ∧ reconnectCount h' = S n
           ∧ reconnectTimeoutRef h' = Some (nextTimer h)
           ∧ timers h' !! nextTimer h
             = Some (mkTimer TReconnect (reconnect_delay o n)
                       (inject_Z (now h) + reconnect_delay o n))
           ∧ length (sockets h') = length (sockets h))
  ∧ (may_retry h = false →
     ∃ h', step (EvClose 0) h = Some h'
           ∧ status h' = status_closed
           ∧ timers h' = timers h
           ∧ reconnectCount h' = n
           ∧ length (sockets h') = length (sockets h))
  ∧ (reconnect_delay o n <= maxReconnectInterval o)%Q
  ∧ ((maxReconnectInterval o <= reconnectInterval o * Qpower 2 (Z.of_nat n))%Q →
     (reconnect_delay o n == maxReconnectInterval o)%Q)
  ∧ ((reconnectInterval o * Qpower 2 (Z.of_nat n) <= maxReconnectInterval o)%Q →
     (reconnect_delay o n == reconnectInterval o * Qpower 2 (Z.of_nat n))%Q)
  ∧ ((0 <= reconnectInterval o)%Q →
     (reconnect_delay o n <= reconnect_delay o (S n))%Q).
Proof.
  apply (hook_backoff_is_capped 0
           (mkSocket "wss://ids.example/ws" CONNECTING true [])
           (connect (new_hook default_options "wss://ids.example/ws" 0)));
    [reflexivity | discriminate | reflexivity].
Defined.

(** X23.  The hook never leaks a timer.  In every state it reaches, a
    pending retry is the one held in reconnectTimeoutRef and waits no
    longer than maxReconnectInterval, a pending heartbeat interval is
    the one held in heartbeatRef, so at most one of each is pending;
    and the retry counter stays within reconnectAttempts. *)
Theorem hook_timers_never_leak
    (o : Options) (u : string) (t0 : Z) (es : list Event) (h : Hook) :
  run es (new_hook o u t0) = Some h →
  (∀ id t, timers h !! id = Some t → action t = TReconnect →
           reconnectTimeoutRef h = Some id
           ∧ (delay t <= maxReconnectInterval o)%Q)
  ∧ (∀ id t, timers h !! id = Some t → action t = THeartbeat →
             heartbeatRef h = Some id)
  ∧ (∀ id id' t t', timers h !! id = Some t → timers h !! id' = Some t' →
                    action t = action t' → id = id')
  ∧ (∀ n, reconnectAttempts o = Some n → reconnectCount h ≤ n).
Proof.
  intros Hrun.
  destruct (mounted_well_formed _ _ _ _ _ Hrun) as (_&_&W3&W4&W5).
  split; [|split; [|split; [|done]]].
  - intros id t Ht Ha. by destruct (W3 id t Ht Ha) as (?&?&_).
  - intros id t Ht Ha. by destruct (W4 id t Ht Ha) as (?&_).
  - intros id id' t t' Ht Ht' Ha. destruct (action t) eqn:Hact.
    + destruct (W3 id t Ht Hact) as (E1&_).
      destruct (W3 id' t' Ht' (eq_sym Ha)) as (E2&_). congruence.
    + destruct (W4 id t Ht Hact) as (E1&_).
      destruct (W4 id' t' Ht' (eq_sym Ha)) as (E2&_). congruence.
Qed.

Lemma hook_timers_never_leak_witness :
  let h := fifth_retry_pending in
  (∀ id t, timers h !! id = Some t → action t = TReconnect →
           reconnectTimeoutRef h = Some id
           ∧ (delay t <= maxReconnectInterval default_options)%Q)
  ∧ (∀ id t, timers h !! id = Some t → action t = THeartbeat →
             heartbeatRef h = Some id)
  ∧ (∀ id id' t t', timers h !! id = Some t → timers h !! id' = Some t' →
                    action t = action t' → id = id')
  ∧ (∀ n, reconnectAttempts default_options = Some n → reconnectCount h ≤ n).
Proof.
  apply (hook_timers_never_leak default_options "wss://ids.example/ws" 0
           five_failed_opens).
  vm_compute. reflexivity.
Defined.

(** X24.  A socket that the hook has replaced can no longer call it.  In
    every state the hook reaches only the socket held in [ws] has
    callbacks; an open, close, error or message event of any other
    socket changes nothing of the hook but that socket's readiness: the
    rendered state, the counter, the queue, the timers and the current
    socket stay as they are. *)
Theorem hook_replaced_socket_is_detached
    (o : Options) (u : string) (t0 : Z) (es : list Event) (h : Hook)
    (sid : nat) (s : Socket) (e : Event) (h' : Hook) :
  run es (new_hook o u t0) = Some h →
  sockets h !! sid = Some s → ws h ≠ Some sid →
  (e = EvOpen sid ∨ e = EvClose sid ∨ e = EvError sid
   ∨ ∃ data, e = EvMessage sid data) →
  step e h = Some h' →
  handlers s = false
  ∧ rendered h' = rendered h
  ∧ reconnectCount h' = reconnectCount h
  ∧ messageQueue h' = messageQueue h
  ∧ timers h' = timers h
  ∧ ws h' = ws h
  ∧ length (sockets h') = length (sockets h)
  ∧ (∀ sid', sid' ≠ sid → sockets h' !! sid' = sockets h !! sid').
Proof.
  intros Hrun Hs Hws He Hstep.
  destruct (mounted_well_formed _ _ _ _ _ Hrun) as (_&W2&_).
  assert (handlers s = false) as Hh.
  { destruct (handlers s) eqn:Hh; [|done]. by destruct (Hws (W2 sid s Hs Hh)). }
  split; [done|].
  assert (Hupd : ∀ f,
            rendered (update_socket sid f h) = rendered h
            ∧ reconnectCount (update_socket sid f h) = reconnectCount h
            ∧ messageQueue (update_socket sid f h) = messageQueue h
            ∧ timers (update_socket sid f h) = timers h
            ∧ ws (update_socket sid f h) = ws h
            ∧ length (sockets (update_socket sid f h)) = length (sockets h)
            ∧ (∀ sid', sid' ≠ sid →
                 sockets (update_socket sid f h) !! sid' = sockets h !! sid')).
  { intros f. unfold update_socket. rewrite Hs. simpl.
    rewrite length_insert. repeat split; try done.
    intros sid' Hne. by rewrite list_lookup_insert_ne. }
  destruct He as [->|[->|[->|[data ->]]]]; cbn [step] in Hstep;
    rewrite Hs, Hh in Hstep.
  - destruct (readyState s); try done. simplify_eq. apply Hupd.
  - destruct (readyState s); try done; simplify_eq; apply Hupd.
  - destruct (readyState s); try done; simplify_eq; by repeat split.
  - destruct (readyState s); try done; simplify_eq; by repeat split.
Qed.

Lemma hook_replaced_socket_is_detached_witness :
  let h := hook_remounted in
  ∃ h', step (EvClose 0) h = Some h'
        ∧ handlers (mkSocket "wss://ids.example/ws" CLOSING false
                      [Stringified (JObj [("type", JStr "ping");
                                          ("timestamp", JNum 15000)])])
          = false
        ∧ rendered h' = rendered h
        ∧ reconnectCount h' = reconnectCount h
        ∧ messageQueue h' = messageQueue h
        ∧ timers h' = timers h
        ∧ ws h' = ws h
        ∧ length (sockets h') = length (sockets h)
        ∧ (∀ sid', sid' ≠ 0 → sockets h' !! sid' = sockets h !! sid').
Proof.
  eexists. split; [vm_compute; reflexivity|].
  eapply (hook_replaced_socket_is_detached default_options
            "wss://ids.example/ws" 0 remounted hook_remounted 0 _ (EvClose 0)).
  - vm_compute. reflexivity.
  - vm_compute. reflexivity.
  - vm_compute. discriminate.
  - right. by left.
  - vm_compute. reflexivity.
Defined.

(** X25.  When the socket of the hook opens, the status becomes [open],
    the error is cleared, the retry counter is reset, the queue is
    transmitted in the order in which it was filled and left empty, and
    a heartbeat interval is armed when heartbeatInterval is positive. *)
Theorem hook_open_flushes_in_order (sid : nat) (s : Socket) (h : Hook) :
  ws h = Some sid → sockets h !! sid = Some s →
  readyState s = CONNECTING → handlers s = true →
  ∃ h',
    step (EvOpen sid) h = Some h'
    ∧ status h' = status_open
    ∧ error h' = None
    ∧ reconnectCount h' = 0
    ∧ messageQueue h' = []
    ∧ sent_on sid h' = sent s ++ messageQueue h
    ∧ ((0 < heartbeatInterval (options h))%Q →
       heartbeatRef h' = Some (nextTimer h)
       ∧ timers h' !! nextTimer h
         = Some (mkTimer THeartbeat (heartbeatInterval (options h))
                   (inject_Z (now h) + heartbeatInterval (options h))))
    ∧ ((heartbeatInterval (options h) <= 0)%Q → timers h' = timers h).
Proof.
  intros Hws Hs Hr Hh.
  assert (Hlen : sid < length (sockets h)) by (by eapply lookup_lt_Some).
  assert (Hstep : step (EvOpen sid) h
                  = Some (onopen (set_sockets
                            (<[sid := with_readyState OPEN s]> (sockets h)) h))).
  { cbn [step]. rewrite Hs, Hr, Hh. unfold update_socket. by rewrite Hs. }
  rewrite Hstep. clear Hstep. eexists. split; [reflexivity|].
  unfold onopen. cbv zeta.
  set (x := set_reconnectCount 0 _).
  assert (ws x = Some sid
          ∧ sockets x !! sid = Some (with_readyState OPEN s)
          ∧ messageQueue x = messageQueue h ∧ options x = options h
          ∧ nextTimer x = nextTimer h ∧ now x = now h ∧ timers x = timers h
          ∧ status x = status_open ∧ error x = None ∧ reconnectCount x = 0
          ∧ sockets x = <[sid := with_readyState OPEN s]> (sockets h))
    as (X1&X2&X3&X4&X5&X6&X7&X8&X9&X10&X11)
    by (unfold x; simpl; rewrite list_lookup_insert_eq by done;
        by repeat split).
  clearbody x.
  rewrite (flush_open sid (messageQueue x) (with_readyState OPEN s) x)
    by done.
  set (y := set_messageQueue [] _).
  assert (status y = status_open ∧ error y = None ∧ reconnectCount y = 0
          ∧ messageQueue y = []
          ∧ sent_on sid y = sent s ++ messageQueue h
          ∧ options y = options h ∧ nextTimer y = nextTimer h
          ∧ now y = now h ∧ timers y = timers h)
    as (Y1&Y2&Y3&Y4&Y5&Y6&Y7&Y8&Y9).
  { unfold y, sent_on. simpl.
    rewrite list_lookup_insert_eq by (rewrite X11, length_insert; done).
    simpl. rewrite X3. by repeat split. }
  clearbody y. unfold setupHeartbeat. rewrite Y6.
  destruct (Qlt_le_dec 0 (heartbeatInterval (options h))) as [Hpos|Hnon].
  - unfold setTimer, sent_on in *. simpl.
    rewrite Y7, Y8, lookup_insert_eq.
    do 5 (split; [done|]). split; [by intros _; split|].
    intros Hle. lra.
  - do 5 (split; [done|]). split; [|done].
    intros Hlt. lra.
Qed.

Lemma hook_open_flushes_in_order_witness :
  let h := send_many [JNum 1; JNum 2]
             (connect (new_hook default_options "wss://ids.example/ws" 0)) in
  ∃ h',
    step (EvOpen 0) h = Some h'
    ∧ status h' = status_open
    ∧ error h' = None
    ∧ reconnectCount h' = 0
    ∧ messageQueue h' = []
    ∧ sent_on 0 h' = [] ++ messageQueue h
    ∧ ((0 < heartbeatInterval (options h))%Q →
       heartbeatRef h' = Some (nextTimer h)
       ∧ timers h' !! nextTimer h
         = Some (mkTimer THeartbeat (heartbeatInterval (options h))
                   (inject_Z (now h) + heartbeatInterval (options h))))
    ∧ ((heartbeatInterval (options h) <= 0)%Q → timers h' = timers h).
Proof.
  apply (hook_open_flushes_in_order 0
           (mkSocket "wss://ids.example/ws" CONNECTING true []));
    vm_compute; reflexivity.
Defined.

(** X26.  The queue of the hook has no bound.  While the transport is
    not open every message given to sendMessage is appended to the
    queue, none is transmitted and none is dropped, however many there
    are. *)
Theorem hook_queue_is_unbounded (msgs : list json) (h : Hook) :
  ws_is_open h = false →
  messageQueue (send_many msgs h) = messageQueue h ++ map Stringified msgs
  ∧ length (messageQueue (send_many msgs h))
    = length (messageQueue h) + length msgs
  ∧ sockets (send_many msgs h) = sockets h
  ∧ ws_is_open (send_many msgs h) = false.
Proof.
  intros Hc. rewrite (hook_send_many_closed msgs h Hc). simpl.
  rewrite length_app, length_map. by repeat split.
Qed.

Lemma hook_queue_is_unbounded_witness :
  let h := connect (new_hook default_options "wss://ids.example/ws" 0) in
  let msgs := map (λ i, JNum (Z.of_nat i)) (seq 0 150) in
  messageQueue (send_many msgs h) = messageQueue h ++ map Stringified msgs
  ∧ length (messageQueue (send_many msgs h))
    = length (messageQueue h) + length msgs
  ∧ sockets (send_many msgs h) = sockets h
  ∧ ws_is_open (send_many msgs h) = false.
Proof.
  apply (hook_queue_is_unbounded (map (λ i, JNum (Z.of_nat i)) (seq 0 150))).
  reflexivity.
Defined.

(** X27.  An unmounted hook is inert.  The cleanup cancels every timer
    and detaches the callbacks of the socket; after it, whatever events
    and calls follow short of a new mount, nothing that the hook renders
    changes, no socket is constructed, no timer is pending or fires, and
    the retry counter stays as it is. *)
Theorem unmounted_hook_is_inert
    (o : Options) (u : string) (t0 : Z) (es es' : list Event) (h h' : Hook) :
  run es (new_hook o u t0) = Some h →
  forallb (λ e, negb (is_mount e)) es' = true →
  run es' (cleanup h) = Some h' →
  rendered h' = rendered h
  ∧ reconnectCount h' = reconnectCount h
  ∧ length (sockets h') = length (sockets h)
  ∧ timers h' = ∅
  ∧ (∀ id, step (EvTimer id) h' = None)
  ∧ (∀ sid s, sockets h' !! sid = Some s → handlers s = false).
Proof.
  intros Hrun Hes Hrun'.
  pose proof (mounted_well_formed _ _ _ _ _ Hrun) as H.
  destruct (cleanup_spec o h H) as (C1&_&_&C4&_&C6&_&_&_&C10&_).
  destruct (run_inert _ _ _ Hes C1 Hrun') as ([I1 I2]&R2&R3&R4).
  rewrite R2, R3, R4, C4, C6, C10.
  repeat split; try done.
  intros id. cbn [step]. by rewrite I1, lookup_empty.
Qed.

Lemma unmounted_hook_is_inert_witness :
  let h := hook_open in
  let h' := hook_unmounted in
  rendered h' = rendered h
  ∧ reconnectCount h' = reconnectCount h
  ∧ length (sockets h') = length (sockets h)
  ∧ timers h' = ∅
  ∧ (∀ id, step (EvTimer id) h' = None)
  ∧ (∀ sid s, sockets h' !! sid = Some s → handlers s = false).
Proof.
  apply (unmounted_hook_is_inert default_options "wss://ids.example/ws" 0
           queued_then_open
           [EvClose 0; CallSendMessage (JNum 3); EvAdvance 60000]).
  - vm_compute. reflexivity.
  - reflexivity.
  - vm_compute. reflexivity.
Defined.

End HookVariantProperties.
